(** * Draw-session coordination of the coaching-doorprize application

    A shallow embedding of the draw controllers (VipPage, AdminPage with
    MultiDrawingArea), of the shared drawing-state channel
    (hooks/useFirestore.ts and hooks/useFirebaseDrawingState.ts) and of the
    public display (DisplayPage), followed by the properties of the
    draw-session protocol.  Further parts of the same code follow the
    vocabulary: the pauses of the retry loop, the reading of stored data,
    the reset of the shared record, the removal of participants, the
    strings of the participant manager and of the file import; their
    properties close the file.

    Conventions of the model.
    - A JavaScript value is a [JsVal]; a plain object is a finite map from
      property names to values.
    - The Firestore back end is a [World]: the single drawing-state document
      and the three collections.  Every remote call first consumes one entry
      of the [faults] list, which decides whether the transport fails.
    - An asynchronous function is a computation in the monad [M]; [await] is
      the bind of the monad, a call that is not awaited is run with [fire],
      which discards a rejection.
    - A React closure sees the values of the render it was created in: a
      handler receives them as explicit arguments, and its [setState] calls
      act on the component state carried by the monad. *)

From stdpp Require Import gmap strings list fin_maps pretty.
From Stdlib Require Import ZArith Permutation Ascii QArith.

#[local] Close Scope Q_scope.

#[local] Set Warnings "-register-all".
#[local] Open Scope string_scope.

(** ** JavaScript values *)

Inductive JsVal :=
  | JUndef
  | JNull
  | JBool (b : bool)
  | JNum (n : Z)
  | JStr (s : string)
  | JDate (t : Z)
  | JInst (cls : string) (own : gmap string JsVal)
  | JArr (l : list JsVal)
  | JObj (o : gmap string JsVal).

Abbreviation Obj := (gmap string JsVal).

(** [!!v] of JavaScript. *)
Definition truthy (v : JsVal) : bool :=
  match v with
  | JUndef | JNull => false
  | JBool b => b
  | JNum n => negb (n =? 0)%Z
  | JStr s => negb (String.eqb s "")
  | _ => true
  end.

(** [{...a, ...b}]: the properties of [b] win. *)
Definition spread (a b : Obj) : Obj := b ∪ a.

(** The sentinel returned by [serverTimestamp()]: an instance of the SDK's
    field-value class. *)
Definition serverTimestamp : JsVal :=
  JInst "FieldValue" {[ "_methodName" := JStr "serverTimestamp" ]}.

(** [Timestamp.fromDate(d)]. *)
Definition timestampFromDate (t : Z) : JsVal :=
  JInst "Timestamp" {[ "seconds" := JNum (t / 1000)%Z;
                       "nanoseconds" := JNum ((t mod 1000) * 1000000)%Z ]}.

(** [PerformanceOptimizer.prepareForFirestore]: dates become timestamps,
    arrays and objects are rebuilt entry by entry (an instance of a class is
    an object for [typeof], so it is rebuilt as a plain object too). *)
Fixpoint prepareForFirestore (data : JsVal) : JsVal :=
  match data with
  | JDate t => timestampFromDate t
  | JArr l => JArr (map prepareForFirestore l)
  | JInst _ o => JObj (prepareForFirestore <$> o)
  | JObj o => JObj (prepareForFirestore <$> o)
  | _ => data
  end.

(** [prepareForFirestore] applied to an object literal. *)
Definition prepareObj (o : Obj) : Obj := prepareForFirestore <$> o.

(** ** Domain records (types.ts) *)

Record Participant := mkParticipant {
  p_id : string;
  p_name : string;
  p_addedAt : Z;
  p_email : option string
}.

Record Prize := mkPrize {
  z_id : string;
  z_name : string;
  z_image : option string;
  z_quota : Z;
  z_remainingQuota : Z
}.

Record Winner := mkWinner {
  w_id : string;
  w_name : string;
  w_wonAt : Z;
  w_prizeId : option string;
  w_prizeName : option string;
  w_drawSession : option string;
  w_email : option string
}.

#[export] Instance Winner_eq_dec : EqDecision Winner.
Proof. solve_decision. Defined.
#[export] Instance Participant_eq_dec : EqDecision Participant.
Proof. solve_decision. Defined.
#[export] Instance Prize_eq_dec : EqDecision Prize.
Proof. solve_decision. Defined.

Definition optStr (o : option string) : JsVal :=
  match o with Some s => JStr s | None => JUndef end.

Definition winnerToJs (w : Winner) : JsVal :=
  JObj (list_to_map
    [("id", JStr (w_id w)); ("name", JStr (w_name w)); ("wonAt", JDate (w_wonAt w));
     ("prizeId", optStr (w_prizeId w)); ("prizeName", optStr (w_prizeName w));
     ("drawSession", optStr (w_drawSession w)); ("email", optStr (w_email w))]).

Definition participantToJs (p : Participant) : JsVal :=
  JObj (list_to_map
    [("id", JStr (p_id p)); ("name", JStr (p_name p)); ("addedAt", JDate (p_addedAt p));
     ("email", optStr (p_email p))]).

Definition winnersToJs (ws : list Winner) : JsVal := JArr (map winnerToJs ws).
Definition participantsToJs (ps : list Participant) : JsVal := JArr (map participantToJs ps).

(** ** The back end and the monad of asynchronous code *)

Inductive JsErr :=
  | FirestoreErr (code : string)
  | DrawingStateErr (code : option string)
  | PlainErr (msg : string)
  | TypeErr.

Record World := mkWorld {
  drawingDoc : option Obj;
  winnersCol : list Winner;
  prizesCol : list Prize;
  participantsCol : list Participant;
  faults : list (option string)
}.

(** What one page runs against: the back end, the local storage of its
    browser, the messages it has shown with [alert], and its React state. *)
Record Env (S : Type) := mkEnv {
  backend : World;
  localStorage : gmap string string;
  alerts : list string;
  react : S
}.
Arguments mkEnv {S} _ _ _ _.
Arguments backend {S} _.
Arguments localStorage {S} _.
Arguments alerts {S} _.
Arguments react {S} _.

Inductive Res (A : Type) :=
  | Ok (a : A)
  | Thrown (e : JsErr).
Arguments Ok {A} a.
Arguments Thrown {A} e.

Definition M (S A : Type) : Type := Env S → Res A * Env S.

Definition ret {S A} (a : A) : M S A := fun e => (Ok a, e).
Definition throw {S A} (err : JsErr) : M S A := fun e => (Thrown err, e).
Definition bind {S A B} (m : M S A) (k : A → M S B) : M S B :=
  fun e => match m e with
           | (Ok a, e') => k a e'
           | (Thrown err, e') => (Thrown err, e')
           end.
Definition tryCatch {S A} (m : M S A) (h : JsErr → M S A) : M S A :=
  fun e => match m e with
           | (Ok a, e') => (Ok a, e')
           | (Thrown err, e') => h err e'
           end.
(** A promise that nobody awaits: its effects happen, its rejection is lost. *)
Definition fire {S A} (m : M S A) : M S unit :=
  fun e => (Ok tt, snd (m e)).

Notation "'let*' x := m 'in' k" := (bind m (fun x => k))
  (at level 10, x name, m at level 100, k at level 200).

(** [setState(f)] of React. *)
Definition setState {S} (f : S → S) : M S unit :=
  fun e => (Ok tt, mkEnv (backend e) (localStorage e) (alerts e) (f (react e))).
Definition alert {S} (message : string) : M S unit :=
  fun e => (Ok tt, mkEnv (backend e) (localStorage e) (alerts e ++ [message]) (react e)).
Definition getItem {S} (key : string) : M S (option string) :=
  fun e => (Ok (localStorage e !! key), e).
Definition setItem {S} (key value : string) : M S unit :=
  fun e => (Ok tt, mkEnv (backend e) (<[key := value]> (localStorage e)) (alerts e) (react e)).
Definition removeItem {S} (key : string) : M S unit :=
  fun e => (Ok tt, mkEnv (backend e) (delete key (localStorage e)) (alerts e) (react e)).
Definition setBackend {S} (w : World) : M S unit :=
  fun e => (Ok tt, mkEnv w (localStorage e) (alerts e) (react e)).
Definition getBackend {S} : M S World := fun e => (Ok (backend e), e).

(** One round trip: the next entry of [faults] tells whether it fails. *)
Definition transport {S} : M S unit :=
  let* w := getBackend in
  match faults w with
  | Some code :: fs =>
      let* _ := setBackend (mkWorld (drawingDoc w) (winnersCol w) (prizesCol w)
                                    (participantsCol w) fs) in
      throw (FirestoreErr code)
  | None :: fs =>
      setBackend (mkWorld (drawingDoc w) (winnersCol w) (prizesCol w)
                          (participantsCol w) fs)
  | [] => ret tt
  end.

(** [updateDoc(docRef, fields)] on drawingState/current: merges the fields
    into the document, or fails with [not-found] when there is none. *)
Definition updateDoc_drawing {S} (fields : Obj) : M S unit :=
  let* _ := transport in
  let* w := getBackend in
  match drawingDoc w with
  | None => throw (FirestoreErr "not-found")
  | Some d => setBackend (mkWorld (Some (spread d fields)) (winnersCol w)
                                  (prizesCol w) (participantsCol w) (faults w))
  end.

(** [setDoc(docRef, data)] on drawingState/current: replaces the document. *)
Definition setDoc_drawing {S} (data : Obj) : M S unit :=
  let* _ := transport in
  let* w := getBackend in
  setBackend (mkWorld (Some data) (winnersCol w) (prizesCol w)
                      (participantsCol w) (faults w)).

(** [addDoc(collection(db, 'winners'), item)]. *)
Definition addDoc_winner {S} (item : Winner) : M S unit :=
  let* _ := transport in
  let* w := getBackend in
  setBackend (mkWorld (drawingDoc w) (winnersCol w ++ [item]) (prizesCol w)
                      (participantsCol w) (faults w)).

Definition setRemainingQuota (q : Z) (p : Prize) : Prize :=
  mkPrize (z_id p) (z_name p) (z_image p) (z_quota p) q.

(** [updateDoc(doc(db, 'prizes', id), { remainingQuota })]. *)
Definition updateDoc_prizeQuota {S} (id : string) (remainingQuota : Z) : M S unit :=
  let* _ := transport in
  let* w := getBackend in
  if bool_decide (id ∈ map z_id (prizesCol w))
  then setBackend (mkWorld (drawingDoc w) (winnersCol w)
         (map (fun p => if bool_decide (z_id p = id)
                        then setRemainingQuota remainingQuota p else p) (prizesCol w))
         (participantsCol w) (faults w))
  else throw (FirestoreErr "not-found").

(** One [writeBatch] deleting the participants with the given ids. *)
Definition commitDeleteBatch {S} (batchIds : list string) : M S unit :=
  let* _ := transport in
  let* w := getBackend in
  setBackend (mkWorld (drawingDoc w) (winnersCol w) (prizesCol w)
                      (filter (fun p => p_id p ∉ batchIds) (participantsCol w))
                      (faults w)).

(** [err.code]. *)
Definition errCode (e : JsErr) : option string :=
  match e with
  | FirestoreErr code => Some code
  | DrawingStateErr code => code
  | _ => None
  end.

(** ** RetryManager (useFirestore.ts) *)

Module RetryManager.

Definition maxRetries : nat := 3.

Definition RETRYABLE_ERRORS : list string :=
  ["unavailable"; "deadline-exceeded"; "internal"; "resource-exhausted"].

Definition shouldRetry (e : JsErr) : bool :=
  match errCode e with
  | Some code => bool_decide (code ∈ RETRYABLE_ERRORS)
  | None => false
  end.

(** The loop [for (attempt = 1; attempt <= maxRetries; attempt++)], counted
    by the attempts that are left; the delay between attempts is not
    modelled. *)
Fixpoint attempts {S A} (left : nat) (operation : M S A) : M S A :=
  match left with
  | 0 => throw (PlainErr "undefined")
  | S left' =>
      tryCatch operation (fun error =>
        if bool_decide (left' = 0) || negb (shouldRetry error)
        then throw error
        else attempts left' operation)
  end.

Definition executeWithRetry {S A} (operation : M S A) : M S A :=
  attempts maxRetries operation.

End RetryManager.

(** ** The drawing-state hook exported by hooks/useFirestore.ts *)

Module UseFirestore.

Definition DEFAULT_DRAWING_STATE : Obj :=
  list_to_map
    [("shouldStartSlowdown", JBool false); ("predeterminedWinners", JArr []);
     ("isDrawing", JBool false); ("currentWinners", JArr []);
     ("selectedPrizeId", JNull); ("selectedPrizeQuota", JNum 0);
     ("participants", JArr []); ("shouldStartSpinning", JBool false);
     ("showWinnerDisplay", JBool false); ("shouldResetToReady", JBool false);
     ("vipProcessedWinners", JBool false); ("vipControlActive", JBool false)].

Definition updateDrawingState {S} (updates : Obj) : M S unit :=
  if bool_decide (updates = ∅) then throw (PlainErr "No updates provided")
  else
    RetryManager.executeWithRetry (
      let processedUpdates :=
        spread (prepareObj updates) {[ "lastUpdated" := serverTimestamp ]} in
      tryCatch (updateDoc_drawing processedUpdates) (fun err =>
        if bool_decide (errCode err = Some "not-found")
        then setDoc_drawing
               (spread (spread DEFAULT_DRAWING_STATE processedUpdates)
                       {[ "created" := serverTimestamp ]})
        else throw err)).

End UseFirestore.

(** ** hooks/useFirebaseDrawingState.ts, the hook the pages import *)

Module UseFirebaseDrawingState.

Definition DEFAULT_DRAWING_STATE : Obj :=
  list_to_map
    [("shouldStartSlowdown", JBool false); ("predeterminedWinners", JArr []);
     ("isDrawing", JBool false); ("currentWinners", JArr []);
     ("showConfetti", JBool false);
     ("selectedPrizeId", JNull); ("selectedPrizeQuota", JNum 0);
     ("participants", JArr []); ("shouldStartSpinning", JBool false);
     ("showWinnerDisplay", JBool false); ("shouldResetToReady", JBool false);
     ("vipProcessedWinners", JBool false); ("vipControlActive", JBool false)].

Definition updateDrawingState {S} (updates : Obj) : M S unit :=
  if bool_decide (updates = ∅)
  then throw (DrawingStateErr None)
  else
    tryCatch
      (let processedUpdates :=
         prepareObj (spread updates {[ "lastUpdated" := serverTimestamp ]}) in
       updateDoc_drawing processedUpdates)
      (fun err =>
         if bool_decide (errCode err = Some "not-found")
         then setDoc_drawing
                (prepareObj (spread (spread DEFAULT_DRAWING_STATE updates)
                                    {[ "lastUpdated" := serverTimestamp ]}))
         else throw (DrawingStateErr (errCode err))).

End UseFirebaseDrawingState.

(** ** The collection hook [useFirestore] (hooks/useFirestore.ts) *)

Module Hook.

Definition add_winner {S} (item : Winner) : M S unit :=
  RetryManager.executeWithRetry (addDoc_winner item).

Definition update_prizeQuota {S} (id : string) (remainingQuota : Z) : M S unit :=
  RetryManager.executeWithRetry (updateDoc_prizeQuota id remainingQuota).

(** The batches [ids.slice(i, i + batchSize)] for [i = 0, batchSize, ...];
    [n] bounds the number of batches. *)
Fixpoint batchesOf (n : nat) (batchSize : nat) (ids : list string) : list (list string) :=
  match n with
  | 0 => []
  | S n' => match ids with
            | [] => []
            | _ => take batchSize ids :: batchesOf n' batchSize (drop batchSize ids)
            end
  end.

(** [Promise.all(batches)]: every commit is issued; the first rejection, if
    any, is the rejection of the whole. *)
Fixpoint commitAll {S} (batches : list (list string)) : M S unit :=
  match batches with
  | [] => ret tt
  | b :: rest =>
      fun e => match commitDeleteBatch b e with
               | (Ok _, e') => commitAll rest e'
               | (Thrown err, e') => (Thrown err, snd (commitAll rest e'))
               end
  end.

Definition removeMultiple_participants {S} (ids : list string) : M S unit :=
  match ids with
  | [] => ret tt
  | _ => RetryManager.executeWithRetry (commitAll (batchesOf (length ids) 500 ids))
  end.

End Hook.

(** ** Drawing logic shared by the two controllers *)

(** [Array.prototype.slice(0, end)]. *)
Definition sliceTo {A} (l : list A) (e : Z) : list A :=
  let len := Z.of_nat (length l) in
  let k := if (e <? 0)%Z then Z.max (len + e) 0 else Z.min e len in
  take (Z.to_nat k) l.

(** [[...availableParticipants].sort(() => Math.random() - 0.5)]: the order
    that comes out depends on the engine and on the random numbers drawn;
    the array it returns holds the elements it was given. *)
Class Shuffler := {
  sortRandom : list Participant → list Participant;
  sortRandom_perm : ∀ l, sortRandom l ≡ₚ l
}.

(** The random sort as a process.  One run of
    [[...pool].sort(() => Math.random() - 0.5)], as the engine's sort
    algorithm unfolds it for the array it was given: the sort either
    returns, with the elements in some order, or calls the comparator and
    goes on according to the sign of what it returns.  The comparator
    ignores its arguments, so a run is the engine's algorithm for that
    array and nothing else. *)
Module RandomSort.

Inductive SortRun :=
  | Returns (order : Shuffler)
  | Compares (negative zero positive : SortRun).

Section Generator.

(** [Math.random()] is [k / 2^(m+1)] for a number [k] drawn evenly from
    [0 .. 2^(m+1) - 1], a double built from [m + 1] random bits, and the
    numbers of successive calls are independent. *)
Variable m : nat.

Definition resolution : positive := (2 ^ Pos.of_succ_nat m)%positive.

(** [Math.random() - 0.5] is negative for the [2^m] values of [k] below
    [2^m], zero for [k = 2^m] and positive for the [2^m - 1] others. *)
Definition pNegative : Q := (2 ^ Z.of_nat m # resolution)%Q.
Definition pZero : Q := (1 # resolution)%Q.
Definition pPositive : Q := ((2 ^ Z.of_nat m - 1) # resolution)%Q.

(** The probability that the order the sort returns satisfies [event]. *)
Fixpoint prob (run : SortRun) (event : Shuffler → bool) : Q :=
  match run with
  | Returns order => if event order then 1%Q else 0%Q
  | Compares negative zero positive =>
      (pNegative * prob negative event + pZero * prob zero event
       + pPositive * prob positive event)%Q
  end.

End Generator.

(** A number [k / 2^n]. *)
Definition dyadic (q : Q) : Prop :=
  ∃ (k : Z) (n : nat), (q * inject_Z (2 ^ Z.of_nat n) == inject_Z k)%Q.

End RandomSort.

(** The memo [selectedPrize]. *)
Definition selectedPrizeOf (prizes : list Prize) (selectedPrizeId : option string)
  : option Prize :=
  match selectedPrizeId with
  | None => None
  | Some i => if bool_decide (i = "") then None
              else find (fun prize => bool_decide (z_id prize = i)) prizes
  end.

(** The memo [availableParticipants]. *)
Definition availableParticipantsOf (participants : list Participant)
    (currentWinners : list Winner) : list Participant :=
  let winnerNames := map w_name currentWinners in
  filter (fun participant => p_name participant ∉ winnerNames) participants.

Definition drawCountOf (selectedPrize : option Prize) (multiDrawCount : Z)
    (availableParticipants : list Participant) : Z :=
  match selectedPrize with
  | Some prize => Z.min (z_remainingQuota prize) (Z.of_nat (length availableParticipants))
  | None => Z.min multiDrawCount (Z.of_nat (length availableParticipants))
  end.

Inductive Validation :=
  | Valid
  | Invalid (message : string).

Definition isValid (v : Validation) : bool :=
  match v with Valid => true | Invalid _ => false end.

(** The checks common to both [validateDraw] functions. *)
Definition validateCommon (selectedPrize : option Prize)
    (availableParticipants : list Participant) (drawCount : Z) : Validation :=
  match selectedPrize with
  | None => Invalid "Silakan pilih hadiah sebelum memulai undian."
  | Some prize =>
      if (z_remainingQuota prize =? 0)%Z
      then Invalid "Hadiah ini tidak memiliki kuota tersisa."
      else if bool_decide (length availableParticipants = 0)
      then Invalid "Tidak ada peserta yang tersedia untuk undian (semua sudah menang)."
      else if (drawCount =? 0)%Z
      then Invalid "Tidak ada pemenang yang dapat diundi dengan pengaturan saat ini."
      else Valid
  end.

(** [selectedPrize?.remainingQuota || 1]. *)
Definition quotaOrOne (selectedPrize : option Prize) : Z :=
  match selectedPrize with
  | Some prize => if (z_remainingQuota prize =? 0)%Z then 1%Z else z_remainingQuota prize
  | None => 1%Z
  end.

(** The values a page reads from its hooks in one render. *)
Record DrawingState := mkDrawingState {
  ds_isDrawing : bool;
  ds_currentWinners : list Winner;
  ds_finalWinners : option (list Winner);
  ds_predeterminedWinners : list Winner;
  ds_participants : list Participant;
  ds_selectedPrizeId : option string;
  ds_selectedPrizeName : option string;
  ds_selectedPrizeImage : option string;
  ds_selectedPrizeQuota : Z;
  ds_shouldStartSpinning : bool;
  ds_shouldStartSlowdown : bool;
  ds_showWinnerDisplay : bool;
  ds_vipProcessedWinners : bool;
  ds_vipControlActive : bool
}.

Record Hooks := mkHooks {
  h_participants : list Participant;
  h_prizes : list Prize;
  h_winners : list Winner;
  h_multiDrawCount : Z;
  h_soundEnabled : bool;
  h_drawingState : DrawingState
}.

(** The clock: [clk k] is the [k]-th reading of [Date.now()] or [new Date()]
    inside one call. *)
Definition Clock := nat → Z.

Import UseFirebaseDrawingState.

(** ** The secondary controller: VipPage *)

Module Vip.

Inductive Phase := Spinning | Generated.
Inductive Status := SIdle | SGenerating | SSpinning | SStopping | SSaving | SComplete | SError.

Record State := mkState {
  isDrawing : bool;
  predeterminedWinners : list Winner;
  selectedPrizeId : option string;
  drawingPhase : Phase;
  vipControlActive : bool;
  isProcessing : bool;
  processingStatus : Status;
  lastDrawSession : option string
}.

Definition setIsDrawing b (s : State) :=
  mkState b (predeterminedWinners s) (selectedPrizeId s) (drawingPhase s)
          (vipControlActive s) (isProcessing s) (processingStatus s) (lastDrawSession s).
Definition setPredeterminedWinners ws (s : State) :=
  mkState (isDrawing s) ws (selectedPrizeId s) (drawingPhase s)
          (vipControlActive s) (isProcessing s) (processingStatus s) (lastDrawSession s).
Definition setSelectedPrizeId i (s : State) :=
  mkState (isDrawing s) (predeterminedWinners s) i (drawingPhase s)
          (vipControlActive s) (isProcessing s) (processingStatus s) (lastDrawSession s).
Definition setDrawingPhase p (s : State) :=
  mkState (isDrawing s) (predeterminedWinners s) (selectedPrizeId s) p
          (vipControlActive s) (isProcessing s) (processingStatus s) (lastDrawSession s).
Definition setVipControlActive b (s : State) :=
  mkState (isDrawing s) (predeterminedWinners s) (selectedPrizeId s) (drawingPhase s)
          b (isProcessing s) (processingStatus s) (lastDrawSession s).
Definition setIsProcessing b (s : State) :=
  mkState (isDrawing s) (predeterminedWinners s) (selectedPrizeId s) (drawingPhase s)
          (vipControlActive s) b (processingStatus s) (lastDrawSession s).
Definition setProcessingStatus st (s : State) :=
  mkState (isDrawing s) (predeterminedWinners s) (selectedPrizeId s) (drawingPhase s)
          (vipControlActive s) (isProcessing s) st (lastDrawSession s).
Definition setLastDrawSession i (s : State) :=
  mkState (isDrawing s) (predeterminedWinners s) (selectedPrizeId s) (drawingPhase s)
          (vipControlActive s) (isProcessing s) (processingStatus s) i.

Section Closure.
(** The values captured by the callbacks of one render. *)
Context `{Shuffler}.
Variable clk : Clock.
Variable h : Hooks.
Variable st : State.

Definition selectedPrize : option Prize :=
  selectedPrizeOf (h_prizes h) (selectedPrizeId st).

Definition availableParticipants : list Participant :=
  availableParticipantsOf (h_participants h) (ds_currentWinners (h_drawingState h)).

Definition drawCount : Z :=
  drawCountOf selectedPrize (h_multiDrawCount h) availableParticipants.

Definition validateDraw : Validation :=
  validateCommon selectedPrize availableParticipants drawCount.

(** The winners, and the session id handed to [setLastDrawSession]. *)
Definition generateWinners : list Winner * option string :=
  match selectedPrize with
  | None => ([], None)
  | Some prize =>
      if bool_decide (length availableParticipants = 0) then ([], None)
      else
        let shuffledParticipants := sortRandom availableParticipants in
        let selectedParticipants := sliceTo shuffledParticipants drawCount in
        let sessionId := "vip-" +:+ z_id prize +:+ "-" +:+ pretty (clk 0) in
        (imap (fun index participant =>
                 mkWinner (p_id participant +:+ "-" +:+ pretty (clk (2 * index + 1))
                             +:+ "-" +:+ pretty index)
                          (p_name participant)
                          (clk (2 * index + 2))
                          (Some (z_id prize))
                          (Some (z_name prize))
                          (Some sessionId)
                          None)
              selectedParticipants,
         Some sessionId)
  end.

(** [w.drawSession === lastDrawSession]: an absent [drawSession] is
    [undefined], an unset [lastDrawSession] is [null]. *)
Definition sameSession (w : Winner) : bool :=
  match w_drawSession w, lastDrawSession st with
  | Some a, Some b => bool_decide (a = b)
  | _, _ => false
  end.

Fixpoint addEach (winners : list Winner) : M State unit :=
  match winners with
  | [] => ret tt
  | winner :: rest => let* _ := Hook.add_winner winner in addEach rest
  end.

Definition saveWinnersToDatabase (winners : list Winner) : M State bool :=
  if bool_decide (length winners = 0) then ret false
  else
    tryCatch
      (let* _ := setState (setProcessingStatus SSaving) in
       let existingWinners := List.filter sameSession (h_winners h) in
       if bool_decide (0 < length existingWinners) then ret true
       else
         let* _ := addEach winners in
         ret true)
      (fun error =>
         let* _ := setState (setProcessingStatus SError) in
         ret false).

Definition updatePrizeQuota (prize : Prize) (winnersCount : Z) : M State bool :=
  tryCatch
    (match find (fun p => bool_decide (z_id p = z_id prize)) (h_prizes h) with
     | None => ret false
     | Some currentPrize =>
         let newQuota := Z.max 0 (z_remainingQuota currentPrize - winnersCount) in
         let* _ := Hook.update_prizeQuota (z_id prize) newQuota in
         let* _ :=
           if (newQuota <=? 0)%Z
           then let* _ := setState (setSelectedPrizeId None) in
                updateDrawingState {[ "selectedPrizeId" := JNull ]}
           else ret tt in
         ret true
     end)
    (fun error => ret false).

(** The callback handed to [setTimeout(..., 3500)] by the stop branch. *)
Definition finalizeAfterSlowdown : M State unit :=
  let* saveSuccess := saveWinnersToDatabase (predeterminedWinners st) in
  if negb saveSuccess
  then let* _ := setState (setProcessingStatus SError) in
       setState (setIsProcessing false)
  else
    let* _ := match selectedPrize with
              | Some prize =>
                  let* _ := updatePrizeQuota prize
                              (Z.of_nat (length (predeterminedWinners st))) in
                  ret tt
              | None => ret tt
              end in
    let* _ := updateDrawingState (list_to_map
      [("isDrawing", JBool false); ("shouldStartSpinning", JBool false);
       ("shouldStartSlowdown", JBool false); ("showWinnerDisplay", JBool true);
       ("finalWinners", winnersToJs (predeterminedWinners st));
       ("currentWinners", winnersToJs (predeterminedWinners st));
       ("vipProcessedWinners", JBool true); ("vipControlActive", JBool true)]) in
    let* _ := setItem "vipProcessedWinners" "true" in
    let* _ := setItem "vipDrawSession" (default "" (lastDrawSession st)) in
    let* _ := setState (setProcessingStatus SComplete) in
    let* _ := setState (setIsDrawing false) in
    let* _ := setState (setPredeterminedWinners []) in
    let* _ := setState (setDrawingPhase Generated) in
    setState (setIsProcessing false).

(** [handleMainButton]; the result tells whether the 3500 ms timer that
    runs [finalizeAfterSlowdown] was armed. *)
Definition handleMainButton : M State bool :=
  if isProcessing st then ret false
  else match drawingPhase st with
  | Generated =>
      match validateDraw with
      | Invalid message => let* _ := alert message in ret false
      | Valid =>
          let* _ := setState (setIsProcessing true) in
          let* _ := setState (setProcessingStatus SGenerating) in
          let* _ := setState (setVipControlActive true) in
          let '(finalWinners, session) := generateWinners in
          let* _ := match session with
                    | Some sessionId => setState (setLastDrawSession (Some sessionId))
                    | None => ret tt
                    end in
          let* _ := setState (setPredeterminedWinners finalWinners) in
          let* _ := updateDrawingState (list_to_map
            [("isDrawing", JBool true); ("currentWinners", JArr []);
             ("shouldStartSpinning", JBool true); ("showWinnerDisplay", JBool false);
             ("selectedPrizeName", optStr (z_name <$> selectedPrize));
             ("selectedPrizeImage", optStr (selectedPrize ≫= z_image));
             ("selectedPrizeQuota", JNum (quotaOrOne selectedPrize));
             ("selectedPrizeId", optStr (z_id <$> selectedPrize));
             ("participants", participantsToJs (h_participants h));
             ("drawStartTime", JNum (clk 0));
             ("finalWinners", winnersToJs finalWinners);
             ("predeterminedWinners", winnersToJs finalWinners);
             ("vipProcessedWinners", JBool false); ("vipControlActive", JBool true)]) in
          let* _ := removeItem "vipProcessedWinners" in
          let* _ := removeItem "vipDrawSession" in
          let* _ := setState (setIsDrawing true) in
          let* _ := setState (setDrawingPhase Spinning) in
          let* _ := setState (setProcessingStatus SComplete) in
          let* _ := setState (setIsProcessing false) in
          ret false
      end
  | Spinning =>
      if bool_decide (length (predeterminedWinners st) = 0) then ret false
      else
        let* _ := setState (setIsProcessing true) in
        let* _ := setState (setProcessingStatus SStopping) in
        let* _ := updateDrawingState (list_to_map
          [("shouldStartSlowdown", JBool true); ("shouldStartSpinning", JBool true);
           ("predeterminedWinners", winnersToJs (predeterminedWinners st));
           ("vipControlActive", JBool true)]) in
        ret true
  end.

End Closure.

End Vip.

(** ** The primary controller: AdminPage with MultiDrawingArea *)

Module Admin.

Inductive VipControlStatus := VIdle | VActive | VProcessing | VCompleted.
Inductive RemovalStatus := RIdle | RProcessing | RSuccess | RError.

(** The state of AdminPage ([currentWinners] to [pageVipControlActive]) and
    of the MultiDrawingArea it renders. *)
Record State := mkState {
  currentWinners : list Winner;
  selectedPrizeId : option string;
  isDrawing : bool;
  pageVipControlActive : bool;
  predeterminedWinners : list Winner;
  vipControlActive : bool;
  vipControlStatus : VipControlStatus;
  showDeleteConfirm : bool;
  winnerProcessing : RemovalStatus
}.

Definition setCurrentWinners ws (s : State) :=
  mkState ws (selectedPrizeId s) (isDrawing s) (pageVipControlActive s)
          (predeterminedWinners s) (vipControlActive s) (vipControlStatus s)
          (showDeleteConfirm s) (winnerProcessing s).
Definition setSelectedPrizeId i (s : State) :=
  mkState (currentWinners s) i (isDrawing s) (pageVipControlActive s)
          (predeterminedWinners s) (vipControlActive s) (vipControlStatus s)
          (showDeleteConfirm s) (winnerProcessing s).
Definition setIsDrawing b (s : State) :=
  mkState (currentWinners s) (selectedPrizeId s) b (pageVipControlActive s)
          (predeterminedWinners s) (vipControlActive s) (vipControlStatus s)
          (showDeleteConfirm s) (winnerProcessing s).
Definition setPageVipControlActive b (s : State) :=
  mkState (currentWinners s) (selectedPrizeId s) (isDrawing s) b
          (predeterminedWinners s) (vipControlActive s) (vipControlStatus s)
          (showDeleteConfirm s) (winnerProcessing s).
Definition setPredeterminedWinners ws (s : State) :=
  mkState (currentWinners s) (selectedPrizeId s) (isDrawing s) (pageVipControlActive s)
          ws (vipControlActive s) (vipControlStatus s)
          (showDeleteConfirm s) (winnerProcessing s).
Definition setVipControlActive b (s : State) :=
  mkState (currentWinners s) (selectedPrizeId s) (isDrawing s) (pageVipControlActive s)
          (predeterminedWinners s) b (vipControlStatus s)
          (showDeleteConfirm s) (winnerProcessing s).
Definition setVipControlStatus v (s : State) :=
  mkState (currentWinners s) (selectedPrizeId s) (isDrawing s) (pageVipControlActive s)
          (predeterminedWinners s) (vipControlActive s) v
          (showDeleteConfirm s) (winnerProcessing s).
Definition setShowDeleteConfirm b (s : State) :=
  mkState (currentWinners s) (selectedPrizeId s) (isDrawing s) (pageVipControlActive s)
          (predeterminedWinners s) (vipControlActive s) (vipControlStatus s)
          b (winnerProcessing s).
Definition setWinnerProcessing r (s : State) :=
  mkState (currentWinners s) (selectedPrizeId s) (isDrawing s) (pageVipControlActive s)
          (predeterminedWinners s) (vipControlActive s) (vipControlStatus s)
          (showDeleteConfirm s) r.

Inductive Timer :=
  | FinalizeAfter3500 (winners : list Winner)
  | RemovalAfter1000 (winners : list Winner).

Section Closure.
Context `{Shuffler}.
Variable clk : Clock.
Variable h : Hooks.
Variable st : State.

Definition selectedPrize : option Prize :=
  selectedPrizeOf (h_prizes h) (selectedPrizeId st).

Definition availableParticipants : list Participant :=
  availableParticipantsOf (h_participants h) (currentWinners st).

Definition drawCount : Z :=
  drawCountOf selectedPrize (h_multiDrawCount h) availableParticipants.

Definition isActive (v : VipControlStatus) : bool :=
  match v with VActive => true | _ => false end.
Definition isCompleted (v : VipControlStatus) : bool :=
  match v with VCompleted => true | _ => false end.

Definition validateDraw : Validation :=
  if vipControlActive st && isActive (vipControlStatus st)
  then Invalid "VIP sedang mengontrol undian. Silakan tunggu."
  else validateCommon selectedPrize availableParticipants drawCount.

Definition generateWinners : list Winner :=
  match selectedPrize with
  | None => []
  | Some prize =>
      if bool_decide (length availableParticipants = 0) then []
      else
        let shuffledParticipants := sortRandom availableParticipants in
        let selectedParticipants := sliceTo shuffledParticipants drawCount in
        imap (fun index participant =>
                mkWinner (p_id participant +:+ "-" +:+ pretty (clk (3 * index))
                            +:+ "-" +:+ pretty index)
                         (p_name participant)
                         (clk (3 * index + 1))
                         (Some (z_id prize))
                         (Some (z_name prize))
                         (Some ("admin-" +:+ z_id prize +:+ "-"
                                  +:+ pretty (clk (3 * index + 2))))
                         (p_email participant))
             selectedParticipants
  end.

(** AdminPage.startDrawing, the [onStartDraw] of the drawing area. *)
Definition startDrawing : M State unit :=
  if bool_decide (length (h_participants h) = 0) || isDrawing st then ret tt
  else
    let* _ := setState (setPageVipControlActive false) in
    let* _ := setState (setIsDrawing true) in
    let* _ := setState (setCurrentWinners []) in
    fire (updateDrawingState (list_to_map
      [("isDrawing", JBool true); ("currentWinners", JArr []);
       ("selectedPrizeName", optStr (z_name <$> selectedPrize));
       ("selectedPrizeImage", optStr (selectedPrize ≫= z_image));
       ("selectedPrizeQuota", JNum (quotaOrOne selectedPrize));
       ("selectedPrizeId", match selectedPrize with
                           | Some prize => if bool_decide (z_id prize = "")
                                           then JNull else JStr (z_id prize)
                           | None => JNull
                           end);
       ("participants", participantsToJs (h_participants h));
       ("drawStartTime", JNum (clk 0));
       ("showWinnerDisplay", JBool false); ("shouldStartSpinning", JBool false);
       ("shouldResetToReady", JBool false); ("shouldStartSlowdown", JBool false);
       ("vipProcessedWinners", JBool false)])).

(** MultiDrawingArea.handleDrawClick. *)
Definition handleDrawClick : M State unit :=
  if vipControlActive st && negb (isCompleted (vipControlStatus st))
  then alert "VIP sedang mengontrol undian. Silakan tunggu VIP selesai atau gunakan panel VIP."
  else match validateDraw with
  | Invalid message => alert message
  | Valid =>
      let finalWinners := generateWinners in
      let* _ := setState (setPredeterminedWinners finalWinners) in
      let* _ := fire (updateDrawingState (list_to_map
        [("isDrawing", JBool true); ("currentWinners", JArr []);
         ("shouldStartSpinning", JBool false); ("showWinnerDisplay", JBool false);
         ("selectedPrizeName", optStr (z_name <$> selectedPrize));
         ("selectedPrizeImage", optStr (selectedPrize ≫= z_image));
         ("selectedPrizeQuota", JNum (quotaOrOne selectedPrize));
         ("selectedPrizeId", optStr (z_id <$> selectedPrize));
         ("participants", participantsToJs (h_participants h));
         ("drawStartTime", JNum (clk 0));
         ("finalWinners", winnersToJs finalWinners);
         ("predeterminedWinners", winnersToJs finalWinners);
         ("vipProcessedWinners", JBool false); ("vipControlActive", JBool false)])) in
      let* _ := removeItem "vipProcessedWinners" in
      let* _ := removeItem "vipDrawSession" in
      let* _ := setState (setVipControlActive false) in
      let* _ := setState (setVipControlStatus VIdle) in
      startDrawing
  end.

(** MultiDrawingArea.handleStartSpinning. *)
Definition handleStartSpinning : M State unit :=
  if vipControlActive st && isActive (vipControlStatus st)
  then alert "VIP mengontrol undian. Gunakan panel VIP untuk mengontrol spinning."
  else fire (updateDrawingState (list_to_map
         [("shouldStartSpinning", JBool true); ("isDrawing", JBool true);
          ("predeterminedWinners", winnersToJs (predeterminedWinners st))])).

(** [fire] for each element of [uniqueNewWinners.forEach(winnersHook.add)]. *)
Fixpoint addAll (winners : list Winner) : M State unit :=
  match winners with
  | [] => ret tt
  | winner :: rest => let* _ := fire (Hook.add_winner winner) in addAll rest
  end.

(** AdminPage.stopDrawing, the [onStopDraw] of the drawing area. *)
Definition stopDrawing (finalWinners : option (list Winner)) : M State unit :=
  if negb (isDrawing st) then ret tt
  else
    let* flag := getItem "vipProcessedWinners" in
    let vipProcessed :=
      ds_vipProcessedWinners (h_drawingState h) || ds_vipControlActive (h_drawingState h)
      || pageVipControlActive st || bool_decide (flag = Some "true") in
    let noFinalWinners :=
      match finalWinners with
      | None => true
      | Some ws => bool_decide (length ws = 0)
      end in
    if vipProcessed && noFinalWinners then
      let winnersFromState := ds_currentWinners (h_drawingState h) in
      if bool_decide (length winnersFromState = 0) then setState (setIsDrawing false)
      else
        let* _ := setState (setCurrentWinners winnersFromState) in
        setState (setIsDrawing false)
    else if noFinalWinners then setState (setIsDrawing false)
    else
      let newWinners := default [] finalWinners in
      let existingWinnerNames := map w_name (h_winners h) in
      let uniqueNewWinners :=
        filter (fun winner => w_name winner ∉ existingWinnerNames) newWinners in
      let* _ := addAll uniqueNewWinners in
      let* _ :=
        match selectedPrize with
        | Some prize =>
            let newQuota :=
              Z.max 0 (z_remainingQuota prize - Z.of_nat (length uniqueNewWinners)) in
            let* _ := fire (Hook.update_prizeQuota (z_id prize) newQuota) in
            if (newQuota <=? 0)%Z
            then let* _ := setState (setSelectedPrizeId None) in
                 fire (updateDrawingState {[ "selectedPrizeId" := JNull ]})
            else ret tt
        | None => ret tt
        end in
      let* _ := setState (setCurrentWinners newWinners) in
      setState (setIsDrawing false).

(** AdminPage.clearCurrentWinners, the [onClearWinners] of the drawing area. *)
Definition clearCurrentWinners : M State unit :=
  let* _ := setState (setCurrentWinners []) in
  let* _ := setState (setPageVipControlActive false) in
  let* _ := removeItem "vipProcessedWinners" in
  let* _ := removeItem "vipDrawSession" in
  fire (updateDrawingState (list_to_map
    [("currentWinners", JArr []); ("showWinnerDisplay", JBool false);
     ("finalWinners", JArr []); ("predeterminedWinners", JArr []);
     ("shouldStartSlowdown", JBool false); ("shouldStartSpinning", JBool false);
     ("vipProcessedWinners", JBool false); ("vipControlActive", JBool false)])).

(** MultiDrawingArea.handleConfirmDelete. *)
Definition handleConfirmDelete : M State unit :=
  let* _ := setState (setPredeterminedWinners []) in
  let* _ := removeItem "vipProcessedWinners" in
  let* _ := removeItem "vipDrawSession" in
  let* _ := setState (setVipControlActive false) in
  let* _ := setState (setVipControlStatus VIdle) in
  let* _ := fire (updateDrawingState (list_to_map
    [("showWinnerDisplay", JBool false); ("currentWinners", JArr []);
     ("finalWinners", JArr []); ("predeterminedWinners", JArr []);
     ("vipProcessedWinners", JBool false); ("vipControlActive", JBool false)])) in
  let* _ := clearCurrentWinners in
  setState (setShowDeleteConfirm false).

(** [{ ...winner, email: participant?.email || winner.email }]. *)
Definition enrich (winner : Winner) : Winner :=
  let participant :=
    find (fun p => bool_decide (p_name p = w_name winner)) (h_participants h) in
  mkWinner (w_id winner) (w_name winner) (w_wonAt winner) (w_prizeId winner)
           (w_prizeName winner) (w_drawSession winner)
           (match participant ≫= p_email with
            | Some e => if bool_decide (e = "") then w_email winner else Some e
            | None => w_email winner
            end).

(** MultiDrawingArea.processWinnerRemoval, run by the 1000 ms timer; the
    pauses and the later reset of the progress indicator are left out. *)
Definition processWinnerRemoval (winners : list Winner) : M State unit :=
  if bool_decide (length winners = 0) then ret tt
  else
    let winnerParticipantIds :=
      omap (fun winner =>
              match find (fun p => bool_decide (p_name p = w_name winner))
                         availableParticipants with
              | Some participant =>
                  if bool_decide (p_id participant = "") then None
                  else Some (p_id participant)
              | None => None
              end) winners in
    if bool_decide (length winnerParticipantIds = 0) then ret tt
    else
      let* _ := setState (setWinnerProcessing RProcessing) in
      let* _ := fire (Hook.removeMultiple_participants winnerParticipantIds) in
      setState (setWinnerProcessing RSuccess).

(** The callback handed to [setTimeout(..., 3500)] by [handleStopDrawClick];
    it returns the timers it arms. *)
Definition finalizeAfterSlowdown (enrichedPredeterminedWinners : list Winner)
  : M State (list Timer) :=
  let* _ := fire (updateDrawingState (list_to_map
    [("isDrawing", JBool false); ("shouldStartSpinning", JBool false);
     ("shouldStartSlowdown", JBool false); ("showWinnerDisplay", JBool true);
     ("finalWinners", winnersToJs enrichedPredeterminedWinners);
     ("currentWinners", winnersToJs enrichedPredeterminedWinners)])) in
  let* _ := stopDrawing (Some enrichedPredeterminedWinners) in
  let* _ := setState (setPredeterminedWinners []) in
  ret [RemovalAfter1000 enrichedPredeterminedWinners].

(** MultiDrawingArea.handleStopDrawClick; it returns the timers it arms. *)
Definition handleStopDrawClick : M State (list Timer) :=
  let* flag := getItem "vipProcessedWinners" in
  let vipProcessed := bool_decide (flag = Some "true") in
  if vipProcessed || (vipControlActive st && isCompleted (vipControlStatus st)) then
    let enrichedWinners := map enrich (currentWinners st) in
    let* _ := fire (updateDrawingState (list_to_map
      [("isDrawing", JBool false); ("shouldStartSpinning", JBool false);
       ("shouldStartSlowdown", JBool false); ("showWinnerDisplay", JBool true);
       ("finalWinners", winnersToJs (currentWinners st));
       ("currentWinners", winnersToJs enrichedWinners)])) in
    let* _ := stopDrawing (Some enrichedWinners) in
    let* _ := setState (setPredeterminedWinners []) in
    ret [RemovalAfter1000 enrichedWinners]
  else if bool_decide (length (predeterminedWinners st) = 0) then ret []
  else
    let enrichedPredeterminedWinners := map enrich (predeterminedWinners st) in
    let* _ := fire (updateDrawingState (list_to_map
      [("shouldStartSlowdown", JBool true); ("shouldStartSpinning", JBool true);
       ("predeterminedWinners", winnersToJs enrichedPredeterminedWinners)])) in
    ret [FinalizeAfter3500 enrichedPredeterminedWinners].

End Closure.

End Admin.

(** ** Reading the shared record: processFirebaseData
    (hooks/useFirebaseDrawingState.ts) *)

Module Process.

(** What the JavaScript engine supplies: the clock, the text of
    [Math.random()], and the date a string parses to. *)
Record Engine := mkEngine {
  now : Z;
  random : string;
  parseDate : string → option Z
}.

(** A computation that can throw: [None] is a thrown exception. *)
Definition Exc (A : Type) : Type := option A.

(** [v.k]; reading a property of [null] or [undefined] throws. *)
Definition getProp (v : JsVal) (k : string) : Exc JsVal :=
  match v with
  | JUndef | JNull => None
  | JObj o | JInst _ o => Some (default JUndef (o !! k))
  | _ => Some JUndef
  end.

(** The own enumerable properties copied by [{...v}]. *)
Definition ownEntries (v : JsVal) : Obj :=
  match v with
  | JObj o | JInst _ o => o
  | JArr l => list_to_map (imap (fun i x => (pretty i, x)) l)
  | JStr s => list_to_map (imap (fun i c => (pretty i, JStr (String c ""))) (String.list_ascii_of_string s))
  | _ => ∅
  end.

(** [a || b]. *)
Definition orElse (a b : JsVal) : JsVal := if truthy a then a else b.

Definition isArray (v : JsVal) : option (list JsVal) :=
  match v with JArr l => Some l | _ => None end.

Section WithEngine.
Variable eng : Engine.

(** [new Date(value)] with the validity check of [convertTimestamp]. *)
Definition dateOfNumber (n : Z) : Z :=
  if (Z.abs n <=? 8640000000000000)%Z then n else now eng.

Definition convertTimestamp (value : JsVal) : JsVal :=
  match value with
  | JDate t => JDate t
  | JInst "Timestamp" o =>
      match o !! "seconds", o !! "nanoseconds" with
      | Some (JNum s), Some (JNum ns) => JDate (s * 1000 + ns / 1000000)%Z
      | _, _ => JDate (now eng)
      end
  | JStr s => JDate (default (now eng) (parseDate eng s))
  | JNum n => JDate (dateOfNumber n)
  | _ => JDate (now eng)
  end.

Definition tempId : JsVal :=
  JStr ("temp-" +:+ pretty (now eng) +:+ "-" +:+ random eng).

Definition ensure (k : string) (fallback : JsVal) (o : Obj) : Obj :=
  if truthy (default JUndef (o !! k)) then o else <[k := fallback]> o.

Definition processWinner (winner : JsVal) : Exc JsVal :=
  wonAt ← getProp winner "wonAt";
  let processedWinner := <["wonAt" := convertTimestamp wonAt]> (ownEntries winner) in
  Some (JObj (ensure "name" (JStr "Unknown") (ensure "id" tempId processedWinner))).

Definition processParticipant (participant : JsVal) : Exc JsVal :=
  addedAt ← getProp participant "addedAt";
  let processedParticipant :=
    <["addedAt" := convertTimestamp addedAt]> (ownEntries participant) in
  Some (JObj (ensure "name" (JStr "Unknown") (ensure "id" tempId processedParticipant))).

(** The object built in the [catch] of one winner; [prefix] is
    [error-winner], [error-final-winner] or [error-predetermined-winner]. *)
Definition fallbackWinner (prefix : string) (index : nat) (winner : JsVal) : Exc JsVal :=
  name ← getProp winner "name";
  prizeId ← getProp winner "prizeId";
  prizeName ← getProp winner "prizeName";
  Some (JObj (list_to_map
    [("id", JStr (prefix +:+ "-" +:+ pretty index +:+ "-" +:+ pretty (now eng)));
     ("name", orElse name (JStr "Unknown Winner"));
     ("wonAt", JDate (now eng));
     ("prizeId", orElse prizeId JNull);
     ("prizeName", orElse prizeName JNull)])).

Definition fallbackParticipant (index : nat) (participant : JsVal) : Exc JsVal :=
  name ← getProp participant "name";
  Some (JObj (list_to_map
    [("id", JStr ("error-participant-" +:+ pretty index +:+ "-" +:+ pretty (now eng)));
     ("name", orElse name (JStr "Unknown Participant"));
     ("addedAt", JDate (now eng))])).

(** [try { return process(x) } catch { return fallback(index, x) }]. *)
Definition guarded (process : JsVal → Exc JsVal) (fallback : nat → JsVal → Exc JsVal)
    (index : nat) (x : JsVal) : Exc JsVal :=
  match process x with
  | Some y => Some y
  | None => fallback index x
  end.

(** [array.map(callback)]: an exception of a callback ends the whole map. *)
Fixpoint mapFrom (callback : nat → JsVal → Exc JsVal) (index : nat) (l : list JsVal)
  : Exc (list JsVal) :=
  match l with
  | [] => Some []
  | x :: rest =>
      y ← callback index x;
      ys ← mapFrom callback (S index) rest;
      Some (y :: ys)
  end.

(** One of the four blocks [if (data.k && Array.isArray(data.k)) { try ... }]. *)
Definition processArray (k : string) (process : JsVal → Exc JsVal)
    (fallback : nat → JsVal → Exc JsVal) (data : JsVal) (processedData : Obj)
  : Exc Obj :=
  field ← getProp data k;
  if truthy field then
    match isArray field with
    | Some l =>
        match mapFrom (guarded process fallback) 0 l with
        | Some l' => Some (<[k := JArr l']> processedData)
        | None => Some (<[k := JArr []]> processedData)
        end
    | None => Some processedData
    end
  else Some processedData.

Definition processBody (data : JsVal) : Exc Obj :=
  let processedData := spread DEFAULT_DRAWING_STATE (ownEntries data) in
  processedData ← processArray "currentWinners" processWinner
                    (fallbackWinner "error-winner") data processedData;
  processedData ← processArray "finalWinners" processWinner
                    (fallbackWinner "error-final-winner") data processedData;
  processedData ← processArray "predeterminedWinners" processWinner
                    (fallbackWinner "error-predetermined-winner") data processedData;
  processedData ← processArray "participants" processParticipant
                    fallbackParticipant data processedData;
  lastUpdated ← getProp data "lastUpdated";
  if truthy lastUpdated
  then Some (<["lastUpdated" := convertTimestamp lastUpdated]> processedData)
  else Some processedData.

Definition processFirebaseData (data : JsVal) : Obj :=
  match processBody data with
  | Some processedData => processedData
  | None => DEFAULT_DRAWING_STATE
  end.

End WithEngine.

End Process.

(** ** The public display: DisplayPage *)

Module Display.

(** The component state ([useState] cells) together with the
    [drawingState] the hook currently returns. *)
Record State := mkState {
  drawingState : DrawingState;
  localState : DrawingState;
  rollingNames : list string;
  participantsSnapshot : list Participant;
  hasShownResults : bool;
  isSpinning : bool;
  currentSingleName : string;
  showFinalResults : bool
}.

(** The component between two renders: [cur] is the state after the
    [setState] calls made so far, [seen] the state of the last render (what
    the closures of that render read and what is on screen); the two timers
    hold the values captured by the running [setInterval] callbacks. *)
Record Comp := mkComp {
  cur : State;
  seen : State;
  multiTimer : option (list Participant * Z);
  singleTimer : option (list Participant)
}.

Definition initialLocalState : DrawingState :=
  mkDrawingState false [] (Some []) [] [] None None None 0 false false false false false.

(** The [drawingState] of the hook before the first snapshot
    (DEFAULT_DRAWING_STATE). *)
Definition defaultDrawingState : DrawingState :=
  mkDrawingState false [] None [] [] None None None 0 false false false false false.

Definition initialState : State :=
  mkState defaultDrawingState initialLocalState [] [] false false "" false.

Definition initial : Comp := mkComp initialState initialState None None.

(** [{ ...prevState, ...drawingState }]: a field the snapshot does not carry
    keeps its previous value. *)
Definition mergeState (prevState ds : DrawingState) : DrawingState :=
  mkDrawingState (ds_isDrawing ds) (ds_currentWinners ds)
    (match ds_finalWinners ds with Some ws => Some ws | None => ds_finalWinners prevState end)
    (ds_predeterminedWinners ds) (ds_participants ds)
    (match ds_selectedPrizeId ds with Some i => Some i | None => ds_selectedPrizeId prevState end)
    (match ds_selectedPrizeName ds with Some n => Some n | None => ds_selectedPrizeName prevState end)
    (match ds_selectedPrizeImage ds with Some n => Some n | None => ds_selectedPrizeImage prevState end)
    (ds_selectedPrizeQuota ds) (ds_shouldStartSpinning ds) (ds_shouldStartSlowdown ds)
    (ds_showWinnerDisplay ds) (ds_vipProcessedWinners ds) (ds_vipControlActive ds).

Definition withDrawingState ds (s : State) :=
  mkState ds (localState s) (rollingNames s) (participantsSnapshot s)
          (hasShownResults s) (isSpinning s) (currentSingleName s) (showFinalResults s).
Definition setLocalState (f : DrawingState → DrawingState) (s : State) :=
  mkState (drawingState s) (f (localState s)) (rollingNames s) (participantsSnapshot s)
          (hasShownResults s) (isSpinning s) (currentSingleName s) (showFinalResults s).
Definition setRollingNames ns (s : State) :=
  mkState (drawingState s) (localState s) ns (participantsSnapshot s)
          (hasShownResults s) (isSpinning s) (currentSingleName s) (showFinalResults s).
Definition setParticipantsSnapshot ps (s : State) :=
  mkState (drawingState s) (localState s) (rollingNames s) ps
          (hasShownResults s) (isSpinning s) (currentSingleName s) (showFinalResults s).
Definition setHasShownResults b (s : State) :=
  mkState (drawingState s) (localState s) (rollingNames s) (participantsSnapshot s)
          b (isSpinning s) (currentSingleName s) (showFinalResults s).
Definition setIsSpinning b (s : State) :=
  mkState (drawingState s) (localState s) (rollingNames s) (participantsSnapshot s)
          (hasShownResults s) b (currentSingleName s) (showFinalResults s).
Definition setCurrentSingleName n (s : State) :=
  mkState (drawingState s) (localState s) (rollingNames s) (participantsSnapshot s)
          (hasShownResults s) (isSpinning s) n (showFinalResults s).
Definition setShowFinalResults b (s : State) :=
  mkState (drawingState s) (localState s) (rollingNames s) (participantsSnapshot s)
          (hasShownResults s) (isSpinning s) (currentSingleName s) b.

(** The effect "State synchronization", with the closure values [v]. *)
Definition effectSync (v : State) (s : State) : State :=
  let ds := drawingState v in
  let s := setLocalState (fun prevState => mergeState prevState ds) s in
  let s := setIsSpinning (ds_shouldStartSpinning ds) s in
  if ds_shouldStartSlowdown ds && negb (showFinalResults v) then
    let s := setShowFinalResults true s in
    let s := setIsSpinning false s in
    match ds_predeterminedWinners ds with
    | [] => s
    | first :: _ =>
        if (ds_selectedPrizeQuota ds =? 1)%Z
        then setCurrentSingleName (w_name first) s
        else setRollingNames (map w_name (ds_predeterminedWinners ds)) s
    end
  else s.

(** The effect "Handle drawing state changes". *)
Definition effectDraw (v : State) (s : State) : State :=
  let ds := drawingState v in
  let s :=
    if ds_isDrawing ds && negb (ds_isDrawing (localState v)) then
      setShowFinalResults false
        (setParticipantsSnapshot (ds_participants ds) (setHasShownResults false s))
    else s in
  if bool_decide (length (ds_currentWinners ds) = 0)
     && bool_decide (0 < length (ds_currentWinners (localState v)))
  then setShowFinalResults false (setHasShownResults false s)
  else s.

Definition animating (v : State) : bool :=
  isSpinning v && ds_isDrawing (localState v)
  && bool_decide (0 < length (participantsSnapshot v))
  && negb (hasShownResults v) && negb (showFinalResults v).

(** The effect "Multi-slot animation": the interval of the previous run is
    cleared, then a new one is started or the rolling names are emptied. *)
Definition effectMulti (c : Comp) : Comp :=
  let v := seen c in
  if animating v && (1 <? ds_selectedPrizeQuota (localState v))%Z then
    let drawCount := Z.min (ds_selectedPrizeQuota (localState v))
                           (Z.of_nat (length (participantsSnapshot v))) in
    mkComp (cur c) (seen c) (Some (participantsSnapshot v, drawCount)) (singleTimer c)
  else if negb (showFinalResults v)
  then mkComp (setRollingNames [] (cur c)) (seen c) None (singleTimer c)
  else mkComp (cur c) (seen c) None (singleTimer c).

(** The effect "Single name animation". *)
Definition effectSingle (c : Comp) : Comp :=
  let v := seen c in
  if animating v && (ds_selectedPrizeQuota (localState v) =? 1)%Z then
    mkComp (cur c) (seen c) (multiTimer c) (Some (participantsSnapshot v))
  else if negb (ds_isDrawing (localState v)) && negb (showFinalResults v)
  then mkComp (setCurrentSingleName "" (cur c)) (seen c) (multiTimer c) None
  else mkComp (cur c) (seen c) (multiTimer c) None.

(** [participantsSnapshot[Math.floor(Math.random() * length)]?.name || '']
    for the random index [r]. *)
Definition randomName (snapshot : list Participant) (r : nat) : string :=
  match snapshot !! r with
  | Some randomParticipant => p_name randomParticipant
  | None => ""
  end.

(** One firing of the multi-slot interval; [rnd] lists the random indexes
    drawn for the slots. *)
Definition tickMulti (rnd : list nat) (c : Comp) : Comp :=
  match multiTimer c with
  | Some (snapshot, drawCount) =>
      let newRollingNames :=
        map (fun i => randomName snapshot (default (length snapshot) (rnd !! i)))
            (seq 0 (Z.to_nat drawCount)) in
      mkComp (setRollingNames newRollingNames (cur c)) (seen c) (multiTimer c) (singleTimer c)
  | None => c
  end.

Definition tickSingle (r : nat) (c : Comp) : Comp :=
  match singleTimer c with
  | Some snapshot =>
      mkComp (setCurrentSingleName (randomName snapshot r) (cur c)) (seen c)
             (multiTimer c) (singleTimer c)
  | None => c
  end.

Inductive Event :=
  | Snapshot (ds : DrawingState)
  | Render
  | EffectSync
  | EffectDraw
  | EffectMulti
  | EffectSingle
  | TickMulti (rnd : list nat)
  | TickSingle (r : nat).

(** One step of the component.  React renders after state changes and then
    runs the effects whose dependencies changed, in the order of the source;
    every such schedule is a sequence of these steps. *)
Definition step (c : Comp) (ev : Event) : Comp :=
  match ev with
  | Snapshot ds => mkComp (withDrawingState ds (cur c)) (seen c) (multiTimer c) (singleTimer c)
  | Render => mkComp (cur c) (cur c) (multiTimer c) (singleTimer c)
  | EffectSync => mkComp (effectSync (seen c) (cur c)) (seen c) (multiTimer c) (singleTimer c)
  | EffectDraw => mkComp (effectDraw (seen c) (cur c)) (seen c) (multiTimer c) (singleTimer c)
  | EffectMulti => effectMulti c
  | EffectSingle => effectSingle c
  | TickMulti rnd => tickMulti rnd c
  | TickSingle r => tickSingle r c
  end.

Definition run (evs : list Event) (c : Comp) : Comp := foldl step c evs.

(** *** What is on screen *)

Inductive Cell :=
  | Ready
  | Name (text : string) (winner : bool).

Inductive Screen :=
  | ReadyScreen
  | SinglePicker (cell : Cell)
  | SlotRows (rows : list (list Cell)).

Record Layout := mkLayout { rows : Z; cols : Z }.

Definition getLayoutConfig (drawCount : Z) : Layout :=
  if (drawCount <=? 5)%Z then mkLayout 1 drawCount
  else if (drawCount <=? 10)%Z then mkLayout 2 5
  else if (drawCount <=? 15)%Z then mkLayout 3 5
  else if (drawCount <=? 20)%Z then mkLayout 4 5
  else if (drawCount <=? 25)%Z then mkLayout 5 5
  else if (drawCount <=? 30)%Z then mkLayout 6 5
  else mkLayout ((drawCount + 5) / 6) 6.

(** [createGridRows]: for each row with at least one slot, its first index
    and its number of slots. *)
Definition createGridRows (drawCount : Z) (layoutConfig : Layout) : list (Z * Z) :=
  omap (fun row =>
          let startIndex := (Z.of_nat row * cols layoutConfig)%Z in
          let endIndex := Z.min (startIndex + cols layoutConfig) drawCount in
          let slotsInThisRow := (endIndex - startIndex)%Z in
          if (0 <? slotsInThisRow)%Z then Some (startIndex, slotsInThisRow) else None)
       (seq 0 (Z.to_nat (rows layoutConfig))).

(** [a || b || '...'] on display strings. *)
Definition firstNonEmpty (a b : string) : string :=
  if negb (String.eqb a "") then a
  else if negb (String.eqb b "") then b else "...".

Definition finalName (v : State) (index : nat) : string :=
  if showFinalResults v then
    match ds_finalWinners (localState v) ≫= (fun ws => ws !! index) with
    | Some w => w_name w
    | None => ""
    end
  else "".

(** The slots of the page; the prize title and image above them are not
    part of [Screen]. *)
Definition render (v : State) : Screen :=
  let prizeQuota :=
    if (ds_selectedPrizeQuota (localState v) =? 0)%Z then 1%Z
    else ds_selectedPrizeQuota (localState v) in
  let poolSize :=
    if bool_decide (length (participantsSnapshot v) = 0)
    then length (ds_participants (localState v))
    else length (participantsSnapshot v) in
  let drawCount := Z.min prizeQuota (Z.of_nat poolSize) in
  if ds_isDrawing (localState v) || showFinalResults v then
    if (prizeQuota =? 1)%Z then
      SinglePicker
        (if negb (isSpinning v) && negb (showFinalResults v) then Ready
         else Name (firstNonEmpty (currentSingleName v) (finalName v 0))
                   (showFinalResults v))
    else
      let layoutConfig := getLayoutConfig drawCount in
      SlotRows
        (map (fun rowData : Z * Z =>
                map (fun colIndex =>
                       let actualIndex := (Z.to_nat (fst rowData) + colIndex)%nat in
                       if negb (isSpinning v) && negb (showFinalResults v) then Ready
                       else Name (firstNonEmpty (default "" (rollingNames v !! actualIndex))
                                                (finalName v actualIndex))
                                 (showFinalResults v))
                    (seq 0 (Z.to_nat (snd rowData))))
             (createGridRows drawCount layoutConfig))
  else ReadyScreen.

(** The screen after the last render. *)
Definition screen (c : Comp) : Screen := render (seen c).

End Display.

(** * Vocabulary of the statements *)

(** ** What a computation leaves unchanged *)

(** [leaves R m]: every run of [m], failed or not, relates the environment
    before to the environment after. *)
Definition leaves {S A} (R : Env S → Env S → Prop) (m : M S A) : Prop :=
  ∀ e r e', m e = (r, e') → R e e'.

(** The three repository collections are as before. *)
Definition sameCollections {S} (e e' : Env S) : Prop :=
  winnersCol (backend e') = winnersCol (backend e)
  ∧ prizesCol (backend e') = prizesCol (backend e)
  ∧ participantsCol (backend e') = participantsCol (backend e).

(** The Winner collection is as before. *)
Definition sameWinners {S} (e e' : Env S) : Prop :=
  winnersCol (backend e') = winnersCol (backend e).

(** ** The shared record *)

Definition withDoc {S} (d : Obj) (e : Env S) : Env S :=
  mkEnv (mkWorld (Some d) (winnersCol (backend e)) (prizesCol (backend e))
                 (participantsCol (backend e)) (faults (backend e)))
        (localStorage e) (alerts e) (react e).

(** The record created by the pages' hook when it finds none. *)
Definition recreatedByHook (updates : Obj) : Obj :=
  prepareObj (spread (spread UseFirebaseDrawingState.DEFAULT_DRAWING_STATE updates)
                     {[ "lastUpdated" := serverTimestamp ]}).

(** The record created by the hook of useFirestore.ts when it finds none. *)
Definition recreatedByCollectionHook (updates : Obj) : Obj :=
  spread (spread UseFirestore.DEFAULT_DRAWING_STATE
                 (spread (prepareObj updates) {[ "lastUpdated" := serverTimestamp ]}))
         {[ "created" := serverTimestamp ]}.

(** One attempt of the operation that [UseFirestore.updateDrawingState]
    hands to the retry loop. *)
Definition collectionHookAttempt {S} (updates : Obj) : M S unit :=
  let processedUpdates :=
    spread (prepareObj updates) {[ "lastUpdated" := serverTimestamp ]} in
  tryCatch (updateDoc_drawing processedUpdates) (fun err =>
    if bool_decide (errCode err = Some "not-found")
    then setDoc_drawing
           (spread (spread UseFirestore.DEFAULT_DRAWING_STATE processedUpdates)
                   {[ "created" := serverTimestamp ]})
    else throw err).

(** The shared record after a successful publish of [updates]. *)
Definition published (doc : option Obj) (updates : Obj) : Obj :=
  match doc with
  | Some d => spread d (prepareObj (spread updates {[ "lastUpdated" := serverTimestamp ]}))
  | None => recreatedByHook updates
  end.

(** The value of field [k] of the shared record. *)
Definition field {S} (e : Env S) (k : string) : option JsVal :=
  drawingDoc (backend e) ≫= (fun d => d !! k).

Definition clearedArrays : list string :=
  ["currentWinners"; "finalWinners"; "predeterminedWinners"].

Definition clearedFlags : list string :=
  ["showWinnerDisplay"; "shouldStartSlowdown"; "shouldStartSpinning";
   "vipProcessedWinners"; "vipControlActive"].

(** ** The draw start *)

(** The four validation failures of the draw start, for a selected prize,
    a pool and a draw count. *)
Definition validationFails (selectedPrize : option Prize)
    (availableParticipants : list Participant) (drawCount : Z) : Prop :=
  selectedPrize = None
  ∨ (∃ prize, selectedPrize = Some prize ∧ z_remainingQuota prize = 0%Z)
  ∨ availableParticipants = []
  ∨ drawCount = 0%Z.

(** The environment after [alert(message)] and nothing else. *)
Definition alerted {S} (message : string) (e : Env S) : Env S :=
  mkEnv (backend e) (localStorage e) (alerts e ++ [message]) (react e).

(** The participants both [generateWinners] functions turn into winners. *)
Definition drawnFrom `{Shuffler} (availableParticipants : list Participant)
    (drawCount : Z) : list Participant :=
  sliceTo (sortRandom availableParticipants) drawCount.

(** A participant with the name [name] is among the winners. *)
Definition drawn (name : string) (winners : list Winner) : bool :=
  bool_decide (name ∈ map w_name winners).

(** [winners] were generated for [selectedPrize] from the pool [available]
    with draw count [drawCount]: the count is min(remainingQuota, pool
    size), the list has length min(drawCount, pool size), its names are the
    names of distinct entries of the pool, and they are pairwise distinct
    when the names of the pool are. *)
Definition wellDrawn (selectedPrize : option Prize)
    (available : list Participant) (drawCount : Z) (winners : list Winner) : Prop :=
  ∃ prize,
    selectedPrize = Some prize
    ∧ drawCount = Z.min (z_remainingQuota prize) (Z.of_nat (length available))
    ∧ Z.of_nat (length winners) = Z.min drawCount (Z.of_nat (length available))
    ∧ (∃ selected, selected ⊆+ available ∧ map w_name winners = map p_name selected)
    ∧ (NoDup (map p_name available) → NoDup (map w_name winners)).

(** ** Persisting winners *)


(** The new winners of [stopDrawing]: those whose name is not yet the name
    of a persisted winner. *)
Definition uniqueNewWinners (existing newWinners : list Winner) : list Winner :=
  filter (fun winner => w_name winner ∉ map w_name existing) newWinners.

(** ** Reading the shared record *)

(** Every field of the default state is present. *)
Definition complete (processedData : Obj) : Prop :=
  ∀ k, is_Some (DEFAULT_DRAWING_STATE !! k) → is_Some (processedData !! k).

(** ** The display *)

Module DisplayView.
Import Display.

(** A drawing state without the winners still to be revealed. *)
Definition hideWinners (ds : DrawingState) : DrawingState :=
  mkDrawingState (ds_isDrawing ds) (ds_currentWinners ds) None [] (ds_participants ds)
    (ds_selectedPrizeId ds) (ds_selectedPrizeName ds) (ds_selectedPrizeImage ds)
    (ds_selectedPrizeQuota ds) (ds_shouldStartSpinning ds) (ds_shouldStartSlowdown ds)
    (ds_showWinnerDisplay ds) (ds_vipProcessedWinners ds) (ds_vipControlActive ds).

Definition hideInState (s : State) : State :=
  mkState (hideWinners (drawingState s)) (hideWinners (localState s)) (rollingNames s)
          (participantsSnapshot s) (hasShownResults s) (isSpinning s)
          (currentSingleName s) (showFinalResults s).

(** Two components that differ at most in the hidden winners. *)
Definition alike (c1 c2 : Comp) : Prop :=
  hideInState (cur c1) = hideInState (cur c2)
  ∧ hideInState (seen c1) = hideInState (seen c2)
  ∧ multiTimer c1 = multiTimer c2
  ∧ singleTimer c1 = singleTimer c2.

(** No slowdown flag has arrived and nothing is revealed. *)
Definition unrevealed (c : Comp) : Prop :=
  showFinalResults (cur c) = false
  ∧ showFinalResults (seen c) = false
  ∧ ds_shouldStartSlowdown (drawingState (cur c)) = false
  ∧ ds_shouldStartSlowdown (drawingState (seen c)) = false.

(** A snapshot without the slowdown flag; every other event. *)
Definition quiet (ev : Event) : Prop :=
  match ev with
  | Snapshot ds => ds_shouldStartSlowdown ds = false
  | _ => True
  end.

(** An event of the display itself: a render, an effect or an interval tick. *)
Definition ownEvent (ev : Event) : Prop :=
  match ev with
  | Snapshot _ => False
  | _ => True
  end.

(** The same event, up to the hidden winners of a snapshot. *)
Definition sameButWinners (ev1 ev2 : Event) : Prop :=
  match ev1, ev2 with
  | Snapshot a, Snapshot b => hideWinners a = hideWinners b
  | _, _ => ev1 = ev2
  end.

(** The names of the participants carried by the snapshots of a schedule. *)
Definition participantNames (evs : list Event) : list string :=
  flat_map (fun ev => match ev with
                      | Snapshot ds => map p_name (ds_participants ds)
                      | _ => []
                      end) evs.

(** A name an interval callback can have produced from pools named in [pool]. *)
Definition cosmetic (pool : list string) (name : string) : Prop :=
  name = "" ∨ name ∈ pool.

Definition fromPool (pool : list string) (ps : list Participant) : Prop :=
  ∀ p, p ∈ ps → p_name p ∈ pool.

Definition cosmeticState (pool : list string) (s : State) : Prop :=
  Forall (cosmetic pool) (rollingNames s)
  ∧ cosmetic pool (currentSingleName s)
  ∧ fromPool pool (participantsSnapshot s)
  ∧ fromPool pool (ds_participants (drawingState s)).

Definition cosmeticComp (pool : list string) (c : Comp) : Prop :=
  cosmeticState pool (cur c)
  ∧ cosmeticState pool (seen c)
  ∧ (∀ snapshot drawCount, multiTimer c = Some (snapshot, drawCount) → fromPool pool snapshot)
  ∧ (∀ snapshot, singleTimer c = Some snapshot → fromPool pool snapshot).

Definition within (pool : list string) (ev : Event) : Prop :=
  match ev with
  | Snapshot ds => fromPool pool (ds_participants ds)
  | _ => True
  end.

(** What a slot may show before the reveal: "Ready", the placeholder, or a
    name of the pool, never with the winner badge. *)
Definition cosmeticCell (pool : list string) (cell : Cell) : Prop :=
  cell = Ready ∨ ∃ name, cell = Name name false ∧ (name = "..." ∨ name ∈ pool).

Definition cells (screen : Screen) : list Cell :=
  match screen with
  | ReadyScreen => [Ready]
  | SinglePicker cell => [cell]
  | SlotRows rows => concat rows
  end.

End DisplayView.

(** ** Example data *)

(** An engine whose random sort reverses the array. *)
Definition reverseShuffler : Shuffler :=
  {| sortRandom := reverse; sortRandom_perm := reverse_Permutation |}.

Definition zeroClock : Clock := fun _ => 0%Z.

(** [ana] and [ana2] are two participants with one name. *)
Definition ana : Participant := mkParticipant "p1" "Ana" 100 None.
Definition budi : Participant := mkParticipant "p2" "Budi" 101 (Some "budi@example.org").
Definition citra : Participant := mkParticipant "p3" "Citra" 102 None.
Definition ana2 : Participant := mkParticipant "p4" "Ana" 103 None.

Definition voucher : Prize := mkPrize "z1" "Voucher" None 3 3.

Definition emptyWorld : World := mkWorld None [] [] [] [].

Definition poolHooks : Hooks :=
  mkHooks [ana; budi; citra] [mkPrize "z1" "Voucher" None 2 2] [] 10 true
          Display.defaultDrawingState.

Definition sameNameHooks : Hooks :=
  mkHooks [ana; ana2; budi] [voucher] [] 10 true Display.defaultDrawingState.

Definition negativeQuotaHooks : Hooks :=
  mkHooks [ana; budi; citra] [mkPrize "z1" "Voucher" None (-1) (-1)] [] 10 true
          Display.defaultDrawingState.

Definition noPrizeHooks : Hooks :=
  mkHooks [ana; budi; citra] [] [] 10 true Display.defaultDrawingState.

Definition vipReady : Vip.State :=
  Vip.mkState false [] (Some "z1") Vip.Generated false false Vip.SIdle None.

Definition adminReady : Admin.State :=
  Admin.mkState [] (Some "z1") false false [] false Admin.VIdle false Admin.RIdle.

(** Ana, Citra and Budi as the VIP page draws them for prize [z1] at clock
    reading 0, and Ana as the admin page draws her. *)
Definition anaVip : Winner :=
  mkWinner "p1-0-0" "Ana" 0 (Some "z1") (Some "Voucher") (Some "vip-z1-0") None.
Definition citraVip : Winner :=
  mkWinner "p3-0-0" "Citra" 0 (Some "z1") (Some "Voucher") (Some "vip-z1-0") None.
Definition budiVip : Winner :=
  mkWinner "p2-0-1" "Budi" 0 (Some "z1") (Some "Voucher") (Some "vip-z1-0") None.
Definition anaAdmin : Winner :=
  mkWinner "p1-0-0" "Ana" 0 (Some "z1") (Some "Voucher") (Some "admin-z1-0") None.

(** A back end after Ana's win was revealed, and the admin page showing it. *)
Definition revealedWorld : World :=
  mkWorld (Some (list_to_map [("currentWinners", winnersToJs [anaAdmin]);
                              ("showWinnerDisplay", JBool true)]))
          [anaAdmin] [mkPrize "z1" "Voucher" None 3 2] [budi; citra] [].

Definition revealedEnv : Env Admin.State :=
  mkEnv revealedWorld ∅ [] (Admin.setCurrentWinners [anaAdmin] adminReady).

(** The VIP page while its session [vip-z1-0] is spinning. *)
Definition vipSpinning : Vip.State :=
  Vip.mkState true [anaVip] (Some "z1") Vip.Spinning true false Vip.SComplete
              (Some "vip-z1-0").

Definition freshHooks : Hooks :=
  mkHooks [ana; budi; citra] [voucher] [] 10 true Display.defaultDrawingState.

Definition freshEnv : Env Vip.State :=
  mkEnv (mkWorld (Some ∅) [] [voucher] [ana; budi; citra] []) ∅ [] vipSpinning.

(** The back end after session [vip-z1-0] was finalized once: Ana is
    persisted and the quota of the prize went from 3 to 2. *)
Definition finalizedWorld : World :=
  mkWorld (Some ∅) [anaVip] [mkPrize "z1" "Voucher" None 3 2] [budi; citra] [].

Definition finalizedHooks : Hooks :=
  mkHooks [budi; citra] [mkPrize "z1" "Voucher" None 3 2] [anaVip] 10 true
          Display.defaultDrawingState.

(** The admin page when the 3500 ms timer of its session fires. *)
Definition adminStopping : Admin.State :=
  Admin.mkState [] (Some "z1") true false [anaAdmin] false Admin.VIdle false Admin.RIdle.

(** The VIP page that followed the admin's session through the shared
    record: it holds the admin's predetermined winners, is in the spinning
    phase and never started a session of its own. *)
Definition vipFollowing : Vip.State :=
  Vip.mkState true [anaAdmin] (Some "z1") Vip.Spinning false false Vip.SIdle None.

Definition raceWorld : World :=
  mkWorld (Some ∅) [] [voucher] [ana; budi; citra] [].

(** What the VIP page reads from its hooks: the collections of [w], and the
    shared flags [vipProcessedWinners] and [vipControlActive]. *)
Definition vipView (w : World) (processed active : bool) : Hooks :=
  mkHooks (participantsCol w) (prizesCol w) (winnersCol w) 10 true
    (mkDrawingState true [] (Some [anaAdmin]) [anaAdmin] [ana; budi; citra]
                    (Some "z1") (Some "Voucher") None 3 true true false processed active).

Definition adminView (w : World) : Hooks :=
  mkHooks (participantsCol w) (prizesCol w) (winnersCol w) 10 true
    (mkDrawingState true [] (Some [anaAdmin]) [anaAdmin] [ana; budi; citra]
                    (Some "z1") (Some "Voucher") None 3 true true false false false).

(** The back end after the admin's finalize callback. *)
Definition afterAdmin : World :=
  backend (Admin.finalizeAfterSlowdown (adminView raceWorld) adminStopping [anaAdmin]
             (mkEnv raceWorld ∅ [] adminStopping)).2.

(** The back end after the VIP's finalize callback, run after the admin's
    with the collections of [seenByVip] in its hooks and the local storage
    [storage]. *)
Definition afterBoth (seenByVip : World) (processed active : bool)
    (storage : gmap string string) : World :=
  backend (Vip.finalizeAfterSlowdown (vipView seenByVip processed active) vipFollowing
             (mkEnv afterAdmin storage [] vipFollowing)).2.

(** The shared record right after a commit that fixed [winners], spinning. *)
Definition committedWith (winners : list Winner) (slowdown : bool) : DrawingState :=
  mkDrawingState true [] (Some winners) winners [ana; budi; citra]
                 (Some "z1") (Some "Voucher") None 2 true slowdown false false true.

(** A spin: the snapshot of the commit, the render and effects that follow,
    and one tick of the interval that picks the participants 0 and 1. *)
Definition spinOf (winners : list Winner) : list Display.Event :=
  [Display.Snapshot (committedWith winners false); Display.Render;
   Display.EffectSync; Display.EffectDraw; Display.Render;
   Display.EffectMulti; Display.EffectSingle; Display.Render;
   Display.TickMulti [0; 1]; Display.Render].

(** A winner as the shared record stores it. *)
Definition storedAna : JsVal :=
  JObj (list_to_map [("id", JStr "p1-0-0"); ("name", JStr "Ana"); ("wonAt", JNum 0)]).





(** Three participants and one prize to be drawn once. *)
Definition onePrizeHooks : Hooks :=
  mkHooks [ana; budi; citra] [mkPrize "z1" "Voucher" None 1 1] [] 10 true
          Display.defaultDrawingState.

(** Orders a sort can return: the array as it was given, and an order with
    the elements at [i] and [i + 1] exchanged afterwards. *)
Definition givenOrder : Shuffler :=
  {| sortRandom := fun l => l; sortRandom_perm := fun l => Permutation_refl l |}.

Fixpoint swapAt (i : nat) (l : list Participant) : list Participant :=
  match i, l with
  | 0%nat, a :: b :: rest => b :: a :: rest
  | S i, a :: rest => a :: swapAt i rest
  | _, _ => l
  end.

Definition swapped (i : nat) (order : Shuffler) : Shuffler.
Proof.
  refine {| sortRandom := fun l => swapAt i (@sortRandom order l) |}.
  intros l. etransitivity; [|apply sortRandom_perm].
  generalize (@sortRandom order l). clear l. intros l. revert i.
  induction l as [|a l IH]; intros [|i]; cbn [swapAt]; try reflexivity.
  - destruct l as [|b rest]; [reflexivity|apply perm_swap].
  - constructor. apply IH.
Defined.

(** An insertion sort of a three-element array as a run: it compares the
    second element with the first, then the third with its left neighbours
    from right to left, and moves an element one place to the left each
    time the comparator returns a positive number. *)
Definition insertionSort3 : RandomSort.SortRun :=
  let insertThird (sofar : Shuffler) :=
    RandomSort.Compares
      (RandomSort.Returns sofar) (RandomSort.Returns sofar)
      (RandomSort.Compares
         (RandomSort.Returns (swapped 1 sofar)) (RandomSort.Returns (swapped 1 sofar))
         (RandomSort.Returns (swapped 0 (swapped 1 sofar)))) in
  RandomSort.Compares (insertThird givenOrder) (insertThird givenOrder)
                      (insertThird (swapped 0 givenOrder)).

(** Ana as the VIP page draws her for the single prize [z0]. *)
Definition anaBike : Winner :=
  mkWinner "p1-0-0" "Ana" 0 (Some "z0") (Some "Sepeda") (Some "vip-z0-0") None.

(** The shared record of the session for the single prize [z0]: after the
    commit, and after the stop that sets the slowdown flag. *)
Definition singleDraw (slowdown : bool) : DrawingState :=
  mkDrawingState true [] (Some [anaBike]) [anaBike] [ana; budi; citra]
                 (Some "z0") (Some "Sepeda") None 1 true slowdown false false true.

(** The shared record right after the commit of the next session, for the
    prize [z1] with quota 2: the slowdown flag is false. *)
Definition nextCommit (winners : list Winner) : DrawingState :=
  mkDrawingState true [] (Some winners) winners [budi; citra]
                 (Some "z1") (Some "Voucher") None 2 true false false false true.

(** The display from its first render to the reveal of the session for
    [z0]: each snapshot is rendered, the effects whose dependencies changed
    run, and the state they set is rendered; while the names spin the
    interval ticks once. *)
Definition firstSessionRevealed : list Display.Event :=
  [Display.Snapshot (singleDraw false); Display.Render;
   Display.EffectSync; Display.EffectDraw; Display.Render;
   Display.EffectDraw; Display.EffectMulti; Display.EffectSingle; Display.Render;
   Display.TickSingle 1; Display.Render;
   Display.Snapshot (singleDraw true); Display.Render;
   Display.EffectSync; Display.EffectDraw; Display.Render;
   Display.EffectSync; Display.EffectDraw; Display.EffectMulti; Display.EffectSingle;
   Display.Render;
   Display.EffectMulti; Display.EffectSingle; Display.Render].

(** The next snapshot the display receives is the commit of the next
    session; the snapshot that ended the first session did not reach it. *)
Definition nextSessionCommitted (winners : list Winner) : list Display.Event :=
  [Display.Snapshot (nextCommit winners); Display.Render;
   Display.EffectSync; Display.EffectDraw; Display.Render;
   Display.EffectDraw; Display.EffectMulti; Display.EffectSingle; Display.Render].

(** The same two sessions run from the admin page, every snapshot reaching
    the display, when the publish that ends the first session fails (it is
    not awaited and its rejection is discarded): the record of the first
    session after the draw click and the start, after the spin and after
    the stop; then the commit of the next session by [handleDrawClick],
    merged into a record whose slowdown flag is still true, and the publish
    of [startDrawing] that sets the flag to false. *)
Definition anaBikeAdmin : Winner :=
  mkWinner "p1-0-0" "Ana" 0 (Some "z0") (Some "Sepeda") (Some "admin-z0-0") None.

Definition adminSingleDraw (spinning slowdown : bool) : DrawingState :=
  mkDrawingState true [] (Some [anaBikeAdmin]) [anaBikeAdmin] [ana; budi; citra]
                 (Some "z0") (Some "Sepeda") None 1 spinning slowdown false false false.

Definition adminNextCommit (winners : list Winner) (slowdown : bool) : DrawingState :=
  mkDrawingState true [] (Some winners) winners [budi; citra]
                 (Some "z1") (Some "Voucher") None 2 false slowdown false false false.

(** The display receives a snapshot, renders it and runs its effects until
    nothing changes. *)
Definition settled (ds : DrawingState) : list Display.Event :=
  [Display.Snapshot ds; Display.Render;
   Display.EffectSync; Display.EffectDraw; Display.Render;
   Display.EffectSync; Display.EffectDraw; Display.EffectMulti; Display.EffectSingle;
   Display.Render;
   Display.EffectMulti; Display.EffectSingle; Display.Render].

Definition adminSessionsWithLostPublish (winners : list Winner) : list Display.Event :=
  (settled (adminSingleDraw false false) ++ settled (adminSingleDraw true false)
   ++ [Display.TickSingle 1; Display.Render]
   ++ settled (adminSingleDraw true true)
   ++ settled (adminNextCommit winners true)
   ++ settled (adminNextCommit winners false))%list.

(** * Further parts of the code *)

(** ** RetryManager: the pauses between attempts (hooks/useFirestore.ts) *)

Module RetryDelay.

Definition baseDelay : Z := 1000.
Definition maxDelay : Z := 5000.
Definition backoffMultiplier : Z := 2.

(** [calculateDelay(attempt)]; the loop calls it with [attempt >= 1]. *)
Definition calculateDelay (attempt : nat) : Z :=
  Z.min (baseDelay * backoffMultiplier ^ (Z.of_nat attempt - 1)) maxDelay.

(** The loop of [executeWithRetry] together with the pauses it makes: the
    result, the environment, and the arguments of its [setTimeout] calls in
    the order they are made. *)
Fixpoint attemptsTimed {S A} (attempt left : nat) (operation : M S A)
    (e : Env S) : Res A * Env S * list Z :=
  match left with
  | 0 => (Thrown (PlainErr "undefined"), e, [])
  | Datatypes.S left' =>
      match operation e with
      | (Ok a, e') => (Ok a, e', [])
      | (Thrown error, e') =>
          if bool_decide (left' = 0) || negb (RetryManager.shouldRetry error)
          then (Thrown error, e', [])
          else
            let delay := calculateDelay attempt in
            let '(r, e'', delays) := attemptsTimed (Datatypes.S attempt) left' operation e' in
            (r, e'', delay :: delays)
      end
  end.

Definition executeWithRetry {S A} (operation : M S A) (e : Env S)
  : Res A * Env S * list Z :=
  attemptsTimed 1 RetryManager.maxRetries operation e.

End RetryDelay.

(** ** PerformanceOptimizer: reading what was written (hooks/useFirestore.ts) *)

Module PerformanceOptimizer.

(** [timestamp.toDate()]: [new Date(seconds * 1000 + nanoseconds / 1e6)],
    the constructor cutting the fraction of a millisecond off. *)
Definition toDate (seconds nanoseconds : Z) : Z :=
  Z.quot (seconds * 1000000000 + nanoseconds) 1000000.

(** [deepProcessTimestamps]: a Timestamp becomes a Date, arrays are mapped,
    every other object (a Date and an instance of another class too) is
    rebuilt from its own entries.  An instance of Timestamp carries its two
    numbers; the model gives any other shape the date 0. *)
Fixpoint deepProcessTimestamps (obj : JsVal) : JsVal :=
  match obj with
  | JInst "Timestamp" o =>
      match o !! "seconds", o !! "nanoseconds" with
      | Some (JNum s), Some (JNum ns) => JDate (toDate s ns)
      | _, _ => JDate 0
      end
  | JArr l => JArr (map deepProcessTimestamps l)
  | JInst _ o => JObj (deepProcessTimestamps <$> o)
  | JObj o => JObj (deepProcessTimestamps <$> o)
  | JDate _ => JObj ∅
  | _ => obj
  end.

(** [typeof v === 'object' && v !== null]. *)
Definition isObject (v : JsVal) : bool :=
  match v with
  | JDate _ | JArr _ | JInst _ _ | JObj _ => true
  | _ => false
  end.

(** [processFirestoreData], for data the cache does not hold yet (the cache
    is keyed by the identity of the object, and a snapshot delivers new
    objects).  The result is stored in a [WeakMap] under the data, which
    throws a [TypeError] when the data is not an object: [None]. *)
Definition processFirestoreData (data : JsVal) : option JsVal :=
  let processed := deepProcessTimestamps data in
  if isObject data then Some processed else None.

End PerformanceOptimizer.

(** ** The reset of the shared record (hooks/useFirebaseDrawingState.ts) *)

Module DrawingStateHook.

(** [Promise.all([p, q])] for two promises that are both already started:
    the effects of both happen; the first rejection is the rejection of the
    whole. *)
Definition promiseAll2 {S A B} (p : M S A) (q : M S B) : M S unit :=
  fun e => match p e with
           | (Ok _, e1) =>
               match q e1 with
               | (Ok _, e2) => (Ok tt, e2)
               | (Thrown err, e2) => (Thrown err, e2)
               end
           | (Thrown err, e1) => (Thrown err, snd (q e1))
           end.

(** [resetDrawingState] of hooks/useFirebaseDrawingState.ts. *)
Definition resetDrawingState {S} : M S unit :=
  tryCatch
    (promiseAll2
       (setDoc_drawing
          (prepareObj (spread DEFAULT_DRAWING_STATE {[ "lastUpdated" := serverTimestamp ]})))
       (let* _ := removeItem "vipProcessedWinners" in
        removeItem "vipDrawSession"))
    (fun err => throw (DrawingStateErr (errCode err))).

End DrawingStateHook.

(** ** The collection hook: removing participants (hooks/useFirestore.ts) *)

(** [deleteDoc(doc(db, 'participants', id))]. *)
Definition deleteDoc_participant {S} (id : string) : M S unit :=
  let* _ := transport in
  let* w := getBackend in
  setBackend (mkWorld (drawingDoc w) (winnersCol w) (prizesCol w)
                      (filter (fun p => p_id p ≠ id) (participantsCol w))
                      (faults w)).

Module Collection.

(** [remove] of the collection hook, for the participants. *)
Definition remove_participant {S} (id : string) : M S unit :=
  RetryManager.executeWithRetry (deleteDoc_participant id).

(** [clear] of the hook for the participants collection; [data] is the
    array the hook returned in the render the callback was created in. *)
Definition clear_participants {S} (data : list Participant) : M S unit :=
  let ids := map p_id data in
  if bool_decide (length ids = 0) then ret tt
  else Hook.removeMultiple_participants ids.

End Collection.

(** ** AdminPage: the participant list *)

Module AdminPage.

(** [removeParticipant], the [onRemoveParticipant] of the participant manager. *)
Definition removeParticipant (id : string) : M Admin.State unit :=
  fire (Collection.remove_participant id).

Definition removeParticipants (participantIds : list string) : M Admin.State unit :=
  fire (Hook.removeMultiple_participants participantIds).

(** [clearAllParticipants]; [confirmed] is the answer to [window.confirm]. *)
Definition clearAllParticipants (h : Hooks) (confirmed : bool) : M Admin.State unit :=
  if confirmed then fire (Collection.clear_participants (h_participants h))
  else ret tt.

End AdminPage.

(** ** Strings of JavaScript *)

(** A string is the sequence of its code units; the model covers the
    strings whose code units are below 256. *)
Module Text.

Definition units (s : string) : list ascii := String.list_ascii_of_string s.
Definition ofUnits (l : list ascii) : string := String.string_of_list_ascii l.

(** The white space and line terminators [trim] removes: TAB, LF, VT, FF,
    CR, SP and NBSP. *)
Definition isWhiteSpace (c : ascii) : bool :=
  let n := N_of_ascii c in
  ((9 <=? n) && (n <=? 13) || (n =? 32) || (n =? 160))%N.

Fixpoint trimStartUnits (l : list ascii) : list ascii :=
  match l with
  | [] => []
  | c :: rest => if isWhiteSpace c then trimStartUnits rest else l
  end.

Definition trimEndUnits (l : list ascii) : list ascii :=
  reverse (trimStartUnits (reverse l)).

(** [s.trim()]. *)
Definition trim (s : string) : string :=
  ofUnits (trimEndUnits (trimStartUnits (units s))).

(** The lower case of a code unit: A-Z and the capital letters of Latin-1. *)
Definition lowerUnit (c : ascii) : ascii :=
  let n := N_of_ascii c in
  if ((65 <=? n) && (n <=? 90) || (192 <=? n) && (n <=? 214)
      || (216 <=? n) && (n <=? 222))%N
  then ascii_of_N (n + 32) else c.

(** [s.toLowerCase()]. *)
Definition toLowerCase (s : string) : string :=
  ofUnits (map lowerUnit (units s)).

End Text.

Import Text.

(** ** utils/fileHandling.ts: the import of a text file and the mask of
    an e-mail address *)

Module FileHandling.

Record ImportedParticipantData := mkImported {
  i_name : string;
  i_email : option string
}.

(** A promise once settled. *)
Inductive Settled (A : Type) :=
  | Resolved (value : A)
  | Rejected (message : string).
Arguments Resolved {A} value.
Arguments Rejected {A} message.

(** [s.split(sep)] for a separator of one code unit. *)
Fixpoint split (sep : ascii) (s : string) : list string :=
  match s with
  | EmptyString => [EmptyString]
  | String c rest =>
      if Ascii.eqb c sep then EmptyString :: split sep rest
      else match split sep rest with
           | part :: parts => String c part :: parts
           | [] => [String c EmptyString]
           end
  end.

Definition isDigit (c : ascii) : bool :=
  let n := N_of_ascii c in ((48 <=? n) && (n <=? 57))%N.

(** [/^\d+$/.test(line)]. *)
Definition allDigits (line : string) : bool :=
  negb (bool_decide (line = "")) && forallb isDigit (units line).

(** [s.padStart(targetLength, pad)] for a pad of one code unit. *)
Definition padStart (targetLength : nat) (pad : ascii) (s : string) : string :=
  ofUnits (replicate (targetLength - String.length s) pad ++ units s)%list.

(** The filter that removes duplicates, with the set [seen] it fills. *)
Fixpoint uniqueFrom (seen : list string) (participants : list ImportedParticipantData)
  : list ImportedParticipantData :=
  match participants with
  | [] => []
  | p :: rest =>
      let key := toLowerCase (i_name p) in
      if bool_decide (key ∈ seen) then uniqueFrom seen rest
      else p :: uniqueFrom (key :: seen) rest
  end.

Definition rowOfLine (line : string) : ImportedParticipantData :=
  if allDigits line
  then mkImported ("BIB " +:+ padStart 4 "0"%char line) None
  else mkImported line None.

(** The branch of [importFromFile] for a file that is not a [.csv];
    [content] is the text the reader delivers. *)
Definition importFromFile_txt (content : string)
  : Settled (list ImportedParticipantData) :=
  let lines :=
    filter (fun line => (0 < String.length line)%nat)
           (map trim (split "010"%char content)) in
  let participants := map rowOfLine lines in
  if bool_decide (length participants = 0)
  then Rejected "Tidak ditemukan data yang valid dalam file teks."
  else Resolved (uniqueFrom [] participants).

(** [maskEmail]. *)
Definition maskEmail (email : string) : string :=
  if bool_decide (email = "") then ""
  else
    let parts := split "@"%char email in
    let localPart := default "" (parts !! 0%nat) in
    match parts !! 1%nat with
    | None => email
    | Some domain =>
        if bool_decide (domain = "") then email
        else if bool_decide (String.length localPart ≤ 4)%nat then email
        else
          let firstTwo := ofUnits (take 2 (units localPart)) in
          let lastTwo := ofUnits (drop (String.length localPart - 2) (units localPart)) in
          let masked := ofUnits (replicate (String.length localPart - 4) "*"%char) in
          firstTwo +:+ masked +:+ lastTwo +:+ "@" +:+ domain
    end.

End FileHandling.

Import FileHandling.

(** ** components/ParticipantManager.tsx *)

Module ParticipantManager.

(** The double quote around the name in the duplicate message. *)
Definition quote : string := String "034"%char EmptyString.

(** [p.name.toLowerCase().trim()]. *)
Definition normalizedName (p : Participant) : string := trim (toLowerCase (p_name p)).

Definition validateName (participants : list Participant) (name : string) : Validation :=
  let trimmedName := trim name in
  if bool_decide (trimmedName = "") then Invalid "Nama tidak boleh kosong"
  else if bool_decide (String.length trimmedName < 2)%nat
  then Invalid "Nama minimal 2 karakter"
  else if bool_decide (100 < String.length trimmedName)%nat
  then Invalid "Nama maksimal 100 karakter"
  else
    let isDuplicate :=
      existsb (fun p => bool_decide (normalizedName p = toLowerCase trimmedName))
              participants in
    if isDuplicate
    then Invalid ("Peserta " +:+ quote +:+ trimmedName +:+ quote +:+ " sudah terdaftar")
    else Valid.

(** What [handleAddName] does with the text of the input field: it shows an
    error, or hands the trimmed name to [onAddParticipant]. *)
Inductive AddOutcome :=
  | ShowError (validationError : string)
  | AddParticipant (name : string).

Definition handleAddName (participants : list Participant) (newName : string)
  : AddOutcome :=
  match validateName participants newName with
  | Invalid error => ShowError (if bool_decide (error = "") then "Input tidak valid" else error)
  | Valid => AddParticipant (trim newName)
  end.

(** *** The import of a file *)

Record ProcessedData := mkProcessed {
  d_name : string;
  d_phone : option string;
  d_email : option string
}.

Record ImportResult := mkImportResult {
  success : nat;
  duplicates : nat;
  invalid : nat;
  duplicateNames : list string;
  invalidNames : list string
}.

(** [s.includes(sub)]. *)
Fixpoint includes (sub s : string) : bool :=
  String.prefix sub s
  || match s with
     | EmptyString => false
     | String _ rest => includes sub rest
     end.

(** The rows with a name that is not blank, their names trimmed (the
    imported rows carry no phone). *)
Definition processData (importedData : list ImportedParticipantData)
  : list ProcessedData :=
  map (fun data => mkProcessed (trim (i_name data)) None (i_email data))
      (filter (fun data => i_name data ≠ "" ∧ (0 < String.length (trim (i_name data)))%nat)
              importedData).

(** The map [seen], in the order of insertion. *)
Definition collectSeen (processedData : list ProcessedData)
  : list (string * ProcessedData) :=
  foldl (fun seen data =>
           let lowerName := toLowerCase (d_name data) in
           if bool_decide (lowerName ∈ map fst seen) then seen
           else (seen ++ [(lowerName, data)])%list)
        [] processedData.

Definition uniqueImportData (processedData : list ProcessedData) : list ProcessedData :=
  map snd (collectSeen processedData).

(** The three arrays that the loop over [uniqueImportData] fills. *)
Record Sorted := mkSorted {
  validData : list ProcessedData;
  duplicateNamesOf : list string;
  invalidNamesOf : list string
}.

Definition sortOne (participants : list Participant) (acc : Sorted) (data : ProcessedData)
  : Sorted :=
  match validateName participants (d_name data) with
  | Invalid error =>
      if includes "sudah terdaftar" error
      then mkSorted (validData acc) (duplicateNamesOf acc ++ [d_name data])%list
                    (invalidNamesOf acc)
      else mkSorted (validData acc) (duplicateNamesOf acc)
                    (invalidNamesOf acc ++ [d_name data])%list
  | Valid => mkSorted (validData acc ++ [data])%list (duplicateNamesOf acc) (invalidNamesOf acc)
  end.

(** What [handleFileImport] does once [importFromFile] has settled:
    the error it shows, or the result it shows, the argument of
    [onImportParticipants] when it is called, and the list of the
    duplicate dialog when it is opened. *)
Inductive ImportOutcome :=
  | ImportFailed (validationError : string)
  | ImportDone (importResult : ImportResult)
               (onImportParticipants : option (list ProcessedData))
               (duplicatesList : option (list string)).

Definition handleFileImport (participants : list Participant)
    (imported : Settled (list ImportedParticipantData)) : ImportOutcome :=
  match imported with
  | Rejected message => ImportFailed ("Error importing file: " +:+ message)
  | Resolved importedData =>
      let sorted :=
        foldl (sortOne participants) (mkSorted [] [] [])
              (uniqueImportData (processData importedData)) in
      ImportDone
        (mkImportResult (length (validData sorted)) (length (duplicateNamesOf sorted))
                        (length (invalidNamesOf sorted))
                        (duplicateNamesOf sorted) (invalidNamesOf sorted))
        (if bool_decide (0 < length (validData sorted))%nat
         then Some (validData sorted) else None)
        (if bool_decide (0 < length (duplicateNamesOf sorted))%nat
         then Some (duplicateNamesOf sorted) else None)
  end.

(** *** Duplicates *)

(** The filter of [findDuplicates], with the set [seen] it fills. *)
Fixpoint duplicatesFrom (seen : list string) (participants : list Participant)
  : list Participant :=
  match participants with
  | [] => []
  | participant :: rest =>
      let normalizedName := normalizedName participant in
      if bool_decide (normalizedName ∈ seen)
      then participant :: duplicatesFrom seen rest
      else duplicatesFrom (normalizedName :: seen) rest
  end.

Definition findDuplicates (participants : list Participant) : list Participant :=
  duplicatesFrom [] participants.

(** [duplicates.forEach(duplicate => onRemoveParticipant(duplicate.id))];
    [onRemoveParticipant] is [removeParticipant] of the admin page. *)
Fixpoint removeEach (duplicates : list Participant) : M Admin.State unit :=
  match duplicates with
  | [] => ret tt
  | duplicate :: rest =>
      let* _ := AdminPage.removeParticipant (p_id duplicate) in removeEach rest
  end.

(** [removeDuplicates]; [confirmed] is the answer to
    [window.confirm]. *)
Definition removeDuplicates (participants : list Participant) (confirmed : bool)
  : M Admin.State unit :=
  let duplicates := findDuplicates participants in
  if bool_decide (length duplicates = 0) then alert "Tidak ada duplikasi ditemukan"
  else if confirmed then removeEach duplicates
  else ret tt.

End ParticipantManager.

Import ParticipantManager.

(** * Vocabulary of the further statements *)

(** ** The shared record *)

(** The value the pages' hook stores in [lastUpdated]. *)
Definition stampOfHook : JsVal := JObj {[ "_methodName" := JStr "serverTimestamp" ]}.

(** The record [resetDrawingState] writes. *)
Definition freshRecord : Obj :=
  prepareObj (spread DEFAULT_DRAWING_STATE {[ "lastUpdated" := serverTimestamp ]}).

(** A record as the pages write it: with an id and a name. *)
Definition namedWinner (w : Winner) : Prop := w_id w ≠ "" ∧ w_name w ≠ "".

Definition namedParticipant (p : Participant) : Prop := p_id p ≠ "" ∧ p_name p ≠ "".

(** The array fields that [processFirebaseData] processes as winners. *)
Definition winnerArrays : list string :=
  ["currentWinners"; "finalWinners"; "predeterminedWinners"].

(** Data as the pages hand it to the hooks: primitives, dates, arrays and
    object literals, no instance of a class. *)
Inductive Plain : JsVal → Prop :=
  | plain_undef : Plain JUndef
  | plain_null : Plain JNull
  | plain_bool b : Plain (JBool b)
  | plain_num n : Plain (JNum n)
  | plain_str s : Plain (JStr s)
  | plain_date t : Plain (JDate t)
  | plain_arr l : Forall Plain l → Plain (JArr l)
  | plain_obj o : map_Forall (fun _ => Plain) o → Plain (JObj o).

(** The induction principle of [Plain], through arrays and objects. *)
Section PlainInduction.
Variable P : JsVal → Prop.
Hypothesis Hundef : P JUndef.
Hypothesis Hnull : P JNull.
Hypothesis Hbool : ∀ b, P (JBool b).
Hypothesis Hnum : ∀ n, P (JNum n).
Hypothesis Hstr : ∀ s, P (JStr s).
Hypothesis Hdate : ∀ t, P (JDate t).
Hypothesis Harr : ∀ l, Forall P l → P (JArr l).
Hypothesis Hobj : ∀ o, map_Forall (fun _ => P) o → P (JObj o).

Fixpoint Plain_induction (v : JsVal) (H : Plain v) {struct H} : P v :=
  match H in Plain v return P v with
  | plain_undef => Hundef
  | plain_null => Hnull
  | plain_bool b => Hbool b
  | plain_num n => Hnum n
  | plain_str s => Hstr s
  | plain_date t => Hdate t
  | plain_arr l Hl =>
      Harr l ((fix go (l : list JsVal) (Hl : Forall Plain l) {struct Hl} : Forall P l :=
                 match Hl in Forall _ l return Forall P l with
                 | List.Forall_nil _ => List.Forall_nil _
                 | @List.Forall_cons _ _ x l Hx Hl' =>
                     List.Forall_cons _ x l (Plain_induction x Hx) (go l Hl')
                 end) l Hl)
  | plain_obj o Ho => Hobj o (fun k x Hk => Plain_induction x (Ho k x Hk))
  end.

End PlainInduction.

(** ** The collections *)

(** Between [e] and [e'] nothing happened to the back end except that
    participants with an id of [ids] were deleted. *)
Definition onlyRemoves {S} (ids : list string) (e e' : Env S) : Prop :=
  drawingDoc (backend e') = drawingDoc (backend e)
  ∧ winnersCol (backend e') = winnersCol (backend e)
  ∧ prizesCol (backend e') = prizesCol (backend e)
  ∧ ∃ removed, removed ⊆ ids
      ∧ participantsCol (backend e')
        = filter (fun p => p_id p ∉ removed) (participantsCol (backend e)).

(** The ids [processWinnerRemoval] hands to [onRemoveParticipants]. *)
Definition winnerParticipantIds (h : Hooks) (st : Admin.State) (winners : list Winner)
  : list string :=
  omap (fun winner =>
          match find (fun p => bool_decide (p_name p = w_name winner))
                     (Admin.availableParticipants h st) with
          | Some participant =>
              if bool_decide (p_id participant = "") then None
              else Some (p_id participant)
          | None => None
          end) winners.

(** The prizes after [remainingQuota] of the prize [id] was set to [q]. *)
Definition withQuota (id : string) (q : Z) (prizes : list Prize) : list Prize :=
  map (fun p => if bool_decide (z_id p = id) then setRemainingQuota q p else p) prizes.

(** The environment [Admin.stopDrawing] leaves when it is handed winners
    and the transport works. *)
Definition afterStop (h : Hooks) (ws : list Winner) (prize : Prize) (newQuota : Z)
    (e : Env Admin.State) : Env Admin.State :=
  let doc := if (newQuota <=? 0)%Z
             then Some (published (drawingDoc (backend e)) {[ "selectedPrizeId" := JNull ]})
             else drawingDoc (backend e) in
  let st := if (newQuota <=? 0)%Z
            then Admin.setSelectedPrizeId None (react e) else react e in
  mkEnv (mkWorld doc
                 (winnersCol (backend e) ++ uniqueNewWinners (h_winners h) ws)%list
                 (withQuota (z_id prize) newQuota (prizesCol (backend e)))
                 (participantsCol (backend e)) [])
        (localStorage e) (alerts e)
        (Admin.setIsDrawing false (Admin.setCurrentWinners ws st)).

(** ** The state of a page *)

(** Only the back end changed. *)
Definition sameLocal {S} (e e' : Env S) : Prop :=
  localStorage e' = localStorage e ∧ alerts e' = alerts e ∧ react e' = react e.

(** The VIP page is where it was: same local storage, same phase, same
    winners held for the session, still (or still not) processing. *)
Definition vipHeld (e e' : Env Vip.State) : Prop :=
  localStorage e' = localStorage e
  ∧ Vip.isProcessing (react e') = Vip.isProcessing (react e)
  ∧ Vip.isDrawing (react e') = Vip.isDrawing (react e)
  ∧ Vip.drawingPhase (react e') = Vip.drawingPhase (react e)
  ∧ Vip.predeterminedWinners (react e') = Vip.predeterminedWinners (react e)
  ∧ Vip.lastDrawSession (react e') = Vip.lastDrawSession (react e).

(** A computation that never throws. *)
Definition neverThrows {S A} (m : M S A) : Prop :=
  ∀ e, ∃ a e', m e = (Ok a, e').

(** ** The display *)

(** The indexes [rowData.startIndex + colIndex] of the slots of one row. *)
Definition slotIndexes (rowData : Z * Z) : list nat :=
  map (fun colIndex => (Z.to_nat (fst rowData) + colIndex)%nat)
      (seq 0 (Z.to_nat (snd rowData))).

(** What slot [actualIndex] of the multi-slot screen shows. *)
Definition slotCell (v : Display.State) (actualIndex : nat) : Display.Cell :=
  if negb (Display.isSpinning v) && negb (Display.showFinalResults v) then Display.Ready
  else Display.Name
         (Display.firstNonEmpty (default "" (Display.rollingNames v !! actualIndex))
                                (Display.finalName v actualIndex))
         (Display.showFinalResults v).

(** [drawCount] of the display's render. *)
Definition displayDrawCount (v : Display.State) : Z :=
  let prizeQuota :=
    if (ds_selectedPrizeQuota (Display.localState v) =? 0)%Z then 1%Z
    else ds_selectedPrizeQuota (Display.localState v) in
  let poolSize :=
    if bool_decide (length (Display.participantsSnapshot v) = 0)
    then length (ds_participants (Display.localState v))
    else length (Display.participantsSnapshot v) in
  Z.min prizeQuota (Z.of_nat poolSize).

Section DisplaySchedule.
Import Display.

(** A firing of one of the two animation intervals. *)
Definition isTick (ev : Event) : Prop :=
  match ev with
  | TickMulti _ | TickSingle _ => True
  | _ => False
  end.

(** The steps of the display when a snapshot arrives: the page renders,
    its effects run, it renders the state they set, and the effects run
    once more before the last render.  The intervals can fire between any
    two steps: [ticks k] lists the firings after step [k]. *)
Definition revealSchedule (ds : DrawingState) (ticks : nat → list Event) : list Event :=
  ([Snapshot ds] ++ ticks 0%nat ++ [Render] ++ ticks 1%nat
   ++ [EffectSync] ++ ticks 2%nat ++ [EffectDraw] ++ ticks 3%nat
   ++ [Render] ++ ticks 4%nat
   ++ [EffectSync] ++ ticks 5%nat ++ [EffectDraw] ++ ticks 6%nat
   ++ [EffectMulti] ++ ticks 7%nat ++ [EffectSingle] ++ ticks 8%nat
   ++ [Render])%list.

(** The firings between the effect that reveals and the effect that clears
    the multi-slot interval, and up to the one that clears the single-name
    interval. *)
Definition ticksBeforeMultiCleared (ticks : nat → list Event) : list Event :=
  (ticks 2%nat ++ ticks 3%nat ++ ticks 4%nat ++ ticks 5%nat ++ ticks 6%nat)%list.
Definition ticksBeforeSingleCleared (ticks : nat → list Event) : list Event :=
  (ticksBeforeMultiCleared ticks ++ ticks 7%nat)%list.

(** The rolling names after the firings [ticks] of the multi-slot interval
    [timer], and the single name after those of the single-name interval. *)
Definition rollingAfter (timer : option (list Participant * Z)) (ticks : list Event)
    (names : list string) : list string :=
  foldl (fun names ev =>
           match ev, timer with
           | TickMulti rnd, Some (snapshot, drawCount) =>
               map (fun i => randomName snapshot (default (length snapshot) (rnd !! i)))
                   (seq 0 (Z.to_nat drawCount))
           | _, _ => names
           end) names ticks.

Definition singleAfter (timer : option (list Participant)) (ticks : list Event)
    (name : string) : string :=
  foldl (fun name ev =>
           match ev, timer with
           | TickSingle r, Some snapshot => randomName snapshot r
           | _, _ => name
           end) name ticks.

End DisplaySchedule.

(** ** Names of participants *)

(** A name as [handleAddName] hands it on: trimmed, of 2 to 100 code units. *)
Definition acceptableName (name : string) : Prop :=
  trim name = name ∧ (2 ≤ String.length name ≤ 100)%nat.

(** No two participants share a name up to case and surrounding space. *)
Definition distinctNames (participants : list Participant) : Prop :=
  NoDup (map normalizedName participants).

(** The participants [removeDuplicates] leaves in [participants]. *)
Definition withoutDuplicates (participants : list Participant) : list Participant :=
  filter (fun p => p_id p ∉ map p_id (findDuplicates participants)) participants.

(** The key under which the import compares two names. *)
Definition keyOfRow (r : ImportedParticipantData) : string := toLowerCase (i_name r).

Definition keyOfData (d : ProcessedData) : string := toLowerCase (d_name d).

(** The step of the loop that fills [seen]. *)
Definition seenStep (seen : list (string * ProcessedData)) (data : ProcessedData)
  : list (string * ProcessedData) :=
  if bool_decide (keyOfData data ∈ map fst seen) then seen
  else (seen ++ [(keyOfData data, data)])%list.

(** The three classes of a row, as the loop tells them apart. *)
Definition isValidRow (participants : list Participant) (d : ProcessedData) : bool :=
  isValid (validateName participants (d_name d)).

Definition isDuplicateRow (participants : list Participant) (d : ProcessedData) : bool :=
  match validateName participants (d_name d) with
  | Invalid error => includes "sudah terdaftar" error
  | Valid => false
  end.

Definition isInvalidRow (participants : list Participant) (d : ProcessedData) : bool :=
  match validateName participants (d_name d) with
  | Invalid error => negb (includes "sudah terdaftar" error)
  | Valid => false
  end.

(** The local part as [maskEmail] shows it. *)
Definition maskedLocal (localPart : string) : string :=
  ofUnits (take 2 (units localPart)
           ++ replicate (String.length localPart - 4) "*"%char
           ++ drop (String.length localPart - 2) (units localPart))%list.

(** ** Further example data *)

(** A transport that fails twice with a retryable code, then works. *)
Definition flakyWorld : World :=
  mkWorld None [] [] [] [Some "unavailable"; Some "internal"; None].

(** A VIP page in the middle of its stop: the finalize callback runs while
    the third round trip of the transport fails. *)
Definition vipStuckEnv : Env Vip.State :=
  mkEnv (mkWorld (Some ∅) [] [voucher] [ana; budi; citra]
                 [None; None; Some "unavailable"])
        ∅ [] (Vip.setIsProcessing true vipSpinning).

(** A VIP page whose second round trip is refused. *)
Definition refusingEnv : Env Vip.State :=
  mkEnv (mkWorld (Some ∅) [] [voucher] [ana; budi; citra]
                 [None; Some "permission-denied"])
        ∅ [] vipSpinning.

(** An engine for the examples. *)
Definition fixedEngine : Process.Engine := Process.mkEngine 0 "0.5" (fun _ => None).

(** * Properties *)

(** ** The monad *)

Section MonadFacts.
Context {S : Type}.

(** A Hoare-style reading of [RetryManager.attempts]: an invariant of the
    failing runs of the operation is an invariant of the failing runs of
    the loop, and a post-condition of its successes is one of the loop. *)
Lemma attempts_rule {A} (P : Env S → Prop) (Q : A → Env S → Prop)
    (operation : M S A) :
  (∀ e a e', P e → operation e = (Ok a, e') → Q a e') →
  (∀ e err e', P e → operation e = (Thrown err, e') → P e') →
  ∀ n e a e', P e → RetryManager.attempts n operation e = (Ok a, e') → Q a e'.
Proof.
  intros Hok Herr n.
  induction n as [|n IH]; intros e a e' HP Hrun; simpl in Hrun.
  - discriminate.
  - unfold tryCatch in Hrun.
    destruct (operation e) as [[a0|err] e0] eqn:Hop.
    + inversion Hrun; subst. eapply Hok; eauto.
    + destruct (bool_decide (n = 0) || negb (RetryManager.shouldRetry err)).
      * discriminate.
      * eapply IH; [|exact Hrun]. eapply Herr; eauto.
Qed.

Lemma attempts_first_ok {A} (operation : M S A) n e a e' :
  operation e = (Ok a, e') →
  RetryManager.attempts (Datatypes.S n) operation e = (Ok a, e').
Proof. intros Hop. simpl. unfold tryCatch. by rewrite Hop. Qed.

End MonadFacts.

(** ** Publishing to a record that does not exist *)

Lemma hook_update_missing_ok {S} (e e' : Env S) (updates : Obj) :
  updates ≠ ∅ → drawingDoc (backend e) = None →
  UseFirebaseDrawingState.updateDrawingState updates e = (Ok tt, e') →
  drawingDoc (backend e') = Some (recreatedByHook updates).
Proof.
  intros Hne Hdoc. unfold UseFirebaseDrawingState.updateDrawingState.
  rewrite bool_decide_eq_false_2 by done.
  destruct e as [[doc ws ps pp fl] ls al r]; simpl in Hdoc; subst doc.
  unfold tryCatch, updateDoc_drawing, setDoc_drawing, bind, transport, getBackend,
    setBackend, throw, ret; simpl.
  destruct fl as [|[c|] fl]; simpl.
  - intros [= <-]. reflexivity.
  - case_bool_decide as Hc; simpl.
    + destruct fl as [|[c'|] fl]; simpl; intros [= <-] || intros [=]; reflexivity.
    + intros [=].
  - destruct fl as [|[c'|] fl]; simpl; intros [= <-] || intros [=]; reflexivity.
Qed.

Lemma hook_update_missing_healthy {S} (e : Env S) (updates : Obj) :
  updates ≠ ∅ → drawingDoc (backend e) = None →
  Forall (eq None) (faults (backend e)) →
  ∃ e', UseFirebaseDrawingState.updateDrawingState updates e = (Ok tt, e').
Proof.
  intros Hne Hdoc Hfl. unfold UseFirebaseDrawingState.updateDrawingState.
  rewrite bool_decide_eq_false_2 by done.
  destruct e as [[doc ws ps pp fl] ls al r]; simpl in *; subst doc.
  unfold tryCatch, updateDoc_drawing, setDoc_drawing, bind, transport, getBackend,
    setBackend, throw, ret; simpl.
  destruct fl as [|f fl]; simpl; [eauto|].
  apply Forall_cons in Hfl as [<- Hfl]; simpl.
  destruct fl as [|f fl]; simpl; [eauto|].
  apply Forall_cons in Hfl as [<- Hfl]; simpl. eauto.
Qed.

Lemma collectionHookAttempt_missing {S} (e e' : Env S) (updates : Obj) r :
  drawingDoc (backend e) = None →
  collectionHookAttempt updates e = (r, e') →
  match r with
  | Ok _ => drawingDoc (backend e') = Some (recreatedByCollectionHook updates)
  | Thrown _ => drawingDoc (backend e') = None
  end.
Proof.
  intros Hdoc.
  destruct e as [[doc ws ps pp fl] ls al st]; simpl in Hdoc; subst doc.
  unfold collectionHookAttempt, tryCatch, updateDoc_drawing, setDoc_drawing, bind,
    transport, getBackend, setBackend, throw, ret; simpl.
  destruct fl as [|[c|] fl]; simpl.
  - intros [= <- <-]. reflexivity.
  - case_bool_decide as Hc; simpl.
    + destruct fl as [|[c'|] fl]; simpl; intros [= <- <-]; reflexivity.
    + intros [= <- <-]. reflexivity.
  - destruct fl as [|[c'|] fl]; simpl; intros [= <- <-]; reflexivity.
Qed.

Lemma collection_hook_update_missing_ok {S} (e e' : Env S) (updates : Obj) :
  updates ≠ ∅ → drawingDoc (backend e) = None →
  UseFirestore.updateDrawingState updates e = (Ok tt, e') →
  drawingDoc (backend e') = Some (recreatedByCollectionHook updates).
Proof.
  intros Hne Hdoc. unfold UseFirestore.updateDrawingState.
  rewrite bool_decide_eq_false_2 by done.
  unfold RetryManager.executeWithRetry. intros Hrun.
  refine (attempts_rule (fun e0 => drawingDoc (backend e0) = None)
            (fun _ e0 => drawingDoc (backend e0) = Some (recreatedByCollectionHook updates))
            (collectionHookAttempt updates) _ _ _ e tt e' Hdoc Hrun).
  - intros e0 a e1 H0 Hop. exact (collectionHookAttempt_missing _ _ _ _ H0 Hop).
  - intros e0 err e1 H0 Hop. exact (collectionHookAttempt_missing _ _ _ _ H0 Hop).
Qed.

Lemma collection_hook_update_missing_healthy {S} (e : Env S) (updates : Obj) :
  updates ≠ ∅ → drawingDoc (backend e) = None →
  Forall (eq None) (faults (backend e)) →
  ∃ e', UseFirestore.updateDrawingState updates e = (Ok tt, e').
Proof.
  intros Hne Hdoc Hfl. unfold UseFirestore.updateDrawingState.
  rewrite bool_decide_eq_false_2 by done.
  unfold RetryManager.executeWithRetry, RetryManager.maxRetries.
  assert (∃ e', collectionHookAttempt updates e = (Ok tt, e')) as [e' He'].
  { destruct e as [[doc ws ps pp fl] ls al st]; simpl in *; subst doc.
    unfold collectionHookAttempt, tryCatch, updateDoc_drawing, setDoc_drawing, bind,
      transport, getBackend, setBackend, throw, ret; simpl.
    destruct fl as [|f fl]; simpl; [eauto|].
    apply Forall_cons in Hfl as [<- Hfl]; simpl.
    destruct fl as [|f fl]; simpl; [eauto|].
    apply Forall_cons in Hfl as [<- Hfl]; simpl. eauto. }
  exists e'. by apply attempts_first_ok.
Qed.

Lemma prepareObj_default_hook :
  prepareObj UseFirebaseDrawingState.DEFAULT_DRAWING_STATE
  = UseFirebaseDrawingState.DEFAULT_DRAWING_STATE.
Proof. vm_compute. reflexivity. Qed.

Lemma recreatedByHook_lookup (updates : Obj) (k : string) :
  k ≠ "lastUpdated" →
  recreatedByHook updates !! k =
    match updates !! k with
    | Some v => Some (prepareForFirestore v)
    | None => UseFirebaseDrawingState.DEFAULT_DRAWING_STATE !! k
    end.
Proof.
  intros Hk. unfold recreatedByHook, prepareObj, spread.
  rewrite lookup_fmap, lookup_union_r by (by apply lookup_singleton_ne).
  rewrite lookup_union. destruct (updates !! k) as [v|] eqn:Hv.
  - destruct (UseFirebaseDrawingState.DEFAULT_DRAWING_STATE !! k); reflexivity.
  - rewrite <- prepareObj_default_hook at 2. unfold prepareObj. rewrite lookup_fmap.
    destruct (UseFirebaseDrawingState.DEFAULT_DRAWING_STATE !! k); reflexivity.
Qed.

Lemma recreatedByCollectionHook_lookup (updates : Obj) (k : string) :
  k ≠ "lastUpdated" → k ≠ "created" →
  recreatedByCollectionHook updates !! k =
    match updates !! k with
    | Some v => Some (prepareForFirestore v)
    | None => UseFirestore.DEFAULT_DRAWING_STATE !! k
    end.
Proof.
  intros Hk Hc. unfold recreatedByCollectionHook, prepareObj, spread.
  rewrite lookup_union_r by (by apply lookup_singleton_ne).
  rewrite lookup_union, lookup_union_r by (by apply lookup_singleton_ne).
  rewrite lookup_fmap. destruct (updates !! k) as [v|] eqn:Hv; simpl.
  - destruct (UseFirestore.DEFAULT_DRAWING_STATE !! k); reflexivity.
  - destruct (UseFirestore.DEFAULT_DRAWING_STATE !! k); reflexivity.
Qed.

(** C9. A publish that finds no shared record recreates it: whenever
    [updateDrawingState] (of either hook) reports success on a missing
    record, the record then exists and holds, field by field, the pending
    update over the default idle state; with a working transport the call
    does report success. *)
Theorem updateDrawingState_recovers_not_found :
  ∀ (S : Type) (e : Env S) (updates : Obj),
    updates ≠ ∅ →
    drawingDoc (backend e) = None →
    (∀ e', UseFirebaseDrawingState.updateDrawingState updates e = (Ok tt, e') →
           drawingDoc (backend e') = Some (recreatedByHook updates))
    ∧ (∀ e', UseFirestore.updateDrawingState updates e = (Ok tt, e') →
             drawingDoc (backend e') = Some (recreatedByCollectionHook updates))
    ∧ (Forall (eq None) (faults (backend e)) →
       (∃ e', UseFirebaseDrawingState.updateDrawingState updates e = (Ok tt, e'))
       ∧ (∃ e', UseFirestore.updateDrawingState updates e = (Ok tt, e')))
    ∧ (∀ k, k ≠ "lastUpdated" → k ≠ "created" →
         recreatedByHook updates !! k =
           match updates !! k with
           | Some v => Some (prepareForFirestore v)
           | None => UseFirebaseDrawingState.DEFAULT_DRAWING_STATE !! k
           end
         ∧ recreatedByCollectionHook updates !! k =
           match updates !! k with
           | Some v => Some (prepareForFirestore v)
           | None => UseFirestore.DEFAULT_DRAWING_STATE !! k
           end).
Proof.
  intros S e updates Hne Hdoc. repeat split.
  - intros e'. by apply hook_update_missing_ok.
  - intros e'. by apply collection_hook_update_missing_ok.
  - by apply hook_update_missing_healthy.
  - by apply collection_hook_update_missing_healthy.
  - by apply recreatedByHook_lookup.
  - by apply recreatedByCollectionHook_lookup.
Qed.

Lemma updateDrawingState_recovers_not_found_witness :
  ({[ "isDrawing" := JBool true ]} : Obj) ≠ ∅
  ∧ drawingDoc (backend (mkEnv emptyWorld ∅ [] tt)) = None
  ∧ ∃ e', UseFirebaseDrawingState.updateDrawingState {[ "isDrawing" := JBool true ]}
            (mkEnv emptyWorld ∅ [] tt) = (Ok tt, e')
          ∧ drawingDoc (backend e') = Some (recreatedByHook {[ "isDrawing" := JBool true ]}).
Proof.
  assert (Hne : ({[ "isDrawing" := JBool true ]} : Obj) ≠ ∅) by (vm_compute; discriminate).
  split; [exact Hne|]. split; [reflexivity|].
  destruct (updateDrawingState_recovers_not_found unit (mkEnv emptyWorld ∅ [] tt)
              {[ "isDrawing" := JBool true ]} Hne eq_refl) as (Hok & _ & Hrun & _).
  destruct (Hrun (List.Forall_nil _)) as [[e' He'] _].
  exists e'. split; [exact He'|]. by apply Hok.
Defined.


(** ** What a computation leaves unchanged *)

Section Frames.
Context {S : Type}.
Context (R : Env S → Env S → Prop) `{!Reflexive R, !Transitive R}.

Lemma leaves_ret {A} (a : A) : leaves R (ret a).
Proof. intros e r e' [= <- <-]. reflexivity. Qed.

Lemma leaves_throw {A} err : leaves R (@throw S A err).
Proof. intros e r e' [= <- <-]. reflexivity. Qed.

Lemma leaves_bind {A B} (m : M S A) (k : A → M S B) :
  leaves R m → (∀ a, leaves R (k a)) → leaves R (bind m k).
Proof.
  intros Hm Hk e r e'. unfold bind.
  destruct (m e) as [[a|err] e1] eqn:Hrun.
  - intros Hk'. etrans; [eapply Hm, Hrun | eapply Hk, Hk'].
  - intros [= <- <-]. eapply Hm, Hrun.
Qed.

Lemma leaves_tryCatch {A} (m : M S A) (hd : JsErr → M S A) :
  leaves R m → (∀ err, leaves R (hd err)) → leaves R (tryCatch m hd).
Proof.
  intros Hm Hh e r e'. unfold tryCatch.
  destruct (m e) as [[a|err] e1] eqn:Hrun.
  - intros [= <- <-]. eapply Hm, Hrun.
  - intros Hk'. etrans; [eapply Hm, Hrun | eapply Hh, Hk'].
Qed.

Lemma leaves_fire {A} (m : M S A) : leaves R m → leaves R (fire m).
Proof.
  intros Hm e r e'. unfold fire. intros [= <- <-].
  destruct (m e) as [r1 e1] eqn:Hrun. simpl. eapply Hm, Hrun.
Qed.

Lemma leaves_attempts {A} (m : M S A) n :
  leaves R m → leaves R (RetryManager.attempts n m).
Proof.
  intros Hm. induction n as [|n IH]; simpl.
  - apply leaves_throw.
  - apply leaves_tryCatch; [done|]. intros err.
    destruct (_ || _); [apply leaves_throw | exact IH].
Qed.

Lemma leaves_if {A} (b : bool) (m1 m2 : M S A) :
  leaves R m1 → leaves R m2 → leaves R (if b then m1 else m2).
Proof. by destruct b. Qed.

End Frames.

#[export] Instance sameCollections_refl {S} : Reflexive (@sameCollections S).
Proof. by intros e. Qed.
#[export] Instance sameCollections_trans {S} : Transitive (@sameCollections S).
Proof. intros a b c (?&?&?) (?&?&?). repeat split; congruence. Qed.

Section CollectionFrames.
Context {S : Type}.

Lemma transport_sameCollections : leaves (@sameCollections S) transport.
Proof.
  intros e r e'. unfold transport, bind, getBackend, setBackend, throw, ret.
  destruct (faults (backend e)) as [|[c|] fl]; simpl; intros [= <- <-]; done.
Qed.

Lemma setState_sameCollections (f : S → S) : leaves sameCollections (setState f).
Proof. intros e r e' [= <- <-]. done. Qed.

Lemma removeItem_sameCollections k : leaves (@sameCollections S) (removeItem k).
Proof. intros e r e' [= <- <-]. done. Qed.

Lemma setItem_sameCollections k v : leaves (@sameCollections S) (setItem k v).
Proof. intros e r e' [= <- <-]. done. Qed.

Lemma alert_sameCollections msg : leaves (@sameCollections S) (alert msg).
Proof. intros e r e' [= <- <-]. done. Qed.

Lemma updateDoc_drawing_sameCollections fields :
  leaves (@sameCollections S) (updateDoc_drawing fields).
Proof.
  apply leaves_bind; [apply _ | apply transport_sameCollections |].
  intros _ e r e'. unfold bind, getBackend, setBackend, throw.
  destruct (drawingDoc (backend e)); intros [= <- <-]; done.
Qed.

Lemma setDoc_drawing_sameCollections data :
  leaves (@sameCollections S) (setDoc_drawing data).
Proof.
  apply leaves_bind; [apply _ | apply transport_sameCollections |].
  intros _ e r e'. unfold bind, getBackend, setBackend. intros [= <- <-]; done.
Qed.

Lemma updateDrawingState_sameCollections updates :
  leaves (@sameCollections S) (updateDrawingState updates).
Proof.
  unfold updateDrawingState. apply leaves_if; [apply leaves_throw; apply _|].
  apply leaves_tryCatch; [apply _ | apply updateDoc_drawing_sameCollections |].
  intros err. apply leaves_if;
    [apply setDoc_drawing_sameCollections | apply leaves_throw; apply _].
Qed.

End CollectionFrames.

(** ** Publishing with a working transport *)

Lemma list_to_map_cons_non_empty (k : string) (v : JsVal) l :
  (list_to_map ((k, v) :: l) : Obj) ≠ ∅.
Proof. apply insert_non_empty. Qed.

Lemma updateDrawingState_healthy {S} (e : Env S) (updates : Obj) :
  updates ≠ ∅ → faults (backend e) = [] →
  updateDrawingState updates e
  = (Ok tt, withDoc (published (drawingDoc (backend e)) updates) e).
Proof.
  intros Hne Hfl. unfold updateDrawingState.
  rewrite bool_decide_eq_false_2 by done.
  destruct e as [[doc ws ps pp fl] ls al r]; simpl in Hfl; subst fl.
  unfold tryCatch, updateDoc_drawing, setDoc_drawing, bind, transport, getBackend,
    setBackend, throw, ret, withDoc, published; simpl.
  destruct doc as [d|]; reflexivity.
Qed.

Lemma published_lookup (doc : option Obj) (updates : Obj) k v :
  k ≠ "lastUpdated" → updates !! k = Some v →
  published doc updates !! k = Some (prepareForFirestore v).
Proof.
  intros Hk Hv. destruct doc as [d|]; simpl.
  - unfold spread, prepareObj. apply lookup_union_Some_l.
    rewrite lookup_fmap, lookup_union_r by (by apply lookup_singleton_ne).
    by rewrite Hv.
  - rewrite recreatedByHook_lookup by done. by rewrite Hv.
Qed.

(** ** Clearing *)

Create HintDb frames discriminated.
#[export] Hint Resolve transport_sameCollections setState_sameCollections
  removeItem_sameCollections setItem_sameCollections alert_sameCollections
  updateDoc_drawing_sameCollections setDoc_drawing_sameCollections
  updateDrawingState_sameCollections : frames.

(** Splits a frame goal along the structure of the computation. *)
Ltac frame_steps :=
  repeat lazymatch goal with
    | |- leaves _ (bind _ _) => apply leaves_bind; [apply _ | | intros ?]
    | |- leaves _ (fire _) => apply leaves_fire
    | |- leaves _ (tryCatch _ _) => apply leaves_tryCatch; [apply _ | | intros ?]
    | |- leaves _ (ret _) => apply leaves_ret; apply _
    | |- leaves _ (throw _) => apply leaves_throw; apply _
    | |- leaves _ (if _ then _ else _) => apply leaves_if
    | |- leaves _ (match ?x with _ => _ end) => destruct x
    end;
  eauto with frames.

Lemma clearCurrentWinners_sameCollections :
  leaves sameCollections Admin.clearCurrentWinners.
Proof. unfold Admin.clearCurrentWinners. frame_steps. Qed.

Lemma handleConfirmDelete_sameCollections :
  leaves sameCollections Admin.handleConfirmDelete.
Proof.
  unfold Admin.handleConfirmDelete. frame_steps.
  apply clearCurrentWinners_sameCollections.
Qed.

Lemma clearCurrentWinners_healthy (e : Env Admin.State) :
  faults (backend e) = [] →
  faults (backend (Admin.clearCurrentWinners e).2) = []
  ∧ (∀ k, k ∈ clearedArrays → field (Admin.clearCurrentWinners e).2 k = Some (JArr []))
  ∧ (∀ k, k ∈ clearedFlags → field (Admin.clearCurrentWinners e).2 k = Some (JBool false)).
Proof.
  intros Hfl. unfold Admin.clearCurrentWinners, bind, setState, removeItem, fire.
  cbn [fst snd].
  rewrite updateDrawingState_healthy
    by (first [apply list_to_map_cons_non_empty | exact Hfl]).
  cbn [snd]. unfold field, withDoc; cbn [backend drawingDoc faults mbind option_bind].
  split; [exact Hfl|]. split; intros k Hk.
  - apply (published_lookup _ _ k (JArr [])).
    + intros ->. unfold clearedArrays in Hk.
      repeat (apply elem_of_cons in Hk as [Hk|Hk]; [discriminate|]). by apply elem_of_nil in Hk.
    + unfold clearedArrays in Hk. repeat (apply elem_of_cons in Hk as [->|Hk]; [reflexivity|]).
      by apply elem_of_nil in Hk.
  - apply (published_lookup _ _ k (JBool false)).
    + intros ->. unfold clearedFlags in Hk.
      repeat (apply elem_of_cons in Hk as [Hk|Hk]; [discriminate|]). by apply elem_of_nil in Hk.
    + unfold clearedFlags in Hk. repeat (apply elem_of_cons in Hk as [->|Hk]; [reflexivity|]).
      by apply elem_of_nil in Hk.
Qed.

Lemma clearCurrentWinners_ok (e : Env Admin.State) :
  (Admin.clearCurrentWinners e).1 = Ok tt.
Proof. reflexivity. Qed.

Lemma handleConfirmDelete_healthy (e : Env Admin.State) :
  faults (backend e) = [] →
  (∀ k, k ∈ clearedArrays → field (Admin.handleConfirmDelete e).2 k = Some (JArr []))
  ∧ (∀ k, k ∈ clearedFlags → field (Admin.handleConfirmDelete e).2 k = Some (JBool false)).
Proof.
  intros Hfl. unfold Admin.handleConfirmDelete.
  destruct e as [w ls al r]. cbn [backend] in Hfl.
  cbv beta iota delta [bind setState removeItem fire].
  cbn [fst snd backend localStorage alerts react].
  rewrite updateDrawingState_healthy
    by (first [apply list_to_map_cons_non_empty | exact Hfl]).
  cbn [snd].
  lazymatch goal with
  | |- context [Admin.clearCurrentWinners ?e1] =>
      pose proof (clearCurrentWinners_healthy e1 Hfl) as (_ & Harr & Hflag);
      pose proof (clearCurrentWinners_ok e1) as Hok;
      destruct (Admin.clearCurrentWinners e1) as [r1 e2]
  end.
  cbn [fst] in Hok; subst r1. cbn [snd] in *.
  split; intros k Hk; [apply (Harr k Hk) | apply (Hflag k Hk)].
Qed.

(** C7. Clearing a revealed session: whatever the transport does, the
    Winner, Prize and Participant collections are exactly as before (no
    record is removed, no quota restored, no participant re-added); with a
    working transport the shared record afterwards has empty
    [currentWinners], [finalWinners] and [predeterminedWinners] and the
    display, slowdown, spinning and VIP flags set to false.  This holds for
    AdminPage.clearCurrentWinners and for the drawing area's
    handleConfirmDelete. *)
Theorem clearing_is_display_only :
  ∀ (e : Env Admin.State),
    sameCollections e (Admin.clearCurrentWinners e).2
    ∧ sameCollections e (Admin.handleConfirmDelete e).2
    ∧ (faults (backend e) = [] →
       ∀ k,
         (k ∈ clearedArrays →
            field (Admin.clearCurrentWinners e).2 k = Some (JArr [])
            ∧ field (Admin.handleConfirmDelete e).2 k = Some (JArr []))
         ∧ (k ∈ clearedFlags →
            field (Admin.clearCurrentWinners e).2 k = Some (JBool false)
            ∧ field (Admin.handleConfirmDelete e).2 k = Some (JBool false))).
Proof.
  intros e. split; [|split].
  - eapply clearCurrentWinners_sameCollections. apply surjective_pairing.
  - eapply handleConfirmDelete_sameCollections. apply surjective_pairing.
  - intros Hfl k.
    destruct (clearCurrentWinners_healthy e Hfl) as (_ & Harr & Hflag).
    destruct (handleConfirmDelete_healthy e Hfl) as (Harr' & Hflag').
    split; intros Hk; split; auto.
Qed.

Lemma clearing_is_display_only_witness :
  faults (backend revealedEnv) = []
  ∧ field (Admin.clearCurrentWinners revealedEnv).2 "currentWinners" = Some (JArr [])
  ∧ field (Admin.handleConfirmDelete revealedEnv).2 "showWinnerDisplay" = Some (JBool false)
  ∧ winnersCol (backend (Admin.handleConfirmDelete revealedEnv).2) = [anaAdmin].
Proof.
  destruct (clearing_is_display_only revealedEnv) as (_ & Hsame & Hreset).
  split; [reflexivity|].
  split; [apply (Hreset eq_refl "currentWinners"), list_elem_of_here|].
  split; [apply (Hreset eq_refl "showWinnerDisplay"), list_elem_of_here|].
  apply Hsame.
Defined.

(** ** Validation at draw start *)

Lemma validateCommon_fails selectedPrize availableParticipants drawCount :
  validationFails selectedPrize availableParticipants drawCount →
  ∃ message, validateCommon selectedPrize availableParticipants drawCount = Invalid message.
Proof.
  unfold validateCommon. intros Hfail.
  destruct selectedPrize as [prize|]; [|eauto].
  destruct (z_remainingQuota prize =? 0)%Z eqn:Hq; [eauto|].
  case_bool_decide as Hlen; [eauto|].
  destruct (drawCount =? 0)%Z eqn:Hc; [eauto|].
  destruct Hfail as [Hf|[(p & Heq & Hp)|[Hf|Hf]]]; subst; try done.
  injection Heq as <-. rewrite Hp in Hq. done.
Qed.

(** C8. A draw start that fails validation (no prize selected, selected
    prize with no remaining quota, empty available pool, or draw count zero)
    is rejected at once: the handler shows one message and returns, leaving
    the shared record, the three collections, the local storage and the
    component state as they were; on the VIP page this is the start branch
    of handleMainButton, on the admin page handleDrawClick. *)
Theorem validation_failure_rejects_before_any_write :
  ∀ (shuffler : Shuffler) (clk : Clock) (h : Hooks),
    (∀ (st : Vip.State) (e : Env Vip.State),
       Vip.isProcessing st = false →
       Vip.drawingPhase st = Vip.Generated →
       validationFails (Vip.selectedPrize h st) (Vip.availableParticipants h)
                       (Vip.drawCount h st) →
       ∃ message, Vip.handleMainButton clk h st e = (Ok false, alerted message e))
    ∧ (∀ (st : Admin.State) (e : Env Admin.State),
         validationFails (Admin.selectedPrize h st) (Admin.availableParticipants h st)
                         (Admin.drawCount h st) →
         ∃ message, Admin.handleDrawClick clk h st e = (Ok tt, alerted message e)).
Proof.
  intros shuffler clk h. split.
  - intros st e Hproc Hphase Hfail.
    apply validateCommon_fails in Hfail as [message Hmsg].
    exists message. unfold Vip.handleMainButton.
    rewrite Hproc, Hphase. unfold Vip.validateDraw. rewrite Hmsg. reflexivity.
  - intros st e Hfail.
    apply validateCommon_fails in Hfail as [message Hmsg].
    unfold Admin.handleDrawClick.
    destruct (Admin.vipControlActive st && negb _); [eexists; reflexivity|].
    unfold Admin.validateDraw.
    destruct (Admin.vipControlActive st && Admin.isActive _); [eexists; reflexivity|].
    rewrite Hmsg. eexists; reflexivity.
Qed.


Lemma validation_failure_rejects_before_any_write_witness :
  (Vip.isProcessing vipReady = false
   ∧ Vip.drawingPhase vipReady = Vip.Generated
   ∧ validationFails (Vip.selectedPrize noPrizeHooks vipReady)
                     (Vip.availableParticipants noPrizeHooks)
                     (Vip.drawCount noPrizeHooks vipReady)
   ∧ ∃ message,
       @Vip.handleMainButton reverseShuffler zeroClock noPrizeHooks vipReady
         (mkEnv emptyWorld ∅ [] vipReady)
       = (Ok false, alerted message (mkEnv emptyWorld ∅ [] vipReady)))
  ∧ (validationFails (Admin.selectedPrize noPrizeHooks adminReady)
                     (Admin.availableParticipants noPrizeHooks adminReady)
                     (Admin.drawCount noPrizeHooks adminReady)
     ∧ ∃ message,
         @Admin.handleDrawClick reverseShuffler zeroClock noPrizeHooks adminReady
           (mkEnv emptyWorld ∅ [] adminReady)
         = (Ok tt, alerted message (mkEnv emptyWorld ∅ [] adminReady))).
Proof.
  assert (Hvip : validationFails (Vip.selectedPrize noPrizeHooks vipReady)
                   (Vip.availableParticipants noPrizeHooks)
                   (Vip.drawCount noPrizeHooks vipReady)) by (left; reflexivity).
  assert (Hadmin : validationFails (Admin.selectedPrize noPrizeHooks adminReady)
                     (Admin.availableParticipants noPrizeHooks adminReady)
                     (Admin.drawCount noPrizeHooks adminReady)) by (left; reflexivity).
  destruct (validation_failure_rejects_before_any_write reverseShuffler zeroClock
              noPrizeHooks) as [Hv Ha].
  split.
  - split; [reflexivity|]. split; [reflexivity|]. split; [exact Hvip|].
    apply (Hv vipReady _ eq_refl eq_refl Hvip).
  - split; [exact Hadmin|]. apply (Ha adminReady _ Hadmin).
Defined.

(** ** The winners fixed at commit *)

Lemma length_sliceTo {A} (l : list A) (e : Z) :
  (0 ≤ e)%Z →
  Z.of_nat (length (sliceTo l e)) = Z.min e (Z.of_nat (length l)).
Proof.
  intros He. unfold sliceTo.
  destruct (e <? 0)%Z eqn:Hneg; [lia|].
  rewrite length_take. lia.
Qed.

Lemma validateCommon_valid selectedPrize availableParticipants drawCount :
  validateCommon selectedPrize availableParticipants drawCount = Valid →
  ∃ prize, selectedPrize = Some prize
           ∧ z_remainingQuota prize ≠ 0%Z
           ∧ length availableParticipants ≠ 0
           ∧ drawCount ≠ 0%Z.
Proof.
  unfold validateCommon. destruct selectedPrize as [prize|]; [|done].
  destruct (z_remainingQuota prize =? 0)%Z eqn:Hq; [done|].
  case_bool_decide as Hlen; [done|].
  destruct (drawCount =? 0)%Z eqn:Hc; [done|].
  intros _. exists prize. repeat split; [lia|done|lia].
Qed.

Lemma drawnFrom_submseteq `{Shuffler} available drawCount :
  drawnFrom available drawCount ⊆+ available.
Proof.
  unfold drawnFrom, sliceTo. etrans; [apply submseteq_take|].
  apply Permutation_submseteq, sortRandom_perm.
Qed.

Lemma submseteq_NoDup {A} (l k : list A) : l ⊆+ k → NoDup k → NoDup l.
Proof.
  induction 1 as [|x l k Hlk IH|x y l|x l k _ IH|l k m _ IH1 _ IH2]; intros Hk.
  - exact Hk.
  - apply NoDup_cons in Hk as [Hx Hk]. apply NoDup_cons. split; [|auto].
    intros Hin. apply Hx. eapply elem_of_submseteq; eauto.
  - by rewrite (Permutation_swap x y l).
  - apply NoDup_cons in Hk as [_ Hk]. auto.
  - auto.
Qed.

Lemma vip_generateWinners_names `{Shuffler} clk h st prize :
  Vip.selectedPrize h st = Some prize →
  length (Vip.availableParticipants h) ≠ 0 →
  map w_name (Vip.generateWinners clk h st).1
  = map p_name (drawnFrom (Vip.availableParticipants h) (Vip.drawCount h st)).
Proof.
  intros Hprize Hlen. unfold Vip.generateWinners. rewrite Hprize.
  rewrite bool_decide_eq_false_2 by done. cbn [fst].
  apply list_eq. intros i.
  rewrite !list_lookup_fmap, list_lookup_imap.
  by destruct (_ !! i).
Qed.

Lemma admin_generateWinners_names `{Shuffler} clk h st prize :
  Admin.selectedPrize h st = Some prize →
  length (Admin.availableParticipants h st) ≠ 0 →
  map w_name (Admin.generateWinners clk h st)
  = map p_name (drawnFrom (Admin.availableParticipants h st) (Admin.drawCount h st)).
Proof.
  intros Hprize Hlen. unfold Admin.generateWinners. rewrite Hprize.
  rewrite bool_decide_eq_false_2 by done.
  apply list_eq. intros i.
  rewrite !list_lookup_fmap, list_lookup_imap.
  by destruct (_ !! i).
Qed.

Lemma wellDrawn_intro `{Shuffler} prize available drawCount winners :
  (0 ≤ z_remainingQuota prize)%Z →
  drawCount = Z.min (z_remainingQuota prize) (Z.of_nat (length available)) →
  map w_name winners = map p_name (drawnFrom available drawCount) →
  wellDrawn (Some prize) available drawCount winners.
Proof.
  intros Hq Hcount Hnames. exists prize. split; [done|]. split; [done|].
  split; [|split].
  - rewrite <- (length_map w_name), Hnames, length_map.
    unfold drawnFrom. rewrite length_sliceTo by lia.
    rewrite (Permutation_length (sortRandom_perm available)). reflexivity.
  - exists (drawnFrom available drawCount). split; [apply drawnFrom_submseteq|done].
  - intros Hnodup. rewrite Hnames.
    eapply submseteq_NoDup; [|exact Hnodup].
    apply (fmap_submseteq p_name), drawnFrom_submseteq.
Qed.

(** C3, as it holds.  For a draw start that passes validation with a
    selected prize whose remaining quota is not negative, on either
    controller: the draw count is min(remainingQuota, pool size), the
    predetermined winner list has length min(drawCount, pool size), its
    winners are distinct entries of the available pool (their names form a
    sub-multiset of the pool's names), and no two winners share a display
    name provided no two available participants do. *)
Theorem committed_winners_length_and_distinct :
  ∀ (shuffler : Shuffler) (clk : Clock) (h : Hooks),
    (∀ st : Vip.State,
       Vip.validateDraw h st = Valid →
       (∀ prize, Vip.selectedPrize h st = Some prize → (0 ≤ z_remainingQuota prize)%Z) →
       wellDrawn (Vip.selectedPrize h st) (Vip.availableParticipants h)
                 (Vip.drawCount h st) (Vip.generateWinners clk h st).1)
    ∧ (∀ st : Admin.State,
         Admin.validateDraw h st = Valid →
         (∀ prize, Admin.selectedPrize h st = Some prize → (0 ≤ z_remainingQuota prize)%Z) →
         wellDrawn (Admin.selectedPrize h st) (Admin.availableParticipants h st)
                   (Admin.drawCount h st) (Admin.generateWinners clk h st)).
Proof.
  intros shuffler clk h. split.
  - intros st Hvalid Hquota.
    apply validateCommon_valid in Hvalid as (prize & Hprize & _ & Hlen & _).
    rewrite Hprize. apply wellDrawn_intro.
    + by apply Hquota.
    + unfold Vip.drawCount. by rewrite Hprize.
    + by apply vip_generateWinners_names with prize.
  - intros st Hvalid Hquota. unfold Admin.validateDraw in Hvalid.
    destruct (Admin.vipControlActive st && _); [done|].
    apply validateCommon_valid in Hvalid as (prize & Hprize & _ & Hlen & _).
    rewrite Hprize. apply wellDrawn_intro.
    + by apply Hquota.
    + unfold Admin.drawCount. by rewrite Hprize.
    + by apply admin_generateWinners_names with prize.
Qed.

Lemma committed_winners_length_and_distinct_witness :
  (Vip.validateDraw poolHooks vipReady = Valid
   ∧ (∀ prize, Vip.selectedPrize poolHooks vipReady = Some prize →
               (0 ≤ z_remainingQuota prize)%Z)
   ∧ wellDrawn
       (Vip.selectedPrize poolHooks vipReady) (Vip.availableParticipants poolHooks)
       (Vip.drawCount poolHooks vipReady)
       (@Vip.generateWinners reverseShuffler zeroClock poolHooks vipReady).1)
  ∧ (Admin.validateDraw poolHooks adminReady = Valid
     ∧ (∀ prize, Admin.selectedPrize poolHooks adminReady = Some prize →
                 (0 ≤ z_remainingQuota prize)%Z)
     ∧ wellDrawn
         (Admin.selectedPrize poolHooks adminReady)
         (Admin.availableParticipants poolHooks adminReady)
         (Admin.drawCount poolHooks adminReady)
         (@Admin.generateWinners reverseShuffler zeroClock poolHooks adminReady)).
Proof.
  assert (Hvip : ∀ prize, Vip.selectedPrize poolHooks vipReady = Some prize →
                          (0 ≤ z_remainingQuota prize)%Z).
  { intros prize Hprize. vm_compute in Hprize. injection Hprize as <-.
    vm_compute. discriminate. }
  assert (Hadmin : ∀ prize, Admin.selectedPrize poolHooks adminReady = Some prize →
                            (0 ≤ z_remainingQuota prize)%Z).
  { intros prize Hprize. vm_compute in Hprize. injection Hprize as <-.
    vm_compute. discriminate. }
  destruct (committed_winners_length_and_distinct reverseShuffler zeroClock poolHooks)
    as [Hv Ha].
  split.
  - split; [reflexivity|]. split; [exact Hvip|]. apply (Hv vipReady eq_refl Hvip).
  - split; [reflexivity|]. split; [exact Hadmin|]. apply (Ha adminReady eq_refl Hadmin).
Defined.

(** C3 as stated fails in two ways: a pool in which two participants carry
    one name yields two winners with that name, on either controller; and a
    selected prize whose remaining quota is negative passes validation and
    yields a list longer than min(drawCount, pool size). *)
Lemma committed_winners_can_share_a_name :
  (Vip.validateDraw sameNameHooks vipReady = Valid
   ∧ map w_name (@Vip.generateWinners reverseShuffler zeroClock sameNameHooks vipReady).1
     = ["Budi"; "Ana"; "Ana"]
   ∧ ¬ NoDup (map w_name
               (@Vip.generateWinners reverseShuffler zeroClock sameNameHooks vipReady).1))
  ∧ (Admin.validateDraw sameNameHooks adminReady = Valid
     ∧ ¬ NoDup (map w_name
                 (@Admin.generateWinners reverseShuffler zeroClock sameNameHooks adminReady)))
  ∧ (Vip.validateDraw negativeQuotaHooks vipReady = Valid
     ∧ length (@Vip.generateWinners reverseShuffler zeroClock negativeQuotaHooks vipReady).1 = 2
     ∧ Z.min (Vip.drawCount negativeQuotaHooks vipReady)
             (Z.of_nat (length (Vip.availableParticipants negativeQuotaHooks))) = (-1)%Z).
Proof.
  assert (Hdup : ¬ NoDup ["Budi"; "Ana"; "Ana"]).
  { intros Hnd. apply NoDup_cons in Hnd as [_ Hnd]. apply NoDup_cons in Hnd as [Hin _].
    apply Hin. left. }
  split; [|split].
  - split; [reflexivity|]. split; [reflexivity|]. exact Hdup.
  - split; [reflexivity|]. exact Hdup.
  - split; [reflexivity|]. split; reflexivity.
Qed.


(** ** The random sort *)

Section DyadicFacts.
Import RandomSort.
#[local] Open Scope Q_scope.

Lemma inject_Z_pow2_add (a b : nat) :
  inject_Z (2 ^ Z.of_nat (a + b)) == inject_Z (2 ^ Z.of_nat a) * inject_Z (2 ^ Z.of_nat b).
Proof. rewrite Nat2Z.inj_add, Z.pow_add_r by lia. by rewrite inject_Z_mult. Qed.

Lemma dyadic_0 : dyadic 0.
Proof. exists 0%Z, 0%nat. reflexivity. Qed.

Lemma dyadic_1 : dyadic 1.
Proof. exists 1%Z, 0%nat. reflexivity. Qed.

Lemma dyadic_plus p q : dyadic p → dyadic q → dyadic (p + q).
Proof.
  intros (k1 & a & Hp) (k2 & b & Hq).
  exists (k1 * 2 ^ Z.of_nat b + k2 * 2 ^ Z.of_nat a)%Z, (a + b)%nat.
  rewrite inject_Z_pow2_add, inject_Z_plus, !inject_Z_mult, <- Hp, <- Hq. ring.
Qed.

Lemma dyadic_mult p q : dyadic p → dyadic q → dyadic (p * q).
Proof.
  intros (k1 & a & Hp) (k2 & b & Hq).
  exists (k1 * k2)%Z, (a + b)%nat.
  rewrite inject_Z_pow2_add, inject_Z_mult, <- Hp, <- Hq. ring.
Qed.

Lemma resolution_pow m : Z.pos (resolution m) = (2 ^ Z.of_nat (S m))%Z.
Proof.
  unfold resolution. rewrite Pos2Z.inj_pow. f_equal; lia.
Qed.

Lemma dyadic_weight m (k : Z) : dyadic (k # resolution m).
Proof.
  exists k, (S m). unfold Qeq, Qmult, inject_Z. cbn [Qnum Qden].
  rewrite <- resolution_pow. rewrite Pos.mul_1_r. lia.
Qed.

Lemma prob_dyadic m run event : dyadic (prob m run event).
Proof.
  induction run as [order|negative IHn zero IHz positive IHp]; cbn [prob].
  - destruct (event order); [apply dyadic_1|apply dyadic_0].
  - repeat apply dyadic_plus; apply dyadic_mult; (apply dyadic_weight || assumption).
Qed.

Lemma pow2_mod3 (n : nat) : (2 ^ Z.of_nat n mod 3 = 1 ∨ 2 ^ Z.of_nat n mod 3 = 2)%Z.
Proof.
  induction n as [|n IH]; [by left|].
  rewrite Nat2Z.inj_succ, Z.pow_succ_r by lia.
  rewrite Z.mul_mod by lia.
  destruct IH as [-> | ->]; [right|left]; reflexivity.
Qed.

Lemma dyadic_not_thirds (q : Q) (d : positive) :
  dyadic q → (Z.pos d mod 3 = 0)%Z → Qeq_bool q (1 # d) = false.
Proof.
  intros (k & n & Hq) Hd. destruct (Qeq_bool q (1 # d)) eqn:Heq; [|done].
  apply Qeq_bool_eq in Heq. rewrite Heq in Hq.
  unfold Qeq, Qmult, inject_Z in Hq. cbn [Qnum Qden] in Hq.
  exfalso. destruct (pow2_mod3 n) as [Hmod|Hmod];
    apply Z.mod_divide in Hd; try lia; destruct Hd as [c Hc];
    rewrite Pos.mul_1_r, Z.mul_1_l, Z.mul_1_r in Hq;
    rewrite Hq, Hc in Hmod;
    rewrite (Z.mul_comm c 3), Z.mul_assoc, (Z.mul_comm k 3), <- Z.mul_assoc in Hmod;
    rewrite Z.mul_comm, Z.mod_mul in Hmod by lia; discriminate.
Qed.

Lemma prob_ext m run (E1 E2 : Shuffler → bool) :
  (∀ order, E1 order = E2 order) → prob m run E1 == prob m run E2.
Proof.
  intros Hext. induction run as [order|negative IHn zero IHz positive IHp]; cbn [prob].
  - by rewrite Hext.
  - by rewrite IHn, IHz, IHp.
Qed.

Lemma weights_sum m : pNegative m + pZero m + pPositive m == 1.
Proof.
  unfold pNegative, pZero, pPositive, Qeq, Qplus. cbn [Qnum Qden].
  rewrite !Pos2Z.inj_mul, resolution_pow.
  rewrite Nat2Z.inj_succ, Z.pow_succ_r by lia.
  generalize (2 ^ Z.of_nat m)%Z. intros x. ring.
Qed.

Lemma prob_true m run : prob m run (fun _ => true) == 1.
Proof.
  induction run as [order|negative IHn zero IHz positive IHp]; cbn [prob]; [reflexivity|].
  rewrite IHn, IHz, IHp, !Qmult_1_r. apply weights_sum.
Qed.

Lemma prob_or m run (E1 E2 : Shuffler → bool) :
  (∀ order, E1 order && E2 order = false) →
  prob m run (fun order => E1 order || E2 order) == prob m run E1 + prob m run E2.
Proof.
  intros Hdisjoint.
  induction run as [order|negative IHn zero IHz positive IHp]; cbn [prob].
  - specialize (Hdisjoint order). destruct (E1 order), (E2 order); try done; reflexivity.
  - rewrite IHn, IHz, IHp. ring.
Qed.

End DyadicFacts.

(** With [onePrizeHooks] both pages draw the participant the sort put first. *)
Lemma one_prize_draw (order : Shuffler) (clk : Clock) :
  ∃ first, first ∈ [ana; budi; citra]
    ∧ map w_name (@Vip.generateWinners order clk onePrizeHooks vipReady).1 = [p_name first]
    ∧ map w_name (@Admin.generateWinners order clk onePrizeHooks adminReady) = [p_name first].
Proof.
  pose proof (sortRandom_perm [ana; budi; citra]) as Hperm.
  destruct (sortRandom [ana; budi; citra]) as [|first rest] eqn:Hsort.
  { apply Permutation_length in Hperm. done. }
  pose proof (Permutation_length Hperm) as Hlen.
  destruct rest as [|second [|third [|? ?]]]; try done.
  exists first. split.
  { rewrite <- Hperm. left. }
  split.
  - rewrite (vip_generateWinners_names clk onePrizeHooks vipReady
               (mkPrize "z1" "Voucher" None 1 1)) by done.
    unfold drawnFrom.
    change (Vip.availableParticipants onePrizeHooks) with [ana; budi; citra].
    change (Vip.drawCount onePrizeHooks vipReady) with 1%Z.
    rewrite Hsort. reflexivity.
  - rewrite (admin_generateWinners_names clk onePrizeHooks adminReady
               (mkPrize "z1" "Voucher" None 1 1)) by done.
    unfold drawnFrom.
    change (Admin.availableParticipants onePrizeHooks adminReady) with [ana; budi; citra].
    change (Admin.drawCount onePrizeHooks adminReady) with 1%Z.
    rewrite Hsort. reflexivity.
Qed.

Lemma one_prize_drawn (order : Shuffler) (clk : Clock) :
  ∃ first, first ∈ ["Ana"; "Budi"; "Citra"]
    ∧ (∀ name, drawn name (@Vip.generateWinners order clk onePrizeHooks vipReady).1
               = bool_decide (name = first))
    ∧ (∀ name, drawn name (@Admin.generateWinners order clk onePrizeHooks adminReady)
               = bool_decide (name = first)).
Proof.
  destruct (one_prize_draw order clk) as (first & Hin & Hvip & Hadmin).
  exists (p_name first). split.
  { repeat (apply elem_of_cons in Hin as [->|Hin]); [by repeat constructor..|by apply elem_of_nil in Hin]. }
  unfold drawn. rewrite Hvip, Hadmin.
  split; intros name; apply bool_decide_ext, list_elem_of_singleton.
Qed.

Section ThreeNames.
Import RandomSort.
#[local] Open Scope Q_scope.

(** One of three exclusive events that cover every order happens. *)
Lemma prob_three m run (E1 E2 E3 : Shuffler → bool) :
  (∀ order, E1 order && E2 order = false) →
  (∀ order, (E1 order || E2 order) && E3 order = false) →
  (∀ order, E1 order || E2 order || E3 order = true) →
  prob m run E1 + prob m run E2 + prob m run E3 == 1.
Proof.
  intros H12 H123 Hall.
  rewrite <- (prob_or m run E1 E2) by done.
  rewrite <- (prob_or m run (fun order => E1 order || E2 order) E3) by done.
  rewrite (prob_ext m run _ (fun _ => true)) by done.
  apply prob_true.
Qed.

End ThreeNames.

(** C4. The draw is not uniform.  Whatever sort algorithm the engine runs
    ([run]) and whatever the resolution of [Math.random()] ([m]): with three
    available participants and a prize to be drawn once, one of Ana, Budi
    and Citra wins on either page, so their three probabilities add up to
    1, and none of the three is 1/3.  More generally no event of the random
    sort has probability 1/3 or 1/6, so the six orders of three participants
    are not equally likely either. *)
Theorem random_sort_draw_is_not_uniform (m : nat) (run : RandomSort.SortRun) (clk : Clock) :
  let vip name := RandomSort.prob m run (fun order =>
      drawn name (@Vip.generateWinners order clk onePrizeHooks vipReady).1) in
  let admin name := RandomSort.prob m run (fun order =>
      drawn name (@Admin.generateWinners order clk onePrizeHooks adminReady)) in
  (vip "Ana" + vip "Budi" + vip "Citra" == 1)%Q
  ∧ (admin "Ana" + admin "Budi" + admin "Citra" == 1)%Q
  ∧ Forall (fun name => Qeq_bool (vip name) (1 # 3) = false
                        ∧ Qeq_bool (admin name) (1 # 3) = false)
           ["Ana"; "Budi"; "Citra"]
  ∧ ∀ event : Shuffler → bool,
      Qeq_bool (RandomSort.prob m run event) (1 # 3) = false
      ∧ Qeq_bool (RandomSort.prob m run event) (1 # 6) = false.
Proof.
  intros vip admin.
  assert (Hthirds : ∀ event (d : positive), (Z.pos d mod 3 = 0)%Z →
            Qeq_bool (RandomSort.prob m run event) (1 # d) = false).
  { intros event d Hd. apply dyadic_not_thirds; [apply prob_dyadic|done]. }
  split; [|split; [|split]].
  - apply prob_three; intros order;
      destruct (one_prize_drawn order clk) as (first & Hin & Hdrawn & _);
      rewrite !Hdrawn;
      repeat (apply elem_of_cons in Hin as [->|Hin]); try by apply elem_of_nil in Hin.
    all: reflexivity.
  - apply prob_three; intros order;
      destruct (one_prize_drawn order clk) as (first & Hin & _ & Hdrawn);
      rewrite !Hdrawn;
      repeat (apply elem_of_cons in Hin as [->|Hin]); try by apply elem_of_nil in Hin.
    all: reflexivity.
  - repeat constructor; by apply Hthirds.
  - intros event. split; by apply Hthirds.
Qed.

(** With an insertion sort and 52 random bits per number, Ana (first in the
    pool) wins the single prize with probability above 3/8, Citra (last)
    with probability below 1/4. *)
Example insertion_sort_draw_is_biased :
  let vip name := RandomSort.prob 51 insertionSort3 (fun order =>
      drawn name (@Vip.generateWinners order zeroClock onePrizeHooks vipReady).1) in
  Qle_bool (3 # 8) (vip "Ana") = true
  ∧ Qle_bool (1 # 3) (vip "Budi") = true
  ∧ Qle_bool (vip "Citra") (1 # 4) = true.
Proof. vm_compute. done. Qed.

(** ** Persisting winners *)

#[export] Instance sameWinners_refl {S} : Reflexive (@sameWinners S).
Proof. by intros e. Qed.
#[export] Instance sameWinners_trans {S} : Transitive (@sameWinners S).
Proof. intros a b c Hab Hbc. unfold sameWinners in *. congruence. Qed.

Lemma leaves_weaken {S A} (R R' : Env S → Env S → Prop) (m : M S A) :
  (∀ e e', R e e' → R' e e') → leaves R m → leaves R' m.
Proof. intros HR Hm e r e' Hrun. eapply HR, Hm, Hrun. Qed.

Lemma sameCollections_sameWinners {S} (e e' : Env S) :
  sameCollections e e' → sameWinners e e'.
Proof. by intros (?&_). Qed.

Section WinnerFrames.
Context {S : Type}.

Lemma updateDrawingState_sameWinners updates :
  leaves (@sameWinners S) (updateDrawingState updates).
Proof.
  eapply leaves_weaken;
    [apply sameCollections_sameWinners | apply updateDrawingState_sameCollections].
Qed.

Lemma setState_sameWinners (f : S → S) : leaves sameWinners (setState f).
Proof. intros e r e' [= <- <-]. done. Qed.

Lemma getItem_sameWinners k : leaves (@sameWinners S) (getItem k).
Proof. intros e r e' [= <- <-]. done. Qed.

Lemma setItem_sameWinners k v : leaves (@sameWinners S) (setItem k v).
Proof. intros e r e' [= <- <-]. done. Qed.

Lemma update_prizeQuota_sameWinners id q :
  leaves (@sameWinners S) (Hook.update_prizeQuota id q).
Proof.
  apply leaves_attempts; [apply _ ..|].
  apply leaves_bind; [apply _| |intros _].
  - eapply leaves_weaken;
      [apply sameCollections_sameWinners | apply transport_sameCollections].
  - intros e r e'. unfold bind, getBackend, setBackend, throw.
    destruct e as [[doc ws ps pp fl] ls al st]; simpl.
    case_bool_decide; intros [= <- <-]; done.
Qed.




End WinnerFrames.

Create HintDb winners discriminated.
#[export] Hint Resolve updateDrawingState_sameWinners setState_sameWinners
  getItem_sameWinners setItem_sameWinners update_prizeQuota_sameWinners : winners.


(** *** The VIP page *)


Lemma vip_save_skips (h : Hooks) (st : Vip.State) (ws : list Winner) (e : Env Vip.State) :
  ws ≠ [] →
  List.filter (Vip.sameSession st) (h_winners h) ≠ [] →
  Vip.saveWinnersToDatabase h st ws e
  = (Ok true, mkEnv (backend e) (localStorage e) (alerts e)
                    (Vip.setProcessingStatus Vip.SSaving (react e))).
Proof.
  intros Hws Hex. unfold Vip.saveWinnersToDatabase.
  rewrite bool_decide_eq_false_2 by (by destruct ws).
  unfold tryCatch, bind, setState. cbn [fst snd].
  rewrite bool_decide_eq_true_2; [reflexivity|].
  destruct (List.filter _ _); [done|simpl; lia].
Qed.


(** *** The admin page *)


Lemma admin_addAll_nil_sameWinners : leaves sameWinners (Admin.addAll []).
Proof. apply leaves_ret. apply _. Qed.

#[export] Hint Resolve admin_addAll_nil_sameWinners : winners.







Lemma sameSession_ext (st st' : Vip.State) :
  Vip.lastDrawSession st = Vip.lastDrawSession st' →
  Vip.sameSession st = Vip.sameSession st'.
Proof. intros Heq. unfold Vip.sameSession. by rewrite Heq. Qed.








(** ** The quota after a finalize that adds nothing *)

(** C2 fails on the VIP page.  When the finalize callback runs for a session
    whose winners are already persisted, [saveWinnersToDatabase] adds no
    record and returns [true], and the callback then calls [updatePrizeQuota]
    with the full length of the winner list: the Winner collection is
    unchanged, yet the remaining quota drops from 2 to 1. *)
Theorem vip_finalize_decrements_quota_without_adding :
  winnersCol (backend (Vip.finalizeAfterSlowdown finalizedHooks vipSpinning
                         (mkEnv finalizedWorld ∅ [] vipSpinning)).2)
  = winnersCol finalizedWorld
  ∧ map z_remainingQuota (prizesCol finalizedWorld) = [2%Z]
  ∧ map z_remainingQuota
      (prizesCol (backend (Vip.finalizeAfterSlowdown finalizedHooks vipSpinning
                             (mkEnv finalizedWorld ∅ [] vipSpinning)).2))
    = [1%Z].
Proof. split; [|split]; vm_compute; reflexivity. Qed.

(** The first finalize of the session on the VIP page: Ana is added and the
    quota goes from 3 to 2. *)
Example vip_first_finalize_decrements_by_added :
  winnersCol (backend (Vip.finalizeAfterSlowdown freshHooks vipSpinning freshEnv).2)
  = [anaVip]
  ∧ map z_remainingQuota
      (prizesCol (backend (Vip.finalizeAfterSlowdown freshHooks vipSpinning freshEnv).2))
    = [2%Z].
Proof. split; vm_compute; reflexivity. Qed.

(** The sibling path: [stopDrawing] of the admin page, called with a winner
    whose name is already persisted, adds nothing and leaves the quota at 2. *)
Example admin_finalize_without_additions_keeps_quota :
  winnersCol (backend (Admin.stopDrawing finalizedHooks adminStopping (Some [anaVip])
                         (mkEnv finalizedWorld ∅ [] adminStopping)).2)
  = [anaVip]
  ∧ map z_remainingQuota
      (prizesCol (backend (Admin.stopDrawing finalizedHooks adminStopping (Some [anaVip])
                             (mkEnv finalizedWorld ∅ [] adminStopping)).2))
    = [2%Z].
Proof. split; vm_compute; reflexivity. Qed.

(** ** Two controllers finalizing one session *)

(** C5 fails.  Both controllers stop the admin's session.  The admin's
    callback persists Ana and takes the quota from 3 to 2.  The VIP's
    callback then persists her again, whatever the shared flags and its local
    storage say and whether it read the collections before or after the
    admin's writes: it consults neither flag, and its only check looks for
    winners tagged with its own [lastDrawSession].  Reading the collections
    after the admin's writes, it also takes the quota from 2 to 1. *)
Theorem both_controllers_persist_the_session :
  ∀ (processed active : bool) (storage : gmap string string),
    winnersCol afterAdmin = [anaAdmin]
    ∧ map z_remainingQuota (prizesCol afterAdmin) = [2%Z]
    ∧ winnersCol (afterBoth raceWorld processed active storage) = [anaAdmin; anaAdmin]
    ∧ winnersCol (afterBoth afterAdmin processed active storage) = [anaAdmin; anaAdmin]
    ∧ map z_remainingQuota (prizesCol (afterBoth afterAdmin processed active storage))
      = [1%Z].
Proof.
  intros processed active storage.
  repeat split; vm_compute; reflexivity.
Qed.


(** ** What the display shows before the slowdown flag *)

Module DisplayFacts.
Import Display DisplayView.


Ltac open_states :=
  repeat match goal with
    | c : Comp |- _ => destruct c as [? ? ? ?]
    | s : State |- _ => destruct s as [? ? ? ? ? ? ? ?]
    | d : DrawingState |- _ => destruct d as [? ? ? ? ? ? ? ? ? ? ? ? ? ?]
    end.

Lemma unrevealed_step (c : Comp) (ev : Event) :
  unrevealed c → quiet ev → unrevealed (step c ev).
Proof.
  intros (Hc & Hs & Hdc & Hds) Hq. unfold unrevealed.
  destruct ev as [ds| | | | | |rnd|r]; cbn [step].
  - open_states. simpl in *. done.
  - open_states. simpl in *. done.
  - unfold effectSync. rewrite Hds. cbn [andb]. open_states. simpl in *. done.
  - unfold effectDraw. open_states. simpl in *.
    repeat (case_match; simpl); done.
  - unfold effectMulti. repeat (case_match; simpl); open_states; simpl in *; done.
  - unfold effectSingle. repeat (case_match; simpl); open_states; simpl in *; done.
  - unfold tickMulti. repeat (case_match; simpl); open_states; simpl in *; done.
  - unfold tickSingle. repeat (case_match; simpl); open_states; simpl in *; done.
Qed.

Lemma alike_step (c1 c2 : Comp) (ev1 ev2 : Event) :
  alike c1 c2 → unrevealed c1 → unrevealed c2 → sameButWinners ev1 ev2 →
  alike (step c1 ev1) (step c2 ev2).
Proof.
  intros (Hc & Hs & Hm & Hsg) (_ & _ & _ & Hd1) (_ & _ & _ & Hd2) Hev.
  unfold alike.
  destruct ev1 as [a| | | | | |rnd|r];
    destruct ev2 as [b| | | | | |rnd'|r']; try discriminate Hev; cbn [step].
  - simpl in Hev. open_states. simpl in *. simplify_eq. done.
  - open_states. simpl in *. simplify_eq. done.
  - unfold effectSync. rewrite Hd1, Hd2. cbn [andb].
    open_states. simpl in *. simplify_eq. done.
  - unfold effectDraw. open_states. simpl in *. simplify_eq.
    repeat (case_match; simpl); done.
  - unfold effectMulti, animating. open_states. simpl in *. simplify_eq.
    repeat (case_match; simpl); done.
  - unfold effectSingle, animating. open_states. simpl in *. simplify_eq.
    repeat (case_match; simpl); done.
  - injection Hev as <-. unfold tickMulti. open_states. simpl in *. simplify_eq.
    repeat (case_match; simpl); done.
  - injection Hev as <-. unfold tickSingle. open_states. simpl in *. simplify_eq.
    repeat (case_match; simpl); done.
Qed.

Lemma quiet_sameButWinners (ev1 ev2 : Event) :
  sameButWinners ev1 ev2 → quiet ev1 → quiet ev2.
Proof.
  destruct ev1, ev2; simpl; try done.
  intros Heq Hq. apply (f_equal ds_shouldStartSlowdown) in Heq. simpl in Heq. congruence.
Qed.

Lemma alike_run (evs1 evs2 : list Event) (c1 c2 : Comp) :
  Forall quiet evs1 → Forall2 sameButWinners evs1 evs2 →
  alike c1 c2 → unrevealed c1 → unrevealed c2 →
  alike (run evs1 c1) (run evs2 c2) ∧ unrevealed (run evs1 c1).
Proof.
  intros Hq Hsame. revert c1 c2 Hq.
  induction Hsame as [|ev1 ev2 evs1 evs2 Hev _ IH]; intros c1 c2 Hq Ha Hu1 Hu2.
  - done.
  - apply Forall_cons in Hq as [Hq1 Hq]. simpl. apply IH; [done|..].
    + by apply alike_step.
    + by apply unrevealed_step.
    + apply unrevealed_step; [done|]. by apply quiet_sameButWinners with ev1.
Qed.

(** Without a reveal the screen does not depend on the hidden winners. *)
Lemma render_hides (v1 v2 : State) :
  showFinalResults v1 = false → hideInState v1 = hideInState v2 →
  render v1 = render v2.
Proof.
  intros Hshow Heq. unfold render, finalName.
  open_states. simpl in *. simplify_eq. reflexivity.
Qed.


Lemma randomName_cosmetic pool snapshot r :
  fromPool pool snapshot → cosmetic pool (randomName snapshot r).
Proof.
  intros Hpool. unfold randomName.
  destruct (snapshot !! r) as [p|] eqn:Hp; [right|by left].
  apply Hpool. by eapply list_elem_of_lookup_2.
Qed.

Lemma cosmeticComp_step pool (c : Comp) (ev : Event) :
  unrevealed c → quiet ev → within pool ev →
  cosmeticComp pool c → cosmeticComp pool (step c ev).
Proof.
  intros (_ & _ & _ & Hslow) Hq Hin (Hcur & Hseen & Hm & Hs).
  destruct Hcur as (Hc1 & Hc2 & Hc3 & Hc4). pose proof Hseen as (Hs1 & Hs2 & Hs3 & Hs4).
  unfold cosmeticComp, cosmeticState.
  destruct ev as [ds| | | | | |rnd|r]; cbn [step].
  - cbn. repeat split; done.
  - cbn. repeat split; done.
  - unfold effectSync. rewrite Hslow. cbn. repeat split; done.
  - unfold effectDraw. repeat (case_match; cbn); repeat split; done.
  - unfold effectMulti.
    repeat (case_match; cbn); repeat split; try done.
    all: try (intros snapshot drawCount [= <- <-]; done).
    all: try (intros snapshot drawCount [=]).
  - unfold effectSingle.
    repeat (case_match; cbn); repeat split; try done.
    all: try (intros snapshot [= <-]; done).
    all: try (intros snapshot [=]).
    all: by left.
  - unfold tickMulti. destruct (multiTimer c) as [[snapshot drawCount]|] eqn:Ht.
    + cbn. repeat split; try done.
      apply Forall_forall. intros name Hname.
      apply list_elem_of_fmap in Hname as (i & -> & _).
      apply randomName_cosmetic. exact (Hm snapshot drawCount eq_refl).
    + repeat split; try done. intros snapshot drawCount Heq. congruence.
  - unfold tickSingle. destruct (singleTimer c) as [snapshot|] eqn:Ht.
    + cbn. repeat split; try done.
      apply randomName_cosmetic. exact (Hs snapshot eq_refl).
    + repeat split; try done. intros snapshot Heq. congruence.
Qed.

Lemma cosmeticComp_run pool (evs : list Event) (c : Comp) :
  Forall quiet evs → Forall (within pool) evs →
  unrevealed c → cosmeticComp pool c →
  cosmeticComp pool (run evs c).
Proof.
  revert c. induction evs as [|ev evs IH]; intros c Hq Hin Hu Hc; [done|].
  apply Forall_cons in Hq as [Hq1 Hq]. apply Forall_cons in Hin as [Hin1 Hin].
  simpl. apply IH; [done|done|by apply unrevealed_step|].
  by apply cosmeticComp_step.
Qed.

Lemma within_participantNames (evs : list Event) :
  Forall (within (participantNames evs)) evs.
Proof.
  apply Forall_forall. intros ev Hev. destruct ev as [ds| | | | | |rnd|r]; try done.
  intros p Hp. unfold participantNames. apply list_elem_of_In, in_flat_map.
  exists (Snapshot ds). split; [by apply list_elem_of_In|].
  apply list_elem_of_In. by apply (list_elem_of_fmap_2 p_name).
Qed.

Lemma firstNonEmpty_cosmetic pool name :
  cosmetic pool name →
  firstNonEmpty name "" = "..." ∨ firstNonEmpty name "" ∈ pool.
Proof.
  intros [->|Hin]; [by left|]. unfold firstNonEmpty.
  destruct (String.eqb name "") eqn:Heq; cbn; [by left|by right].
Qed.

Lemma render_cosmetic pool (v : State) :
  showFinalResults v = false → cosmeticState pool v →
  Forall (cosmeticCell pool) (cells (render v)).
Proof.
  intros Hshow (Hroll & Hsingle & _). unfold render, finalName. rewrite Hshow.
  rewrite orb_false_r, andb_true_r.
  destruct (ds_isDrawing (localState v));
    [|apply Forall_cons_2; [by left|apply Forall_nil_2]].
  destruct (_ =? 1)%Z.
  - cbn [cells]. apply Forall_cons_2; [|apply Forall_nil_2].
    unfold cosmeticCell. destruct (negb (isSpinning v)); [by left|right].
    eexists. split; [done|]. by apply firstNonEmpty_cosmetic.
  - cbn [cells]. apply Forall_concat, Forall_fmap, Forall_forall. intros row _.
    apply Forall_fmap, Forall_forall. intros colIndex _. cbn.
    unfold cosmeticCell. destruct (negb (isSpinning v)); [by left|right].
    eexists. split; [done|]. apply firstNonEmpty_cosmetic.
    destruct (rollingNames v !! _) as [name|] eqn:Hname; [|by left]. cbn.
    eapply Forall_forall; [exact Hroll|]. by eapply list_elem_of_lookup_2.
Qed.

Lemma alike_unrevealed (c1 c2 : Comp) : alike c1 c2 → unrevealed c1 → unrevealed c2.
Proof.
  intros (Hc & Hs & _) (H1 & H2 & H3 & H4). unfold unrevealed.
  open_states. simpl in *. simplify_eq. done.
Qed.

Lemma fromPool_mono pool extra ps : fromPool pool ps → fromPool (pool ++ extra) ps.
Proof. intros Hps p Hp. apply elem_of_app. left. by apply Hps. Qed.

Lemma cosmetic_mono pool extra name : cosmetic pool name → cosmetic (pool ++ extra) name.
Proof. intros [->|Hin]; [by left|right]. apply elem_of_app. by left. Qed.

Lemma cosmeticState_mono pool extra s :
  cosmeticState pool s → cosmeticState (pool ++ extra) s.
Proof.
  intros (Hroll & Hsingle & Hsnap & Hds).
  split; [|split; [|split]]; auto using fromPool_mono, cosmetic_mono.
  eapply Forall_impl; [exact Hroll|]. intros name. apply cosmetic_mono.
Qed.

Lemma cosmeticComp_mono pool extra c :
  cosmeticComp pool c → cosmeticComp (pool ++ extra) c.
Proof.
  intros (Hcur & Hseen & Hm & Hs).
  split; [|split; [|split]]; eauto using cosmeticState_mono, fromPool_mono.
Qed.

Lemma within_mono pool extra ev : within extra ev → within (pool ++ extra) ev.
Proof.
  destruct ev; try done. intros Hps p Hp. apply elem_of_app. right. by apply Hps.
Qed.

Lemma cosmeticComp_initial pool : cosmeticComp pool initial.
Proof.
  assert (Hnone : fromPool pool []) by (intros p Hp; by apply elem_of_nil in Hp).
  assert (Hstate : cosmeticState pool initialState).
  { split; [apply Forall_nil_2|]. split; [by left|]. split; exact Hnone. }
  split; [exact Hstate|]. split; [exact Hstate|]. split; intros; discriminate.
Qed.

End DisplayFacts.


(** Up to the first reveal the display hides the winners.  Take the display
    in any state in which nothing is revealed and no slowdown flag is
    pending (the initial state is one).  As long as no snapshot with
    [shouldStartSlowdown = true] arrives, the display does not switch to its
    final results; every slot on screen shows "Ready", the placeholder, or a
    name that was already on screen or belongs to the participants of a
    snapshot, without the winner badge; and the screen is the same whatever
    [predeterminedWinners] and [finalWinners] the state and the snapshots
    carried.  The statement covers every schedule of renders, effects and
    interval ticks. *)
Theorem display_hides_winners_until_slowdown :
  ∀ (c1 c2 : Display.Comp) (pool : list string) (evs1 evs2 : list Display.Event),
    DisplayView.alike c1 c2 →
    DisplayView.unrevealed c1 →
    DisplayView.cosmeticComp pool c1 →
    Forall DisplayView.quiet evs1 →
    Forall2 DisplayView.sameButWinners evs1 evs2 →
    Display.showFinalResults (Display.seen (Display.run evs1 c1)) = false
    ∧ Display.showFinalResults (Display.cur (Display.run evs1 c1)) = false
    ∧ Forall (DisplayView.cosmeticCell (pool ++ DisplayView.participantNames evs1))
             (DisplayView.cells (Display.screen (Display.run evs1 c1)))
    ∧ Display.screen (Display.run evs1 c1) = Display.screen (Display.run evs2 c2).
Proof.
  intros c1 c2 pool evs1 evs2 Halike Hu1 Hpool Hq Hsame.
  pose proof (DisplayFacts.alike_unrevealed c1 c2 Halike Hu1) as Hu2.
  destruct (DisplayFacts.alike_run evs1 evs2 _ _ Hq Hsame Halike Hu1 Hu2)
    as [(_ & Hseen & _) (Hc & Hs & _)].
  split; [exact Hs|]. split; [exact Hc|]. split.
  - apply DisplayFacts.render_cosmetic; [exact Hs|].
    apply (DisplayFacts.cosmeticComp_run
             (pool ++ DisplayView.participantNames evs1) evs1); [exact Hq| |exact Hu1|].
    + eapply Forall_impl; [apply DisplayFacts.within_participantNames|].
      intros ev. apply DisplayFacts.within_mono.
    + by apply DisplayFacts.cosmeticComp_mono.
  - unfold Display.screen. by apply DisplayFacts.render_hides.
Qed.

Lemma display_hides_winners_until_slowdown_witness :
  DisplayView.alike Display.initial Display.initial
  ∧ DisplayView.unrevealed Display.initial
  ∧ DisplayView.cosmeticComp [] Display.initial
  ∧ Forall DisplayView.quiet (spinOf [citraVip; budiVip])
  ∧ Forall2 DisplayView.sameButWinners (spinOf [citraVip; budiVip]) (spinOf [anaVip; budiVip])
  ∧ Display.screen (Display.run (spinOf [citraVip; budiVip]) Display.initial)
    = Display.screen (Display.run (spinOf [anaVip; budiVip]) Display.initial).
Proof.
  assert (Halike : DisplayView.alike Display.initial Display.initial) by done.
  assert (Hu : DisplayView.unrevealed Display.initial) by done.
  assert (Hq : Forall DisplayView.quiet (spinOf [citraVip; budiVip]))
    by (repeat constructor).
  assert (Hsame : Forall2 DisplayView.sameButWinners
                    (spinOf [citraVip; budiVip]) (spinOf [anaVip; budiVip]))
    by (repeat constructor).
  split; [exact Halike|]. split; [exact Hu|].
  split; [apply DisplayFacts.cosmeticComp_initial|].
  split; [exact Hq|]. split; [exact Hsame|].
  apply (display_hides_winners_until_slowdown _ _ [] _ _ Halike Hu
           (DisplayFacts.cosmeticComp_initial []) Hq Hsame).
Defined.

(** While spinning the two slots show the names picked by the tick. *)
Example display_spinning_screen :
  Display.screen (Display.run (spinOf [citraVip; budiVip]) Display.initial)
  = Display.SlotRows [[Display.Name "Ana" false; Display.Name "Budi" false]].
Proof. reflexivity. Qed.

(** After the snapshot that carries the slowdown flag the slots are frozen
    on the predetermined winners. *)
Example display_reveals_on_slowdown :
  Display.screen
    (Display.run (spinOf [citraVip; budiVip]
                  ++ [Display.Snapshot (committedWith [citraVip; budiVip] true);
                      Display.Render; Display.EffectSync; Display.Render])
                 Display.initial)
  = Display.SlotRows [[Display.Name "Citra" true; Display.Name "Budi" true]].
Proof. reflexivity. Qed.

(** ** What the display shows after a reveal *)

Lemma run_own_fixed (c : Display.Comp) (evs : list Display.Event) :
  (∀ ev, DisplayView.ownEvent ev → Display.step c ev = c) →
  Forall DisplayView.ownEvent evs → Display.run evs c = c.
Proof.
  intros Hfixed Hown. unfold Display.run.
  induction Hown as [|ev evs Hev _ IH]; [done|].
  cbn [foldl]. by rewrite Hfixed.
Qed.

(** C6. The display shows the predetermined winners of a session while its
    slowdown flag is still false.  A display reveals the session for a
    single prize and then receives the commit of the next session, for two
    winners, without having seen the end of the first: every snapshot of the
    new session has [shouldStartSlowdown = false], the display keeps
    [showFinalResults] from the first session, and once it has rendered the
    commit the two slots show the names of the predetermined winners
    [first] and [second] with the winner badge.  Before the commit the
    screen showed the first session's winner, and afterwards no render,
    effect or interval tick changes the display. *)
Theorem display_shows_next_winners_before_slowdown (first second : Winner) :
  let before := Display.run firstSessionRevealed Display.initial in
  let after := Display.run (nextSessionCommitted [first; second]) before in
  ds_shouldStartSlowdown (nextCommit [first; second]) = false
  ∧ ds_shouldStartSlowdown (Display.drawingState (Display.seen after)) = false
  ∧ Display.screen before = Display.SinglePicker (Display.Name "Ana" true)
  ∧ Display.screen after
    = Display.SlotRows
        [[Display.Name (Display.firstNonEmpty "" (w_name first)) true;
          Display.Name (Display.firstNonEmpty "" (w_name second)) true]]
  ∧ ∀ later, Forall DisplayView.ownEvent later →
      Display.run later after = after.
Proof.
  intros before after.
  split; [reflexivity|].
  split; [vm_compute; reflexivity|]. split; [vm_compute; reflexivity|].
  split; [vm_compute; reflexivity|].
  intros later Hown. apply run_own_fixed; [|exact Hown].
  intros [ds| | | | | |rnd|r] Hev; [destruct Hev|vm_compute; reflexivity..].
Qed.

(** With Citra and Budi predetermined, the display names them as winners
    before the session is stopped. *)
Example display_names_next_winners_early :
  Display.screen
    (Display.run (firstSessionRevealed ++ nextSessionCommitted [citraVip; budiVip])
                 Display.initial)
  = Display.SlotRows [[Display.Name "Citra" true; Display.Name "Budi" true]].
Proof. vm_compute. reflexivity. Qed.

(** The same on the admin page when the publish that ends the first
    session is lost: the display has received every snapshot, the last one
    with [shouldStartSlowdown = false], and names the predetermined winners
    of the next session as winners. *)
Example display_names_next_winners_after_lost_publish (first second : Winner) :
  let after := Display.run (adminSessionsWithLostPublish [first; second]) Display.initial in
  ds_shouldStartSlowdown (Display.drawingState (Display.seen after)) = false
  ∧ Display.screen after
    = Display.SlotRows
        [[Display.Name (Display.firstNonEmpty "" (w_name first)) true;
          Display.Name (Display.firstNonEmpty "" (w_name second)) true]].
Proof. intros after. split; vm_compute; reflexivity. Qed.

(** ** Processing a snapshot of the shared record *)

Module ProcessFacts.
Import Process.

Lemma complete_insert k v processedData :
  complete processedData → complete (<[k := v]> processedData).
Proof.
  intros Hc k' Hk'. destruct (decide (k = k')) as [->|Hne].
  - rewrite lookup_insert_eq. eauto.
  - rewrite lookup_insert_ne by done. by apply Hc.
Qed.

Lemma complete_spread (o : Obj) : complete (spread DEFAULT_DRAWING_STATE o).
Proof.
  intros k Hk. unfold spread. rewrite lookup_union.
  destruct (o !! k), Hk as [v ->]; simpl; eauto.
Qed.

Lemma processArray_complete k process fallback data processedData processedData' :
  complete processedData →
  processArray k process fallback data processedData = Some processedData' →
  complete processedData'.
Proof.
  intros Hc. unfold processArray.
  destruct (getProp data k) as [field|]; [|done]. simpl.
  destruct (truthy field); [|by intros [= <-]].
  destruct (isArray field) as [l|]; [|by intros [= <-]].
  destruct (mapFrom _ _ _); intros [= <-]; by apply complete_insert.
Qed.

(** The function is total by construction; its result always carries every
    default field. *)
Lemma processFirebaseData_complete eng data : complete (processFirebaseData eng data).
Proof.
  unfold processFirebaseData.
  destruct (processBody eng data) as [processedData|] eqn:Hbody; [|by intros k].
  unfold processBody in Hbody.
  repeat match type of Hbody with
    | (processArray ?k ?p ?f ?d ?pd ≫= _) = Some _ =>
        let Harr := fresh "Harr" in
        destruct (processArray k p f d pd) as [?|] eqn:Harr; [|done];
        simpl in Hbody; apply processArray_complete in Harr;
        [|first [assumption | apply complete_spread]]
    end.
  destruct (getProp data "lastUpdated") as [lastUpdated|]; [|done]. simpl in Hbody.
  destruct (truthy lastUpdated); injection Hbody as <-; [by apply complete_insert|done].
Qed.

(** When processing fails as a whole the default idle state is returned. *)
Lemma processFirebaseData_of_null eng :
  processFirebaseData eng JNull = DEFAULT_DRAWING_STATE
  ∧ processFirebaseData eng JUndef = DEFAULT_DRAWING_STATE.
Proof. split; reflexivity. Qed.

(** The fallback of a winner dereferences the winner again. *)
Lemma fallbackWinner_of_null eng prefix index :
  fallbackWinner eng prefix index JNull = None
  ∧ guarded (processWinner eng) (fallbackWinner eng prefix) index JNull = None.
Proof. split; reflexivity. Qed.

End ProcessFacts.

(** C10 fails in its middle part.  A [null] entry in [currentWinners] is
    the entry that [processWinner] cannot process; the fallback record is
    built from [winner.name], which throws again for [null], so the
    exception reaches the handler of the whole array: the field becomes the
    empty array, and the well-formed winner next to the [null] is lost with
    it.  (The result still carries every default field, see
    [ProcessFacts.processFirebaseData_complete].) *)
Theorem null_entry_empties_the_winner_list :
  ∀ eng : Process.Engine,
    Process.processFirebaseData eng (JObj {[ "currentWinners" := JArr [JNull] ]})
      !! "currentWinners" = Some (JArr [])
    ∧ Process.processFirebaseData eng (JObj {[ "currentWinners" := JArr [storedAna; JNull] ]})
        !! "currentWinners" = Some (JArr [])
    ∧ Process.processFirebaseData eng (JObj {[ "participants" := JArr [JNull] ]})
        !! "participants" = Some (JArr []).
Proof.
  intros eng. repeat split; vm_compute; reflexivity.
Qed.

(** * Properties of the further parts *)

(** ** The retry loop *)

Lemma attempts_step {S A} (op : M S A) n e :
  RetryManager.attempts (Datatypes.S n) op e =
    match op e with
    | (Ok a, e') => (Ok a, e')
    | (Thrown err, e') =>
        if bool_decide (n = 0) || negb (RetryManager.shouldRetry err)
        then (Thrown err, e') else RetryManager.attempts n op e'
    end.
Proof. simpl. unfold tryCatch. destruct (op e) as [[a|err] e1]; [done|]. by destruct (_ || _). Qed.

(** X1. executeWithRetry runs the operation at most three times. A success
    or an error that is not retryable ends the call at once with that
    outcome; after a retryable error the operation is run again from the
    environment the failed attempt left, and the outcome of the third run is
    final whatever it is. *)
Theorem executeWithRetry_at_most_three_attempts :
  ∀ (S A : Type) (operation : M S A) (e : Env S),
    (∀ a e1, operation e = (Ok a, e1) →
       RetryManager.executeWithRetry operation e = (Ok a, e1))
    ∧ (∀ err e1, operation e = (Thrown err, e1) →
         RetryManager.shouldRetry err = false →
         RetryManager.executeWithRetry operation e = (Thrown err, e1))
    ∧ (∀ err e1, operation e = (Thrown err, e1) →
         RetryManager.shouldRetry err = true →
         (∀ a e2, operation e1 = (Ok a, e2) →
            RetryManager.executeWithRetry operation e = (Ok a, e2))
         ∧ (∀ err' e2, operation e1 = (Thrown err', e2) →
              RetryManager.shouldRetry err' = false →
              RetryManager.executeWithRetry operation e = (Thrown err', e2))
         ∧ (∀ err' e2, operation e1 = (Thrown err', e2) →
              RetryManager.shouldRetry err' = true →
              RetryManager.executeWithRetry operation e = operation e2)).
Proof.
  intros S A op e. unfold RetryManager.executeWithRetry, RetryManager.maxRetries.
  split; [|split].
  - intros a e1 Hop. by rewrite attempts_step, Hop.
  - intros err e1 Hop Hno. by rewrite attempts_step, Hop, Hno, orb_true_r.
  - intros err e1 Hop Hre.
    rewrite attempts_step, Hop, Hre. cbn [negb orb bool_decide decide_rel].
    rewrite bool_decide_eq_false_2 by done. cbn [orb].
    split; [|split].
    + intros a e2 Hop2. by rewrite attempts_step, Hop2.
    + intros err' e2 Hop2 Hno. by rewrite attempts_step, Hop2, Hno, orb_true_r.
    + intros err' e2 Hop2 Hre2.
      rewrite attempts_step, Hop2, Hre2. cbn [negb orb].
      rewrite bool_decide_eq_false_2 by done. cbn [orb].
      rewrite attempts_step. destruct (op e2) as [[a|err3] e3]; [done|].
      rewrite bool_decide_eq_true_2 by done. done.
Qed.

Lemma executeWithRetry_at_most_three_attempts_witness :
  addDoc_winner anaVip (mkEnv flakyWorld ∅ [] tt)
  = (Thrown (FirestoreErr "unavailable"),
     mkEnv (mkWorld None [] [] [] [Some "internal"; None]) ∅ [] tt)
  ∧ RetryManager.shouldRetry (FirestoreErr "unavailable") = true
  ∧ RetryManager.shouldRetry (FirestoreErr "internal") = true
  ∧ winnersCol (backend (Hook.add_winner anaVip (mkEnv flakyWorld ∅ [] tt)).2) = [anaVip].
Proof.
  split; [reflexivity|]. split; [reflexivity|]. split; [reflexivity|].
  destruct (executeWithRetry_at_most_three_attempts _ _ (addDoc_winner anaVip)
              (mkEnv flakyWorld ∅ [] tt)) as (_ & _ & Hretry).
  destruct (Hretry (FirestoreErr "unavailable")
              (mkEnv (mkWorld None [] [] [] [Some "internal"; None]) ∅ [] tt)
              eq_refl eq_refl) as (_ & _ & Hthird).
  unfold Hook.add_winner.
  rewrite (Hthird (FirestoreErr "internal")
             (mkEnv (mkWorld None [] [] [] [None]) ∅ [] tt) eq_refl eq_refl).
  reflexivity.
Defined.

Lemma attemptsTimed_erase {S A} (op : M S A) attempt n e :
  (RetryDelay.attemptsTimed attempt n op e).1 = RetryManager.attempts n op e.
Proof.
  revert attempt e. induction n as [|n IH]; intros attempt e; simpl; [done|].
  unfold tryCatch. destruct (op e) as [[a|err] e1]; [done|].
  destruct (_ || _); [done|].
  specialize (IH (Datatypes.S attempt) e1).
  destruct (RetryDelay.attemptsTimed _ n op e1) as [[r e2] ds]. simpl in *. done.
Qed.

(** X2. The pauses of executeWithRetry.  Whatever the operation does, the
    loop waits at most twice, 1000 ms after the first failed attempt and
    2000 ms after the second, so the cap of 5000 ms is never reached; and
    the waiting does not change the outcome: the result and the environment
    are those of the loop without its pauses. *)
Theorem executeWithRetry_pauses :
  ∀ (S A : Type) (operation : M S A) (e : Env S),
    (RetryDelay.executeWithRetry operation e).1 = RetryManager.executeWithRetry operation e
    ∧ (RetryDelay.executeWithRetry operation e).2 `prefix_of` [1000%Z; 2000%Z].
Proof.
  intros S A op e. split; [apply attemptsTimed_erase|].
  unfold RetryDelay.executeWithRetry, RetryManager.maxRetries. simpl.
  destruct (op e) as [[a|err] e1]; [apply prefix_nil|].
  destruct (negb _); simpl; [apply prefix_nil|].
  destruct (op e1) as [[a|err2] e2]; [by exists [2000%Z]|].
  destruct (negb _); simpl; [by exists [2000%Z]|].
  destruct (op e2) as [[a|err3] e3]; simpl; done.
Qed.

(** ** Publishing and resetting the shared record *)

Lemma prepareObj_spread (a b : Obj) :
  prepareObj (spread a b) = spread (prepareObj a) (prepareObj b).
Proof. unfold prepareObj, spread. apply map_fmap_union. Qed.

Lemma spread_assoc (a b c : Obj) : spread (spread a b) c = spread a (spread b c).
Proof. unfold spread. by rewrite (assoc_L (∪)). Qed.

Lemma published_twice (doc : option Obj) (u1 u2 : Obj) :
  published (Some (published doc u1)) u2 = published doc (spread u1 u2).
Proof.
  destruct doc as [d|]; unfold published, recreatedByHook.
  - rewrite !prepareObj_spread.
    unfold spread. apply map_eq. intros k. rewrite !lookup_union.
    destruct (prepareObj {[ "lastUpdated" := serverTimestamp ]} !! k),
      (prepareObj u2 !! k), (prepareObj u1 !! k), (d !! k); done.
  - rewrite !prepareObj_spread.
    unfold spread. apply map_eq. intros k. rewrite !lookup_union.
    destruct (prepareObj {[ "lastUpdated" := serverTimestamp ]} !! k),
      (prepareObj u2 !! k), (prepareObj u1 !! k),
      (prepareObj DEFAULT_DRAWING_STATE !! k); done.
Qed.

Lemma published_stamp (doc : option Obj) (updates : Obj) :
  published doc updates !! "lastUpdated" = Some stampOfHook.
Proof.
  destruct doc as [d|]; unfold published, recreatedByHook;
    rewrite !prepareObj_spread; unfold spread at 1.
  - apply lookup_union_Some_l. apply lookup_union_Some_l.
    unfold prepareObj. by rewrite map_fmap_singleton, lookup_singleton.
  - apply lookup_union_Some_l.
    unfold prepareObj. by rewrite map_fmap_singleton, lookup_singleton.
Qed.

Lemma published_keeps (d : Obj) (updates : Obj) k :
  k ≠ "lastUpdated" → updates !! k = None →
  published (Some d) updates !! k = d !! k.
Proof.
  intros Hk Hnone. unfold published, spread, prepareObj.
  rewrite lookup_union_r; [done|].
  rewrite lookup_fmap, lookup_union_r by (by apply lookup_singleton_ne).
  by rewrite Hnone.
Qed.

Lemma spread_non_empty_r (a b : Obj) : b ≠ ∅ → spread a b ≠ ∅.
Proof.
  intros Hb Hempty. apply Hb. unfold spread in Hempty.
  by apply map_positive_l in Hempty.
Qed.

(** X3. A publish through the pages' hook with a working transport merges
    the prepared fields of the update into the shared record: updated fields
    take the new value, other fields keep theirs, the collections are
    untouched, and [lastUpdated] receives a plain copy of the
    [serverTimestamp()] sentinel (the sentinel went through
    [prepareForFirestore]).  Two publishes in a row amount to one publish of
    the two updates spread together, the later one winning. *)
Theorem publish_merges_and_composes :
  ∀ (S : Type) (e : Env S) (updates later : Obj),
    updates ≠ ∅ → later ≠ ∅ → faults (backend e) = [] →
    ∃ e1,
      updateDrawingState updates e = (Ok tt, e1)
      ∧ sameCollections e e1
      ∧ (∀ k v, k ≠ "lastUpdated" → updates !! k = Some v →
           field e1 k = Some (prepareForFirestore v))
      ∧ (∀ k d, k ≠ "lastUpdated" → updates !! k = None →
           drawingDoc (backend e) = Some d → field e1 k = d !! k)
      ∧ field e1 "lastUpdated" = Some stampOfHook
      ∧ stampOfHook ≠ serverTimestamp
      ∧ updateDrawingState later e1 = updateDrawingState (spread updates later) e.
Proof.
  intros S e updates later Hne Hlater Hfl.
  exists (withDoc (published (drawingDoc (backend e)) updates) e).
  split; [by apply updateDrawingState_healthy|].
  split; [done|].
  split; [intros k v Hk Hv; by apply published_lookup|].
  split; [intros k d Hk Hnone Hd; unfold field; simpl; rewrite Hd; by apply published_keeps|].
  split; [apply published_stamp|].
  split; [done|].
  rewrite !updateDrawingState_healthy; try done.
  - f_equal. unfold withDoc.
    cbn [backend drawingDoc winnersCol prizesCol participantsCol faults
         localStorage alerts react].
    by rewrite published_twice.
  - by apply spread_non_empty_r.
Qed.

Lemma publish_merges_and_composes_witness :
  ({[ "isDrawing" := JBool true ]} : Obj) ≠ ∅
  ∧ ({[ "shouldStartSpinning" := JBool true ]} : Obj) ≠ ∅
  ∧ faults (backend revealedEnv) = []
  ∧ ∃ e1,
      updateDrawingState {[ "isDrawing" := JBool true ]} revealedEnv = (Ok tt, e1)
      ∧ field e1 "isDrawing" = Some (JBool true)
      ∧ field e1 "lastUpdated" = Some stampOfHook.
Proof.
  assert (H1 : ({[ "isDrawing" := JBool true ]} : Obj) ≠ ∅)
    by apply map_non_empty_singleton.
  assert (H2 : ({[ "shouldStartSpinning" := JBool true ]} : Obj) ≠ ∅)
    by apply map_non_empty_singleton.
  split; [exact H1|]. split; [exact H2|]. split; [reflexivity|].
  destruct (publish_merges_and_composes _ revealedEnv _ _ H1 H2 eq_refl)
    as (e1 & Hrun & _ & Hnew & _ & Hstamp & _).
  exists e1. split; [exact Hrun|]. split; [|exact Hstamp].
  apply (Hnew "isDrawing" (JBool true)); [done|]. apply lookup_singleton_eq.
Defined.

Lemma promiseAll2_frame {S A B} (R : Env S → Env S → Prop)
    `{!Reflexive R, !Transitive R} (p : M S A) (q : M S B) :
  leaves R p → leaves R q → leaves R (DrawingStateHook.promiseAll2 p q).
Proof.
  intros Hp Hq e r e'. unfold DrawingStateHook.promiseAll2.
  destruct (p e) as [[a|err] e1] eqn:Hpe.
  - destruct (q e1) as [[b|err] e2] eqn:Hqe; intros [= <- <-];
      (etrans; [eapply Hp, Hpe | eapply Hq, Hqe]).
  - intros [= <- <-]. etrans; [eapply Hp, Hpe|].
    destruct (q e1) as [rq e2] eqn:Hqe. eapply Hq, Hqe.
Qed.

Lemma resetDrawingState_sameCollections {S} :
  leaves (@sameCollections S) DrawingStateHook.resetDrawingState.
Proof.
  unfold DrawingStateHook.resetDrawingState.
  apply leaves_tryCatch; [apply _| |intros err; apply leaves_throw; apply _].
  apply promiseAll2_frame; [apply _ ..| |].
  - apply setDoc_drawing_sameCollections.
  - apply leaves_bind; [apply _| |intros _]; apply removeItem_sameCollections.
Qed.

Lemma freshRecord_eq : freshRecord = spread DEFAULT_DRAWING_STATE {[ "lastUpdated" := stampOfHook ]}.
Proof.
  unfold freshRecord. rewrite prepareObj_spread, prepareObj_default_hook.
  unfold prepareObj. rewrite map_fmap_singleton. reflexivity.
Qed.

(** X4. resetDrawingState: whatever the transport does, the two VIP keys of
    the local storage are removed and the collections are untouched; a
    failure leaves the shared record as it was; with a working transport the
    record is replaced by the default idle state stamped with [lastUpdated],
    and a publish that follows gives the record a publish to a missing
    record creates. *)
Theorem resetDrawingState_restores_defaults :
  ∀ (S : Type) (e : Env S),
    let r := DrawingStateHook.resetDrawingState e in
    localStorage r.2
    = delete "vipDrawSession" (delete "vipProcessedWinners" (localStorage e))
    ∧ sameCollections e r.2
    ∧ (∀ err, r.1 = Thrown err → drawingDoc (backend r.2) = drawingDoc (backend e))
    ∧ (faults (backend e) = [] →
       r.1 = Ok tt
       ∧ drawingDoc (backend r.2)
         = Some (spread DEFAULT_DRAWING_STATE {[ "lastUpdated" := stampOfHook ]})
       ∧ ∀ updates, updates ≠ ∅ →
           drawingDoc (backend (updateDrawingState updates r.2).2)
           = Some (recreatedByHook updates)).
Proof.
  intros S e r. subst r. split; [|split; [|split]].
  - unfold DrawingStateHook.resetDrawingState, tryCatch, DrawingStateHook.promiseAll2,
      setDoc_drawing, bind, transport, getBackend, setBackend, removeItem, throw, ret.
    destruct e as [[doc ws ps pp fl] ls al st]; simpl.
    destruct fl as [|[c|] fl]; reflexivity.
  - eapply resetDrawingState_sameCollections. apply surjective_pairing.
  - unfold DrawingStateHook.resetDrawingState, tryCatch, DrawingStateHook.promiseAll2,
      setDoc_drawing, bind, transport, getBackend, setBackend, removeItem, throw, ret.
    destruct e as [[doc ws ps pp fl] ls al st]; simpl.
    destruct fl as [|[c|] fl]; simpl; intros err; try discriminate; reflexivity.
  - intros Hfl. rewrite <- freshRecord_eq.
    destruct e as [[doc ws ps pp fl] ls al st]; simpl in Hfl; subst fl.
    assert (Hrun : DrawingStateHook.resetDrawingState
                     (mkEnv (mkWorld doc ws ps pp []) ls al st)
                   = (Ok tt, mkEnv (mkWorld (Some freshRecord) ws ps pp [])
                               (delete "vipDrawSession" (delete "vipProcessedWinners" ls))
                               al st)) by reflexivity.
    rewrite Hrun. cbn [fst snd backend drawingDoc].
    split; [reflexivity|]. split; [reflexivity|].
    intros updates Hne.
    rewrite updateDrawingState_healthy by done.
    cbn [fst snd backend drawingDoc withDoc].
    f_equal. unfold published, recreatedByHook, freshRecord.
    rewrite !prepareObj_spread.
    unfold spread. apply map_eq. intros k. rewrite !lookup_union.
    destruct (prepareObj {[ "lastUpdated" := serverTimestamp ]} !! k),
      (prepareObj updates !! k), (prepareObj DEFAULT_DRAWING_STATE !! k); done.
Qed.

Lemma resetDrawingState_restores_defaults_witness :
  faults (backend revealedEnv) = []
  ∧ (DrawingStateHook.resetDrawingState revealedEnv).1 = Ok tt
  ∧ field (DrawingStateHook.resetDrawingState revealedEnv).2 "isDrawing" = Some (JBool false).
Proof.
  destruct (resetDrawingState_restores_defaults _ revealedEnv) as (_ & _ & _ & Hok).
  destruct (Hok eq_refl) as (Hres & Hdoc & _).
  split; [reflexivity|]. split; [exact Hres|].
  unfold field. rewrite Hdoc. reflexivity.
Defined.

(** ** Reading back what was written *)

Lemma winnerArrays_not_stamp k : k ∈ winnerArrays → k ≠ "lastUpdated".
Proof.
  intros Hin ->. apply list_elem_of_In in Hin. simpl in Hin. intuition discriminate.
Qed.

Lemma convertTimestamp_fromDate eng t :
  Process.convertTimestamp eng (timestampFromDate t) = JDate t.
Proof.
  unfold Process.convertTimestamp, timestampFromDate.
  change (({[ "seconds" := JNum (t / 1000)%Z;
              "nanoseconds" := JNum ((t mod 1000) * 1000000)%Z ]} : Obj) !! "seconds")
    with (Some (JNum (t / 1000)%Z)).
  change (({[ "seconds" := JNum (t / 1000)%Z;
              "nanoseconds" := JNum ((t mod 1000) * 1000000)%Z ]} : Obj) !! "nanoseconds")
    with (Some (JNum ((t mod 1000) * 1000000)%Z)).
  cbv beta iota. f_equal.
  rewrite Z.div_mul by lia. pose proof (Z.div_mod t 1000). lia.
Qed.

Lemma truthy_JStr s : s ≠ "" → truthy (JStr s) = true.
Proof.
  intros Hs. unfold truthy. destruct (String.eqb_spec s ""); [done|reflexivity].
Qed.

Lemma prepareForFirestore_optStr o : prepareForFirestore (optStr o) = optStr o.
Proof. by destruct o. Qed.

Lemma processWinner_prepared eng (w : Winner) :
  namedWinner w →
  Process.processWinner eng (prepareForFirestore (winnerToJs w)) = Some (winnerToJs w).
Proof.
  intros [Hid Hname]. unfold Process.processWinner, winnerToJs.
  cbn [prepareForFirestore Process.getProp list_to_map fst snd mbind option_bind].
  rewrite !list_to_map_cons, list_to_map_nil.
  rewrite !fmap_insert, fmap_empty. cbn [prepareForFirestore].
  rewrite !prepareForFirestore_optStr.
  rewrite lookup_insert_ne, lookup_insert_ne, lookup_insert_eq by done.
  cbn [default mbind option_bind Process.ownEntries id]. rewrite convertTimestamp_fromDate.
  unfold Process.ensure.
  rewrite (insert_insert_ne _ "wonAt" "id"), (insert_insert_ne _ "wonAt" "name") by done.
  rewrite insert_insert_eq.
  rewrite lookup_insert_eq. cbn [default from_option id]. rewrite truthy_JStr by done.
  rewrite lookup_insert_ne, lookup_insert_eq by done.
  cbn [default from_option id]. by rewrite truthy_JStr by done.
Qed.

Lemma processParticipant_prepared eng (p : Participant) :
  namedParticipant p →
  Process.processParticipant eng (prepareForFirestore (participantToJs p))
  = Some (participantToJs p).
Proof.
  intros [Hid Hname]. unfold Process.processParticipant, participantToJs.
  cbn [prepareForFirestore Process.getProp list_to_map fst snd mbind option_bind].
  rewrite !list_to_map_cons, list_to_map_nil.
  rewrite !fmap_insert, fmap_empty. cbn [prepareForFirestore].
  rewrite !prepareForFirestore_optStr.
  rewrite lookup_insert_ne, lookup_insert_ne, lookup_insert_eq by done.
  cbn [default mbind option_bind Process.ownEntries id]. rewrite convertTimestamp_fromDate.
  unfold Process.ensure.
  rewrite (insert_insert_ne _ "addedAt" "id"), (insert_insert_ne _ "addedAt" "name") by done.
  rewrite insert_insert_eq.
  rewrite lookup_insert_eq. cbn [default from_option id]. rewrite truthy_JStr by done.
  rewrite lookup_insert_ne, lookup_insert_eq by done.
  cbn [default from_option id]. by rewrite truthy_JStr by done.
Qed.

Lemma mapFrom_prepared {A} (toJs : A → JsVal) (ok : A → Prop)
    (process : JsVal → Process.Exc JsVal) fallback index (l : list A) :
  (∀ x, ok x → process (prepareForFirestore (toJs x)) = Some (toJs x)) →
  Forall ok l →
  Process.mapFrom (Process.guarded process fallback) index
                  (map prepareForFirestore (map toJs l))
  = Some (map toJs l).
Proof.
  intros Hprocess Hl. revert index.
  induction Hl as [|x l Hx Hl IH]; intros index; [done|].
  cbn [map Process.mapFrom].
  replace (Process.guarded process fallback index (prepareForFirestore (toJs x)))
    with (Some (toJs x)) by (unfold Process.guarded; by rewrite (Hprocess x Hx)).
  cbn [mbind option_bind]. by rewrite IH.
Qed.

Lemma processArray_other k k' process fallback (o processedData processedData' : Obj) :
  k ≠ k' →
  Process.processArray k' process fallback (JObj o) processedData = Some processedData' →
  processedData' !! k = processedData !! k.
Proof.
  intros Hne. unfold Process.processArray. cbn [Process.getProp mbind option_bind].
  destruct (truthy _); [|by intros [= <-]].
  destruct (Process.isArray _) as [l|]; [|by intros [= <-]].
  destruct (Process.mapFrom _ _ _); intros [= <-]; by rewrite lookup_insert_ne.
Qed.

Lemma processArray_returns k process fallback (o processedData : Obj) :
  ∃ processedData',
    Process.processArray k process fallback (JObj o) processedData = Some processedData'.
Proof.
  unfold Process.processArray. cbn [Process.getProp mbind option_bind].
  destruct (truthy _); [|eauto].
  destruct (Process.isArray _) as [l|]; [|eauto].
  destruct (Process.mapFrom _ _ _); eauto.
Qed.

Lemma processArray_prepared {A} (toJs : A → JsVal) (ok : A → Prop) k process fallback
    (o processedData processedData' : Obj) (l : list A) :
  (∀ x, ok x → process (prepareForFirestore (toJs x)) = Some (toJs x)) →
  Forall ok l →
  o !! k = Some (prepareForFirestore (JArr (map toJs l))) →
  Process.processArray k process fallback (JObj o) processedData = Some processedData' →
  processedData' !! k = Some (JArr (map toJs l)).
Proof.
  intros Hprocess Hl Hk. unfold Process.processArray.
  cbn [Process.getProp mbind option_bind]. rewrite Hk.
  change (prepareForFirestore (JArr (map toJs l)))
    with (JArr (map prepareForFirestore (map toJs l))).
  cbn [default from_option id truthy Process.isArray].
  rewrite (mapFrom_prepared toJs ok) by done.
  intros [= <-]. by rewrite lookup_insert_eq.
Qed.

(** What [processFirebaseData] makes of the array field [k] of a document,
    when the field holds the prepared form of records with ids and names. *)
Lemma processFirebaseData_array {A} (toJs : A → JsVal) (ok : A → Prop) eng
    (o : Obj) (k : string) (l : list A) :
  (k ∈ winnerArrays
   ∧ ∀ x, ok x → Process.processWinner eng (prepareForFirestore (toJs x)) = Some (toJs x))
  ∨ (k = "participants"
     ∧ ∀ x, ok x → Process.processParticipant eng (prepareForFirestore (toJs x))
                   = Some (toJs x)) →
  Forall ok l →
  o !! k = Some (prepareForFirestore (JArr (map toJs l))) →
  Process.processFirebaseData eng (JObj o) !! k = Some (JArr (map toJs l)).
Proof.
  intros Hk Hl Ho. unfold Process.processFirebaseData, Process.processBody.
  set (p0 := spread DEFAULT_DRAWING_STATE (Process.ownEntries (JObj o))).
  destruct (processArray_returns "currentWinners" (Process.processWinner eng)
              (Process.fallbackWinner eng "error-winner") o p0) as [p1 H1].
  destruct (processArray_returns "finalWinners" (Process.processWinner eng)
              (Process.fallbackWinner eng "error-final-winner") o p1) as [p2 H2].
  destruct (processArray_returns "predeterminedWinners" (Process.processWinner eng)
              (Process.fallbackWinner eng "error-predetermined-winner") o p2) as [p3 H3].
  destruct (processArray_returns "participants" (Process.processParticipant eng)
              (Process.fallbackParticipant eng) o p3) as [p4 H4].
  rewrite H1. cbn [mbind option_bind]. rewrite H2. cbn [mbind option_bind].
  rewrite H3. cbn [mbind option_bind]. rewrite H4. cbn [mbind option_bind Process.getProp].
  assert (Hp4 : p4 !! k = Some (JArr (map toJs l))).
  { destruct Hk as [[Hin Hprocess]|[-> Hprocess]].
    - unfold winnerArrays in Hin.
      apply elem_of_cons in Hin as [->|Hin]; [|apply elem_of_cons in Hin as [->|Hin];
        [|apply list_elem_of_singleton in Hin as ->]].
      + rewrite (processArray_other "currentWinners" "participants" _ _ _ _ _ ltac:(done) H4).
        rewrite (processArray_other "currentWinners" "predeterminedWinners" _ _ _ _ _ ltac:(done) H3).
        rewrite (processArray_other "currentWinners" "finalWinners" _ _ _ _ _ ltac:(done) H2).
        by apply (processArray_prepared toJs ok _ _ _ _ _ _ _ Hprocess Hl Ho H1).
      + rewrite (processArray_other "finalWinners" "participants" _ _ _ _ _ ltac:(done) H4).
        rewrite (processArray_other "finalWinners" "predeterminedWinners" _ _ _ _ _ ltac:(done) H3).
        by apply (processArray_prepared toJs ok _ _ _ _ _ _ _ Hprocess Hl Ho H2).
      + rewrite (processArray_other "predeterminedWinners" "participants" _ _ _ _ _ ltac:(done) H4).
        by apply (processArray_prepared toJs ok _ _ _ _ _ _ _ Hprocess Hl Ho H3).
    - by apply (processArray_prepared toJs ok _ _ _ _ _ _ _ Hprocess Hl Ho H4). }
  assert (Hk' : k ≠ "lastUpdated").
  { destruct Hk as [[Hin _]|[-> _]]; [by apply winnerArrays_not_stamp|done]. }
  destruct (truthy _); [by rewrite lookup_insert_ne|done].
Qed.

(** X5. Winners and participants survive the way through the shared record.
    When a page publishes a list of winners that have an id and a name in
    one of the three winner fields (or such a list of participants in
    [participants]) and the transport works, what [processFirebaseData]
    makes of the stored record holds the same list in that field: the dates
    that [prepareForFirestore] turned into timestamps come back as the same
    dates, at any value of the clock and of [Math.random()]. *)
Theorem published_lists_are_read_back :
  ∀ (S : Type) (eng : Process.Engine) (e : Env S) (updates : Obj) (k : string),
    faults (backend e) = [] →
    (∀ ws : list Winner,
        k ∈ winnerArrays → Forall namedWinner ws →
        updates !! k = Some (winnersToJs ws) →
        ∃ e1 d,
          updateDrawingState updates e = (Ok tt, e1)
          ∧ drawingDoc (backend e1) = Some d
          ∧ Process.processFirebaseData eng (JObj d) !! k = Some (winnersToJs ws))
    ∧ (∀ ps : list Participant,
        k = "participants" → Forall namedParticipant ps →
        updates !! k = Some (participantsToJs ps) →
        ∃ e1 d,
          updateDrawingState updates e = (Ok tt, e1)
          ∧ drawingDoc (backend e1) = Some d
          ∧ Process.processFirebaseData eng (JObj d) !! k = Some (participantsToJs ps)).
Proof.
  intros S eng e updates k Hfl. split.
  - intros ws Hk Hws Hup.
    assert (Hne : updates ≠ ∅) by (intros ->; by rewrite lookup_empty in Hup).
    exists (withDoc (published (drawingDoc (backend e)) updates) e), (published (drawingDoc (backend e)) updates).
    split; [by apply updateDrawingState_healthy|]. split; [done|].
    apply (processFirebaseData_array winnerToJs namedWinner).
    + left. split; [done|]. apply processWinner_prepared.
    + done.
    + apply published_lookup; [by apply winnerArrays_not_stamp|done].
  - intros ps -> Hps Hup.
    assert (Hne : updates ≠ ∅) by (intros ->; by rewrite lookup_empty in Hup).
    exists (withDoc (published (drawingDoc (backend e)) updates) e), (published (drawingDoc (backend e)) updates).
    split; [by apply updateDrawingState_healthy|]. split; [done|].
    apply (processFirebaseData_array participantToJs namedParticipant).
    + right. split; [done|]. apply processParticipant_prepared.
    + done.
    + by apply published_lookup.
Qed.

Lemma published_lists_are_read_back_witness :
  faults (backend revealedEnv) = []
  ∧ "currentWinners" ∈ winnerArrays
  ∧ Forall namedWinner [anaVip; budiVip]
  ∧ ∃ e1 d,
      updateDrawingState {[ "currentWinners" := winnersToJs [anaVip; budiVip] ]} revealedEnv
      = (Ok tt, e1)
      ∧ drawingDoc (backend e1) = Some d
      ∧ Process.processFirebaseData fixedEngine (JObj d) !! "currentWinners"
        = Some (winnersToJs [anaVip; budiVip]).
Proof.
  assert (Hk : "currentWinners" ∈ winnerArrays) by (by left).
  assert (Hws : Forall namedWinner [anaVip; budiVip]).
  { repeat constructor; discriminate. }
  split; [reflexivity|]. split; [exact Hk|]. split; [exact Hws|].
  destruct (published_lists_are_read_back _ fixedEngine revealedEnv
              {[ "currentWinners" := winnersToJs [anaVip; budiVip] ]}
              "currentWinners" eq_refl) as [Hwinners _].
  apply (Hwinners [anaVip; budiVip] Hk Hws). apply lookup_singleton_eq.
Defined.

Lemma toDate_fromDate (t : Z) :
  PerformanceOptimizer.toDate (t / 1000) (t `mod` 1000 * 1000000) = t.
Proof.
  unfold PerformanceOptimizer.toDate.
  replace (t / 1000 * 1000000000 + t `mod` 1000 * 1000000)%Z with (t * 1000000)%Z.
  - apply Z.quot_mul. lia.
  - pose proof (Z.div_mod t 1000). lia.
Qed.

Lemma deepProcessTimestamps_timestamp (s ns : Z) :
  PerformanceOptimizer.deepProcessTimestamps
    (JInst "Timestamp" {[ "seconds" := JNum s; "nanoseconds" := JNum ns ]})
  = JDate (PerformanceOptimizer.toDate s ns).
Proof.
  cbn [PerformanceOptimizer.deepProcessTimestamps].
  rewrite lookup_insert_eq, lookup_insert_ne, lookup_singleton_eq by done.
  reflexivity.
Qed.

Lemma deepProcessTimestamps_prepared (data : JsVal) :
  Plain data →
  PerformanceOptimizer.deepProcessTimestamps (prepareForFirestore data) = data.
Proof.
  intros Hplain. induction Hplain using Plain_induction; try reflexivity.
  - cbn [prepareForFirestore]. unfold timestampFromDate.
    by rewrite deepProcessTimestamps_timestamp, toDate_fromDate.
  - simpl. f_equal. rewrite map_map.
    induction H as [|x l Hx Hl IH]; [done|]. simpl. by rewrite Hx, IH.
  - simpl. f_equal. rewrite <- map_fmap_compose.
    rewrite <- (map_fmap_id o) at 2. apply map_fmap_ext. intros k x Hk. exact (H k x Hk).
Qed.

(** X6. What the collection hooks write they read back.  For data made of
    primitives, dates, arrays and object literals, processFirestoreData
    applied to what prepareForFirestore made of the data returns the data
    again when the data is a date, an array or an object: a date written as
    a timestamp comes back as the same date, at any depth.  For a primitive
    value the call throws, because the result cannot be stored in the cache
    under a key that is not an object. *)
Theorem processFirestoreData_undoes_prepareForFirestore :
  ∀ data : JsVal,
    Plain data →
    PerformanceOptimizer.processFirestoreData (prepareForFirestore data)
    = if PerformanceOptimizer.isObject data then Some data else None.
Proof.
  intros data Hplain. unfold PerformanceOptimizer.processFirestoreData.
  rewrite deepProcessTimestamps_prepared by done.
  by destruct Hplain.
Qed.

Lemma processFirestoreData_undoes_prepareForFirestore_witness :
  Plain (JObj {[ "wonAt" := JDate 1500 ]})
  ∧ PerformanceOptimizer.processFirestoreData
      (prepareForFirestore (JObj {[ "wonAt" := JDate 1500 ]}))
    = Some (JObj {[ "wonAt" := JDate 1500 ]}).
Proof.
  assert (H : Plain (JObj {[ "wonAt" := JDate 1500 ]})).
  { apply plain_obj, map_Forall_singleton. constructor. }
  split; [exact H|].
  exact (processFirestoreData_undoes_prepareForFirestore _ H).
Defined.

(** ** Removing participants *)

Lemma batchesOf_concat (n batchSize : nat) (ids : list string) :
  (0 < batchSize)%nat → (length ids ≤ n)%nat →
  concat (Hook.batchesOf n batchSize ids) = ids.
Proof.
  intros Hsize. revert ids.
  induction n as [|n IH]; intros ids Hlen; simpl.
  - destruct ids; [done|simpl in Hlen; lia].
  - destruct ids as [|i ids]; [done|].
    simpl concat. rewrite IH; [apply take_drop|].
    rewrite length_drop. simpl in *. lia.
Qed.

Lemma batchesOf_bounded (n batchSize : nat) (ids : list string) :
  (0 < batchSize)%nat →
  Forall (fun batchIds => (0 < length batchIds ≤ batchSize)%nat) (Hook.batchesOf n batchSize ids).
Proof.
  intros Hsize. revert ids.
  induction n as [|n IH]; intros ids; simpl; [constructor|].
  destruct ids as [|i ids]; [constructor|].
  constructor; [|apply IH].
  rewrite length_take. simpl. lia.
Qed.

Lemma filter_filter_not_in (l : list Participant) (a b : list string) :
  filter (fun p => p_id p ∉ b) (filter (fun p => p_id p ∉ a) l)
  = filter (fun p => p_id p ∉ (a ++ b)%list) l.
Proof.
  induction l as [|p l IH]; [done|].
  rewrite (filter_cons (fun p => p_id p ∉ a)), (filter_cons (fun p => p_id p ∉ (a ++ b)%list)).
  destruct (decide (p_id p ∉ a)) as [Ha|Ha].
  - rewrite filter_cons.
    destruct (decide (p_id p ∉ b)) as [Hb|Hb].
    + rewrite decide_True by (rewrite elem_of_app; tauto). by rewrite IH.
    + rewrite decide_False by (rewrite elem_of_app; tauto). done.
  - rewrite decide_False by (rewrite elem_of_app; tauto). done.
Qed.

Lemma filter_not_in_nil (l : list Participant) :
  filter (fun p => p_id p ∉ []) l = l.
Proof.
  induction l as [|p l IH]; [done|].
  rewrite filter_cons, decide_True by apply not_elem_of_nil. by rewrite IH.
Qed.

#[export] Instance onlyRemoves_refl {S} ids : Reflexive (@onlyRemoves S ids).
Proof.
  intros e. repeat split. exists []. split; [apply list_subseteq_nil|].
  by rewrite filter_not_in_nil.
Qed.

#[export] Instance onlyRemoves_trans {S} ids : Transitive (@onlyRemoves S ids).
Proof.
  intros a b c (Hd1 & Hw1 & Hp1 & r1 & Hr1 & Hpp1) (Hd2 & Hw2 & Hp2 & r2 & Hr2 & Hpp2).
  split; [congruence|]. split; [congruence|]. split; [congruence|].
  exists (r1 ++ r2)%list. split.
  - intros x [Hx|Hx]%elem_of_app; auto.
  - by rewrite Hpp2, Hpp1, filter_filter_not_in.
Qed.

Lemma transport_onlyRemoves {S} ids : leaves (@onlyRemoves S ids) transport.
Proof.
  intros e r e'. unfold transport, bind, getBackend, setBackend, throw, ret.
  destruct e as [[doc ws ps pp fl] ls al st]; simpl.
  destruct fl as [|[c|] fl]; intros [= <- <-]; split; try done;
    repeat split; exists []; (split; [apply list_subseteq_nil|]);
    simpl; by rewrite filter_not_in_nil.
Qed.

Lemma commitDeleteBatch_onlyRemoves {S} ids batchIds :
  batchIds ⊆ ids → leaves (@onlyRemoves S ids) (commitDeleteBatch batchIds).
Proof.
  intros Hsub. unfold commitDeleteBatch.
  apply leaves_bind; [apply _|apply transport_onlyRemoves|intros _].
  intros e r e'. unfold bind, getBackend, setBackend.
  intros [= <- <-]. repeat split. exists batchIds. split; [done|]. reflexivity.
Qed.

Lemma commitAll_onlyRemoves {S} ids batches :
  Forall (fun batchIds => batchIds ⊆ ids) batches →
  leaves (@onlyRemoves S ids) (Hook.commitAll batches).
Proof.
  induction 1 as [|b batches Hb Hrest IH]; simpl.
  - apply leaves_ret. apply _.
  - intros e r e'.
    destruct (commitDeleteBatch b e) as [[[]|err] e1] eqn:Hone.
    + intros Hrun. etrans; [eapply commitDeleteBatch_onlyRemoves; eauto|].
      eapply IH, Hrun.
    + intros [= <- <-]. etrans; [eapply commitDeleteBatch_onlyRemoves; eauto|].
      destruct (Hook.commitAll batches e1) as [r1 e2] eqn:Hall. eapply IH, Hall.
Qed.

Lemma batchesOf_subseteq n batchSize (ids : list string) :
  Forall (fun batchIds => batchIds ⊆ ids) (Hook.batchesOf n batchSize ids).
Proof.
  assert (Hgen : ∀ l, l ⊆ ids →
            Forall (fun batchIds => batchIds ⊆ ids) (Hook.batchesOf n batchSize l)).
  { induction n as [|n IH]; intros l Hl; simpl; [constructor|].
    destruct l as [|i l]; [constructor|]. constructor.
    - intros x Hx. apply Hl. by apply (subseteq_take batchSize).
    - apply IH. intros x Hx. apply Hl. by apply (subseteq_drop batchSize). }
  by apply Hgen.
Qed.

Lemma removeMultiple_onlyRemoves {S} ids :
  leaves (@onlyRemoves S ids) (Hook.removeMultiple_participants ids).
Proof.
  unfold Hook.removeMultiple_participants. destruct ids as [|i ids].
  - apply leaves_ret. apply _.
  - apply leaves_attempts; [apply _ ..|].
    apply commitAll_onlyRemoves, batchesOf_subseteq.
Qed.

Lemma commitAll_healthy {S} batches (e : Env S) :
  faults (backend e) = [] →
  Hook.commitAll batches e
  = (Ok tt, mkEnv (mkWorld (drawingDoc (backend e)) (winnersCol (backend e))
                           (prizesCol (backend e))
                           (filter (fun p => p_id p ∉ concat batches)
                                   (participantsCol (backend e))) [])
                  (localStorage e) (alerts e) (react e)).
Proof.
  revert e. induction batches as [|b batches IH]; intros e Hfl.
  - destruct e as [[doc ws ps pp fl] ls al st]; simpl in *. subst fl.
    unfold ret. by rewrite filter_not_in_nil.
  - destruct e as [[doc ws ps pp fl] ls al st]; simpl in Hfl; subst fl.
    cbn [Hook.commitAll].
    assert (Hone : commitDeleteBatch b (mkEnv (mkWorld doc ws ps pp []) ls al st)
              = (Ok tt, mkEnv (mkWorld doc ws ps (filter (fun p => p_id p ∉ b) pp) [])
                          ls al st)) by reflexivity.
    rewrite Hone, IH by done. simpl. by rewrite filter_filter_not_in.
Qed.

Lemma removeMultiple_healthy {S} ids (e : Env S) :
  faults (backend e) = [] →
  Hook.removeMultiple_participants ids e
  = (Ok tt, mkEnv (mkWorld (drawingDoc (backend e)) (winnersCol (backend e))
                           (prizesCol (backend e))
                           (filter (fun p => p_id p ∉ ids) (participantsCol (backend e))) [])
                  (localStorage e) (alerts e) (react e)).
Proof.
  intros Hfl. unfold Hook.removeMultiple_participants. destruct ids as [|i ids].
  - destruct e as [[doc ws ps pp fl] ls al st]; simpl in *. subst fl.
    unfold ret. by rewrite filter_not_in_nil.
  - unfold RetryManager.executeWithRetry, RetryManager.maxRetries.
    erewrite attempts_first_ok; [|by apply commitAll_healthy].
    rewrite batchesOf_concat by lia. done.
Qed.

(** X7. removeMultiple: the batches are the ids in order, cut into pieces of
    at most 500; whatever the transport does, the call changes nothing but
    the participants collection, where it only deletes participants whose id
    was given; with a working transport it deletes all of them. *)
Theorem removeMultiple_deletes_the_given_ids :
  ∀ (S : Type) (ids : list string) (e : Env S),
    concat (Hook.batchesOf (length ids) 500 ids) = ids
    ∧ Forall (fun batchIds => (0 < length batchIds ≤ 500)%nat)
             (Hook.batchesOf (length ids) 500 ids)
    ∧ onlyRemoves ids e (Hook.removeMultiple_participants ids e).2
    ∧ (faults (backend e) = [] →
       (Hook.removeMultiple_participants ids e).1 = Ok tt
       ∧ participantsCol (backend (Hook.removeMultiple_participants ids e).2)
         = filter (fun p => p_id p ∉ ids) (participantsCol (backend e))).
Proof.
  intros S ids e. split; [apply batchesOf_concat; lia|].
  split; [apply batchesOf_bounded; lia|].
  split; [eapply removeMultiple_onlyRemoves; apply surjective_pairing|].
  intros Hfl. by rewrite removeMultiple_healthy.
Qed.

Lemma removeMultiple_deletes_the_given_ids_witness :
  faults (backend revealedEnv) = []
  ∧ (Hook.removeMultiple_participants ["p1"] revealedEnv).1 = Ok tt
  ∧ participantsCol (backend (Hook.removeMultiple_participants ["p1"] revealedEnv).2)
    = filter (fun p => p_id p ∉ ["p1"]) (participantsCol (backend revealedEnv)).
Proof.
  split; [reflexivity|].
  destruct (removeMultiple_deletes_the_given_ids _ ["p1"] revealedEnv) as (_ & _ & _ & Hok).
  exact (Hok eq_refl).
Defined.

Lemma filter_all_removed (l : list Participant) (ids : list string) :
  (∀ p, p ∈ l → p_id p ∈ ids) → filter (fun p => p_id p ∉ ids) l = [].
Proof.
  intros Hall. induction l as [|p l IH]; [done|].
  rewrite filter_cons, decide_False.
  - apply IH. intros q Hq. apply Hall. by right.
  - intros Hno. apply Hno, Hall. by left.
Qed.

Lemma clear_participants_onlyRemoves {S} (data : list Participant) :
  leaves (@onlyRemoves S (map p_id data)) (Collection.clear_participants data).
Proof.
  unfold Collection.clear_participants. case_bool_decide.
  - apply leaves_ret. apply _.
  - apply removeMultiple_onlyRemoves.
Qed.

Lemma clear_participants_healthy {S} (data : list Participant) (e : Env S) :
  faults (backend e) = [] →
  participantsCol (backend (Collection.clear_participants data e).2)
  = filter (fun p => p_id p ∉ map p_id data) (participantsCol (backend e)).
Proof.
  intros Hfl. unfold Collection.clear_participants. case_bool_decide as Hlen.
  - destruct data; [|done]. simpl. by rewrite filter_not_in_nil.
  - by rewrite removeMultiple_healthy.
Qed.

(** X8. clearAllParticipants: declined, it does nothing; confirmed, it
    changes nothing but the participants collection, from which it deletes,
    with a working transport, exactly the participants the page had in its
    list: the collection is empty afterwards when the page had seen all of
    them, and a participant the page had not seen stays. *)
Theorem clearAllParticipants_deletes_what_the_page_lists :
  ∀ (h : Hooks) (e : Env Admin.State),
    AdminPage.clearAllParticipants h false e = (Ok tt, e)
    ∧ onlyRemoves (map p_id (h_participants h)) e
                  (AdminPage.clearAllParticipants h true e).2
    ∧ (faults (backend e) = [] →
       participantsCol (backend (AdminPage.clearAllParticipants h true e).2)
       = filter (fun p => p_id p ∉ map p_id (h_participants h))
                (participantsCol (backend e))
       ∧ (participantsCol (backend e) ⊆ h_participants h →
          participantsCol (backend (AdminPage.clearAllParticipants h true e).2) = [])).
Proof.
  intros h e. split; [reflexivity|]. split.
  - unfold AdminPage.clearAllParticipants.
    eapply (leaves_fire _ _ (clear_participants_onlyRemoves (h_participants h))).
    apply surjective_pairing.
  - intros Hfl.
    assert (Hafter : participantsCol (backend (AdminPage.clearAllParticipants h true e).2)
              = filter (fun p => p_id p ∉ map p_id (h_participants h))
                       (participantsCol (backend e))).
    { unfold AdminPage.clearAllParticipants, fire. cbn [snd].
      by apply clear_participants_healthy. }
    split; [exact Hafter|].
    intros Hseen. rewrite Hafter. apply filter_all_removed.
    intros p Hp. apply list_elem_of_fmap. exists p. split; [done|]. by apply Hseen.
Qed.

Lemma clearAllParticipants_deletes_what_the_page_lists_witness :
  faults (backend revealedEnv) = []
  ∧ participantsCol (backend revealedEnv) ⊆ h_participants poolHooks
  ∧ participantsCol (backend (AdminPage.clearAllParticipants poolHooks true revealedEnv).2) = [].
Proof.
  assert (Hseen : participantsCol (backend revealedEnv) ⊆ h_participants poolHooks).
  { intros p Hp. vm_compute in Hp. vm_compute.
    repeat (apply elem_of_cons in Hp as [->|Hp]; [set_solver|]).
    by apply elem_of_nil in Hp. }
  split; [reflexivity|]. split; [exact Hseen|].
  destruct (clearAllParticipants_deletes_what_the_page_lists poolHooks revealedEnv)
    as (_ & _ & Hok).
  destruct (Hok eq_refl) as [_ Hall]. exact (Hall Hseen).
Defined.

Lemma winnerParticipantIds_spec h st winners i :
  i ∈ winnerParticipantIds h st winners →
  ∃ p, p ∈ Admin.availableParticipants h st ∧ p_id p = i
       ∧ p_name p ∈ map w_name winners.
Proof.
  unfold winnerParticipantIds. intros (w & Hw & Hi)%list_elem_of_omap.
  destruct (find _ _) as [p|] eqn:Hfind; [|done].
  case_bool_decide; [done|]. injection Hi as <-.
  apply List.find_some in Hfind as [Hin Hname].
  apply bool_decide_eq_true in Hname.
  exists p. split; [by apply list_elem_of_In|]. split; [done|].
  rewrite Hname. apply list_elem_of_fmap. by exists w.
Qed.

Lemma setState_onlyRemoves {S} ids (f : S → S) : leaves (onlyRemoves ids) (setState f).
Proof.
  intros e r e' [= <- <-]. repeat split. exists []. split; [apply list_subseteq_nil|].
  simpl. by rewrite filter_not_in_nil.
Qed.

Lemma processWinnerRemoval_onlyRemoves h st winners :
  leaves (onlyRemoves (winnerParticipantIds h st winners))
         (Admin.processWinnerRemoval h st winners).
Proof.
  unfold Admin.processWinnerRemoval. fold (winnerParticipantIds h st winners).
  case_bool_decide; [apply leaves_ret; apply _|].
  case_bool_decide; [apply leaves_ret; apply _|].
  apply leaves_bind; [apply _|apply setState_onlyRemoves|intros _].
  apply leaves_bind; [apply _| |intros _].
  { apply leaves_fire, removeMultiple_onlyRemoves. }
  apply setState_onlyRemoves.
Qed.

Lemma NoDup_fmap_inj_on {A B} (f : A → B) (l : list A) (x y : A) :
  NoDup (f <$> l) → x ∈ l → y ∈ l → f x = f y → x = y.
Proof.
  induction l as [|a l IH]; intros Hnd Hx Hy Hxy; [by apply elem_of_nil in Hx|].
  rewrite fmap_cons in Hnd. apply NoDup_cons in Hnd as [Hnot Hnd].
  apply elem_of_cons in Hx as [->|Hx]; apply elem_of_cons in Hy as [->|Hy].
  - done.
  - exfalso. apply Hnot. rewrite Hxy. by apply list_elem_of_fmap_2.
  - exfalso. apply Hnot. rewrite <- Hxy. by apply list_elem_of_fmap_2.
  - by apply IH.
Qed.

(** X9. processWinnerRemoval changes nothing but the participants
    collection.  When the stored participants have pairwise distinct ids
    and the page lists only stored participants, every participant it
    deletes is an available participant who carries the name of one of the
    winners; with a working transport, the first available participant
    with a winner's name is deleted. *)
Theorem processWinnerRemoval_deletes_only_winners :
  ∀ (h : Hooks) (st : Admin.State) (winners : list Winner) (e : Env Admin.State),
    let e' := (Admin.processWinnerRemoval h st winners e).2 in
    drawingDoc (backend e') = drawingDoc (backend e)
    ∧ winnersCol (backend e') = winnersCol (backend e)
    ∧ prizesCol (backend e') = prizesCol (backend e)
    ∧ participantsCol (backend e') `sublist_of` participantsCol (backend e)
    ∧ (NoDup (map p_id (participantsCol (backend e))) →
       h_participants h ⊆ participantsCol (backend e) →
       ∀ p, p ∈ participantsCol (backend e) → p ∉ participantsCol (backend e') →
            p ∈ Admin.availableParticipants h st ∧ p_name p ∈ map w_name winners)
    ∧ (faults (backend e) = [] →
       ∀ winner p, winner ∈ winners →
         find (fun p => bool_decide (p_name p = w_name winner))
              (Admin.availableParticipants h st) = Some p →
         p_id p ≠ "" →
         p ∉ participantsCol (backend e')).
Proof.
  intros h st winners e e'. subst e'.
  destruct (Admin.processWinnerRemoval h st winners e) as [r e'] eqn:Hrun.
  pose proof (processWinnerRemoval_onlyRemoves h st winners e r e' Hrun)
    as (Hdoc & Hws & Hps & removed & Hsub & Hpp).
  cbn [snd]. split; [done|]. split; [done|]. split; [done|].
  split; [rewrite Hpp; apply sublist_filter|]. split.
  - intros Hnd Hview p Hp Hgone.
    assert (Hid : p_id p ∈ removed).
    { destruct (decide (p_id p ∈ removed)) as [|Hno]; [done|].
      exfalso. apply Hgone. rewrite Hpp. apply list_elem_of_filter. done. }
    apply Hsub, winnerParticipantIds_spec in Hid as (q & Hq & Hqid & Hqname).
    assert (q = p) as ->; [|done].
    eapply (NoDup_fmap_inj_on p_id); [exact Hnd| |exact Hp|exact Hqid].
    apply Hview. unfold Admin.availableParticipants, availableParticipantsOf in Hq.
    by apply list_elem_of_filter in Hq as [_ Hq].
  - intros Hfl winner p Hw Hfind Hpid.
    assert (Hin : p_id p ∈ winnerParticipantIds h st winners).
    { unfold winnerParticipantIds. apply list_elem_of_omap. exists winner.
      split; [done|]. rewrite Hfind. by rewrite bool_decide_eq_false_2. }
    revert Hrun. unfold Admin.processWinnerRemoval.
    fold (winnerParticipantIds h st winners).
    rewrite bool_decide_eq_false_2 by (intros Hlen; destruct winners; [by apply elem_of_nil in Hw|done]).
    rewrite bool_decide_eq_false_2
      by (intros Hlen; destruct (winnerParticipantIds h st winners); [by apply elem_of_nil in Hin|done]).
    unfold bind, setState, fire. cbn [fst snd].
    rewrite removeMultiple_healthy by done. cbn [snd].
    intros [= _ <-]. cbn [backend participantsCol].
    intros Hstill. apply list_elem_of_filter in Hstill as [Hno _]. by apply Hno.
Qed.

(** ** The admin page at the end of a draw *)

Lemma withQuota_absent id q prizes :
  id ∉ map z_id prizes → withQuota id q prizes = prizes.
Proof.
  unfold withQuota. induction prizes as [|p prizes IH]; intros Hno; [done|].
  simpl. rewrite bool_decide_eq_false_2.
  - f_equal. apply IH. intros Hin. apply Hno. by right.
  - intros Heq. apply Hno. rewrite <- Heq. by left.
Qed.

Lemma update_prizeQuota_healthy {S} id q (e : Env S) :
  faults (backend e) = [] →
  (fire (Hook.update_prizeQuota id q) e).2
  = mkEnv (mkWorld (drawingDoc (backend e)) (winnersCol (backend e))
                   (withQuota id q (prizesCol (backend e)))
                   (participantsCol (backend e)) [])
          (localStorage e) (alerts e) (react e).
Proof.
  intros Hfl. destruct e as [[doc ws ps pp fl] ls al st]; simpl in Hfl; subst fl.
  unfold fire, Hook.update_prizeQuota, RetryManager.executeWithRetry,
    RetryManager.maxRetries. cbn [snd].
  destruct (decide (id ∈ map z_id ps)) as [Hin|Hno].
  - erewrite attempts_first_ok; [reflexivity|].
    unfold updateDoc_prizeQuota, bind, transport, getBackend, setBackend, ret.
    simpl. rewrite bool_decide_eq_true_2 by done.
    reflexivity.
  - rewrite withQuota_absent by done. simpl. unfold tryCatch.
    unfold updateDoc_prizeQuota, bind, transport, getBackend, setBackend, ret, throw.
    simpl. rewrite bool_decide_eq_false_2 by done.
    reflexivity.
Qed.

Lemma admin_addAll_env (ws : list Winner) (e : Env Admin.State) :
  faults (backend e) = [] →
  Admin.addAll ws e
  = (Ok tt, mkEnv (mkWorld (drawingDoc (backend e)) (winnersCol (backend e) ++ ws)%list
                           (prizesCol (backend e)) (participantsCol (backend e)) [])
                  (localStorage e) (alerts e) (react e)).
Proof.
  revert e. induction ws as [|w ws IH]; intros e Hfl.
  - destruct e as [[doc wc ps pp fl] ls al st]; simpl in *; subst fl.
    unfold ret. by rewrite app_nil_r.
  - destruct e as [[doc wc ps pp fl] ls al st]; simpl in Hfl; subst fl.
    cbn [Admin.addAll]. unfold bind at 1.
    assert (Hone : fire (Hook.add_winner w) (mkEnv (mkWorld doc wc ps pp []) ls al st)
              = (Ok tt, mkEnv (mkWorld doc (wc ++ [w])%list ps pp []) ls al st))
      by reflexivity.
    rewrite Hone, IH by done. simpl. by rewrite <- app_assoc.
Qed.

Lemma admin_stop_env (h : Hooks) (st : Admin.State) (ws : list Winner)
    (e : Env Admin.State) (prize : Prize) :
  Admin.isDrawing st = true → ws ≠ [] → faults (backend e) = [] →
  Admin.selectedPrize h st = Some prize →
  (Admin.stopDrawing h st (Some ws) e).2
  = afterStop h ws prize
      (Z.max 0 (z_remainingQuota prize
                - Z.of_nat (length (uniqueNewWinners (h_winners h) ws)))) e.
Proof.
  intros Hdraw Hws Hfl Hprize.
  unfold Admin.stopDrawing. rewrite Hdraw. cbn [negb].
  unfold bind at 1, getItem at 1. cbn [fst snd].
  rewrite (bool_decide_eq_false_2 (length ws = 0))
    by (intros Hlen; apply Hws; by destruct ws).
  rewrite andb_false_r. cbn [default from_option id].
  fold (uniqueNewWinners (h_winners h) ws).
  unfold bind at 1. rewrite admin_addAll_env by done. rewrite Hprize.
  set (newQuota := Z.max 0 _).
  unfold bind at 1. unfold bind at 1.
  destruct (fire (Hook.update_prizeQuota (z_id prize) newQuota) _) as [r1 e2] eqn:Hq.
  assert (He2 : e2 = (fire (Hook.update_prizeQuota (z_id prize) newQuota)
                        (mkEnv (mkWorld (drawingDoc (backend e))
                                  (winnersCol (backend e) ++ uniqueNewWinners (h_winners h) ws)%list
                                  (prizesCol (backend e)) (participantsCol (backend e)) [])
                               (localStorage e) (alerts e) (react e))).2)
    by (by rewrite Hq).
  rewrite update_prizeQuota_healthy in He2 by done.
  cbn [backend drawingDoc winnersCol prizesCol participantsCol localStorage alerts react]
    in He2.
  assert (r1 = Ok tt) as -> by (unfold fire in Hq; by injection Hq as <- _).
  subst e2. unfold afterStop.
  destruct (newQuota <=? 0)%Z.
  - unfold bind, setState, fire. cbn [fst snd].
    rewrite updateDrawingState_healthy by (done || apply map_non_empty_singleton).
    reflexivity.
  - reflexivity.
Qed.

(** X10. AdminPage.stopDrawing with winners and a working transport: the
    remaining quota of the selected prize becomes max(0, the quota the page
    saw minus the number of winners it adds), which is never negative; no
    other prize changes; when the quota reaches zero the selection is
    cleared locally and in the shared record, otherwise it is kept. *)
Theorem stopDrawing_decrements_by_the_winners_added :
  ∀ (h : Hooks) (st : Admin.State) (ws : list Winner) (e : Env Admin.State)
    (prize : Prize),
    Admin.isDrawing st = true → ws ≠ [] → faults (backend e) = [] →
    Admin.selectedPrize h st = Some prize →
    let newQuota :=
      Z.max 0 (z_remainingQuota prize
               - Z.of_nat (length (uniqueNewWinners (h_winners h) ws))) in
    let e' := (Admin.stopDrawing h st (Some ws) e).2 in
    prizesCol (backend e') = withQuota (z_id prize) newQuota (prizesCol (backend e))
    ∧ (0 ≤ newQuota)%Z
    ∧ ((newQuota ≤ 0)%Z →
       Admin.selectedPrizeId (react e') = None
       ∧ field e' "selectedPrizeId" = Some JNull)
    ∧ ((0 < newQuota)%Z →
       Admin.selectedPrizeId (react e') = Admin.selectedPrizeId (react e)
       ∧ drawingDoc (backend e') = drawingDoc (backend e))
    ∧ Admin.currentWinners (react e') = ws
    ∧ Admin.isDrawing (react e') = false.
Proof.
  intros h st ws e prize Hdraw Hws Hfl Hprize newQuota e'.
  subst e'. rewrite (admin_stop_env h st ws e prize) by done. fold newQuota.
  unfold afterStop.
  split; [reflexivity|]. split; [lia|]. split; [|split].
  - intros Hle. apply Z.leb_le in Hle. rewrite Hle. split; [reflexivity|].
    unfold field. cbn [backend drawingDoc mbind option_bind].
    apply (published_lookup _ _ "selectedPrizeId" JNull); [done|apply lookup_singleton_eq].
  - intros Hlt. apply Z.leb_gt in Hlt. rewrite Hlt. done.
  - by destruct (newQuota <=? 0)%Z.
Qed.

Lemma stopDrawing_decrements_by_the_winners_added_witness :
  Admin.isDrawing adminStopping = true
  ∧ [anaAdmin] ≠ []
  ∧ faults (backend (mkEnv raceWorld ∅ [] adminStopping)) = []
  ∧ Admin.selectedPrize (adminView raceWorld) adminStopping
    = Some (mkPrize "z1" "Voucher" None 3 3)
  ∧ map z_remainingQuota
      (prizesCol (backend (Admin.stopDrawing (adminView raceWorld) adminStopping
                             (Some [anaAdmin]) (mkEnv raceWorld ∅ [] adminStopping)).2))
    = [2%Z].
Proof.
  assert (Hne : [anaAdmin] ≠ []) by done.
  split; [reflexivity|]. split; [exact Hne|]. split; [reflexivity|].
  split; [reflexivity|].
  destruct (stopDrawing_decrements_by_the_winners_added
              (adminView raceWorld) adminStopping [anaAdmin]
              (mkEnv raceWorld ∅ [] adminStopping) (mkPrize "z1" "Voucher" None 3 3)
              eq_refl Hne eq_refl eq_refl) as (Hprizes & _).
  rewrite Hprizes. reflexivity.
Defined.

(** X11. AdminPage.stopDrawing called without winners writes nothing: the
    back end, the local storage and the alerts are as before; the call only
    ends the drawing state of the page (and, when the VIP flags are set,
    copies the winners of the shared record into the page).  Called while
    the page is not drawing it does nothing at all. *)
Theorem stopDrawing_without_winners_writes_nothing :
  ∀ (h : Hooks) (st : Admin.State) (finalWinners : option (list Winner))
    (e : Env Admin.State),
    (Admin.isDrawing st = false →
     Admin.stopDrawing h st finalWinners e = (Ok tt, e))
    ∧ (finalWinners = None ∨ finalWinners = Some [] →
       let e' := (Admin.stopDrawing h st finalWinners e).2 in
       backend e' = backend e
       ∧ localStorage e' = localStorage e
       ∧ alerts e' = alerts e
       ∧ (Admin.isDrawing st = true → Admin.isDrawing (react e') = false)).
Proof.
  intros h st finalWinners e. split.
  - intros Hidle. unfold Admin.stopDrawing. by rewrite Hidle.
  - intros Hnone e'.
    assert (Hrun : ∃ st', e' = mkEnv (backend e) (localStorage e) (alerts e) st'
                          ∧ (Admin.isDrawing st = true → Admin.isDrawing st' = false)).
    { subst e'. unfold Admin.stopDrawing.
      destruct (Admin.isDrawing st); cbn [negb];
        [|exists (react e); by destruct e].
      unfold bind at 1, getItem at 1. cbn [fst snd].
      assert (Hno : match finalWinners with
                    | Some ws => bool_decide (length ws = 0)
                    | None => true
                    end = true) by (by destruct Hnone as [->| ->]).
      rewrite Hno, andb_true_r.
      destruct (_ || _ || _ || _).
      - case_bool_decide; eexists; split; reflexivity.
      - eexists; split; reflexivity. }
    destruct Hrun as (st' & -> & Hst'). done.
Qed.

Lemma stopDrawing_without_winners_writes_nothing_witness :
  Admin.isDrawing adminStopping = true
  ∧ backend (Admin.stopDrawing (adminView raceWorld) adminStopping None
               (mkEnv raceWorld ∅ [] adminStopping)).2 = raceWorld
  ∧ Admin.isDrawing (react (Admin.stopDrawing (adminView raceWorld) adminStopping None
                              (mkEnv raceWorld ∅ [] adminStopping)).2) = false.
Proof.
  destruct (stopDrawing_without_winners_writes_nothing (adminView raceWorld)
              adminStopping None (mkEnv raceWorld ∅ [] adminStopping)) as [_ Hnone].
  destruct (Hnone (or_introl eq_refl)) as (Hb & _ & _ & Hd).
  split; [reflexivity|]. split; [exact Hb|]. exact (Hd eq_refl).
Defined.

Lemma startDrawing_sameCollections clk h st :
  leaves sameCollections (Admin.startDrawing clk h st).
Proof. unfold Admin.startDrawing. frame_steps. Qed.

Lemma handleDrawClick_sameCollections `{Shuffler} clk h st :
  leaves sameCollections (Admin.handleDrawClick clk h st).
Proof.
  unfold Admin.handleDrawClick. frame_steps.
  apply startDrawing_sameCollections.
Qed.

Lemma handleStartSpinning_sameCollections st :
  leaves sameCollections (Admin.handleStartSpinning st).
Proof. unfold Admin.handleStartSpinning. frame_steps. Qed.

Lemma vip_handleMainButton_sameCollections `{Shuffler} clk h st :
  leaves sameCollections (Vip.handleMainButton clk h st).
Proof.
  unfold Vip.handleMainButton.
  destruct (Vip.isProcessing st); [apply leaves_ret; apply _|].
  destruct (Vip.drawingPhase st); [frame_steps|].
  destruct (Vip.validateDraw h st); [|frame_steps].
  destruct (Vip.generateWinners clk h st) as [finalWinners [sessionId|]]; frame_steps.
Qed.

(** X12. Before the finalize timer fires no controller action touches the
    repository: starting a draw and starting the spin on the admin page, and
    the start and stop branches of the VIP page's main button, leave the
    Winner, Prize and Participant collections exactly as they were, for
    every state of the page and every behaviour of the transport. *)
Theorem draw_start_and_spin_leave_the_collections :
  ∀ (shuffler : Shuffler) (clk : Clock) (h : Hooks),
    (∀ (st : Admin.State) (e : Env Admin.State),
       sameCollections e (Admin.handleDrawClick clk h st e).2
       ∧ sameCollections e (Admin.startDrawing clk h st e).2
       ∧ sameCollections e (Admin.handleStartSpinning st e).2)
    ∧ (∀ (st : Vip.State) (e : Env Vip.State),
         sameCollections e (Vip.handleMainButton clk h st e).2).
Proof.
  intros shuffler clk h. split.
  - intros st e. split; [|split].
    + eapply handleDrawClick_sameCollections. apply surjective_pairing.
    + eapply startDrawing_sameCollections. apply surjective_pairing.
    + eapply handleStartSpinning_sameCollections. apply surjective_pairing.
  - intros st e. eapply vip_handleMainButton_sameCollections. apply surjective_pairing.
Qed.

(** ** The VIP page at the end of a draw *)

#[export] Instance sameLocal_refl {S} : Reflexive (@sameLocal S).
Proof. by intros e. Qed.

#[export] Instance sameLocal_trans {S} : Transitive (@sameLocal S).
Proof. intros a b c (?&?&?) (?&?&?). unfold sameLocal. repeat split; congruence. Qed.

#[export] Instance vipHeld_refl : Reflexive vipHeld.
Proof. by intros e. Qed.

#[export] Instance vipHeld_trans : Transitive vipHeld.
Proof.
  intros a b c (?&?&?&?&?&?) (?&?&?&?&?&?). unfold vipHeld. repeat split; congruence.
Qed.

Lemma sameLocal_vipHeld (e e' : Env Vip.State) : sameLocal e e' → vipHeld e e'.
Proof. intros (Hl & _ & Hr). unfold vipHeld. rewrite Hl, Hr. done. Qed.

Section LocalFrames.
Context {S : Type}.

Lemma transport_sameLocal : leaves (@sameLocal S) transport.
Proof.
  intros e r e'. unfold transport, bind, getBackend, setBackend, throw, ret.
  destruct e as [[doc ws ps pp fl] ls al st]; simpl.
  destruct fl as [|[c|] fl]; intros [= <- <-]; done.
Qed.

Lemma updateDoc_drawing_sameLocal fields : leaves (@sameLocal S) (updateDoc_drawing fields).
Proof.
  unfold updateDoc_drawing.
  apply leaves_bind; [apply _|apply transport_sameLocal|intros _].
  intros e r e'. unfold bind, getBackend, setBackend, throw.
  destruct e as [[doc ws ps pp fl] ls al st]; simpl.
  destruct doc; intros [= <- <-]; done.
Qed.

Lemma setDoc_drawing_sameLocal data : leaves (@sameLocal S) (setDoc_drawing data).
Proof.
  unfold setDoc_drawing.
  apply leaves_bind; [apply _|apply transport_sameLocal|intros _].
  intros e r e' [= <- <-]. done.
Qed.

Lemma updateDrawingState_sameLocal updates :
  leaves (@sameLocal S) (updateDrawingState updates).
Proof.
  unfold updateDrawingState. case_bool_decide; [apply leaves_throw; apply _|].
  apply leaves_tryCatch; [apply _|apply updateDoc_drawing_sameLocal|intros err].
  case_bool_decide; [apply setDoc_drawing_sameLocal|apply leaves_throw; apply _].
Qed.

Lemma add_winner_sameLocal item : leaves (@sameLocal S) (Hook.add_winner item).
Proof.
  apply leaves_attempts; [apply _ ..|]. unfold addDoc_winner.
  apply leaves_bind; [apply _|apply transport_sameLocal|intros _].
  intros e r e' [= <- <-]. done.
Qed.

Lemma update_prizeQuota_sameLocal id q :
  leaves (@sameLocal S) (Hook.update_prizeQuota id q).
Proof.
  apply leaves_attempts; [apply _ ..|]. unfold updateDoc_prizeQuota.
  apply leaves_bind; [apply _|apply transport_sameLocal|intros _].
  intros e r e'. unfold bind, getBackend, setBackend, throw.
  case_bool_decide; intros [= <- <-]; done.
Qed.

End LocalFrames.

Lemma leaves_vipHeld_of_sameLocal {A} (m : M Vip.State A) :
  leaves sameLocal m → leaves vipHeld m.
Proof. apply leaves_weaken. apply sameLocal_vipHeld. Qed.

Lemma setProcessingStatus_vipHeld s : leaves vipHeld (setState (Vip.setProcessingStatus s)).
Proof. intros e r e' [= <- <-]. done. Qed.

Lemma setSelectedPrizeId_vipHeld i : leaves vipHeld (setState (Vip.setSelectedPrizeId i)).
Proof. intros e r e' [= <- <-]. done. Qed.

Lemma vip_addEach_vipHeld ws : leaves vipHeld (Vip.addEach ws).
Proof.
  induction ws as [|w ws IH]; simpl; [apply leaves_ret; apply _|].
  apply leaves_bind; [apply _| |intros _; exact IH].
  apply leaves_vipHeld_of_sameLocal, add_winner_sameLocal.
Qed.

Lemma vip_save_vipHeld h st ws : leaves vipHeld (Vip.saveWinnersToDatabase h st ws).
Proof.
  unfold Vip.saveWinnersToDatabase. case_bool_decide; [apply leaves_ret; apply _|].
  apply leaves_tryCatch; [apply _| |intros err].
  - apply leaves_bind; [apply _|apply setProcessingStatus_vipHeld|intros _].
    case_bool_decide; [apply leaves_ret; apply _|].
    apply leaves_bind; [apply _|apply vip_addEach_vipHeld|intros _].
    apply leaves_ret; apply _.
  - apply leaves_bind; [apply _|apply setProcessingStatus_vipHeld|intros _].
    apply leaves_ret; apply _.
Qed.

Lemma vip_updatePrizeQuota_vipHeld h prize n : leaves vipHeld (Vip.updatePrizeQuota h prize n).
Proof.
  unfold Vip.updatePrizeQuota.
  apply leaves_tryCatch; [apply _| |intros err; apply leaves_ret; apply _].
  destruct (find _ _); [|apply leaves_ret; apply _].
  apply leaves_bind; [apply _| |intros _].
  { apply leaves_vipHeld_of_sameLocal, update_prizeQuota_sameLocal. }
  apply leaves_bind; [apply _| |intros _; apply leaves_ret; apply _].
  destruct (_ <=? _)%Z; [|apply leaves_ret; apply _].
  apply leaves_bind; [apply _|apply setSelectedPrizeId_vipHeld|intros _].
  apply leaves_vipHeld_of_sameLocal, updateDrawingState_sameLocal.
Qed.

Lemma tryCatch_neverThrows {S A} (m : M S A) (hd : JsErr → M S A) :
  (∀ err, neverThrows (hd err)) → neverThrows (tryCatch m hd).
Proof.
  intros Hhd e. unfold tryCatch. destruct (m e) as [[a|err] e1]; [by eexists _, _|].
  apply Hhd.
Qed.

Lemma vip_save_neverThrows h st ws : neverThrows (Vip.saveWinnersToDatabase h st ws).
Proof.
  unfold Vip.saveWinnersToDatabase. case_bool_decide; [intros e; by eexists _, _|].
  apply tryCatch_neverThrows. intros err e. by eexists _, _.
Qed.

Lemma vip_updatePrizeQuota_neverThrows h prize n :
  neverThrows (Vip.updatePrizeQuota h prize n).
Proof.
  unfold Vip.updatePrizeQuota.
  apply tryCatch_neverThrows. intros err e. by eexists _, _.
Qed.

(** X13. The finalize callback of the VIP page can fail only in its closing
    publish: saving the winners and updating the quota never throw, whatever
    the transport does.  When the callback fails, the page is left where it
    was: the local storage holds no new flag, and [isProcessing], the phase,
    the winners held for the session and [lastDrawSession] are unchanged, so
    a page that was processing is still processing. *)
Theorem vip_finalize_fails_only_in_its_publish :
  ∀ (h : Hooks) (st : Vip.State),
    neverThrows (Vip.saveWinnersToDatabase h st (Vip.predeterminedWinners st))
    ∧ (∀ prize n, neverThrows (Vip.updatePrizeQuota h prize n))
    ∧ ∀ (e e' : Env Vip.State) (err : JsErr),
        Vip.finalizeAfterSlowdown h st e = (Thrown err, e') → vipHeld e e'.
Proof.
  intros h st. split; [apply vip_save_neverThrows|].
  split; [intros prize n; apply vip_updatePrizeQuota_neverThrows|].
  intros e e' err. unfold Vip.finalizeAfterSlowdown. unfold bind at 1.
  destruct (Vip.saveWinnersToDatabase h st _ e) as [[saved|err0] e1] eqn:Hsave.
  2:{ destruct (vip_save_neverThrows h st (Vip.predeterminedWinners st) e)
        as (a & e0 & Hok). rewrite Hok in Hsave. discriminate. }
  pose proof (vip_save_vipHeld h st _ e _ _ Hsave) as Hheld1.
  destruct saved; cbn [negb]; [|intros [=]].
  unfold bind at 1.
  lazymatch goal with
  | |- context [match ?m e1 with _ => _ end] =>
      assert (Hstep : ∃ e2, m e1 = (Ok tt, e2) ∧ vipHeld e1 e2)
  end.
  { destruct (Vip.selectedPrize h st) as [prize|]; [|by exists e1].
    unfold bind.
    destruct (vip_updatePrizeQuota_neverThrows h prize
                (Z.of_nat (length (Vip.predeterminedWinners st))) e1)
      as (a & e0 & Hok).
    rewrite Hok. exists e0. split; [done|].
    eapply vip_updatePrizeQuota_vipHeld, Hok. }
  destruct Hstep as (e2 & -> & Hheld2).
  unfold bind at 1.
  destruct (updateDrawingState _ e2) as [[[]|err0] e3] eqn:Hpub; [intros [=]|].
  intros [= <- <-].
  etrans; [exact Hheld1|]. etrans; [exact Hheld2|].
  eapply sameLocal_vipHeld, updateDrawingState_sameLocal, Hpub.
Qed.

Lemma vip_finalize_fails_only_in_its_publish_witness :
  ∃ err e',
    Vip.finalizeAfterSlowdown freshHooks vipSpinning vipStuckEnv = (Thrown err, e')
    ∧ winnersCol (backend e') = [anaVip]
    ∧ map z_remainingQuota (prizesCol (backend e')) = [2%Z]
    ∧ Vip.isProcessing (react e') = true.
Proof.
  assert (Hres : (Vip.finalizeAfterSlowdown freshHooks vipSpinning vipStuckEnv).1
                 = Thrown (DrawingStateErr (Some "unavailable")))
    by (vm_compute; reflexivity).
  assert (Hrun : Vip.finalizeAfterSlowdown freshHooks vipSpinning vipStuckEnv
                 = (Thrown (DrawingStateErr (Some "unavailable")),
                    (Vip.finalizeAfterSlowdown freshHooks vipSpinning vipStuckEnv).2)).
  { rewrite <- Hres. apply surjective_pairing. }
  eexists _, _. split; [exact Hrun|].
  split; [vm_compute; reflexivity|]. split; [vm_compute; reflexivity|].
  destruct (vip_finalize_fails_only_in_its_publish freshHooks vipSpinning)
    as (_ & _ & Hheld).
  destruct (Hheld vipStuckEnv _ _ Hrun) as (_ & Hproc & _).
  rewrite Hproc. reflexivity.
Defined.

Lemma add_winner_ok {S} (w : Winner) (e : Env S) fs :
  faults (backend e) = None :: fs →
  Hook.add_winner w e
  = (Ok tt, mkEnv (mkWorld (drawingDoc (backend e)) (winnersCol (backend e) ++ [w])%list
                           (prizesCol (backend e)) (participantsCol (backend e)) fs)
                  (localStorage e) (alerts e) (react e)).
Proof.
  intros Hfl. destruct e as [[doc ws ps pp fl] ls al st]; simpl in Hfl; subst fl.
  reflexivity.
Qed.

Lemma add_winner_denied {S} (w : Winner) (e : Env S) code fs :
  faults (backend e) = Some code :: fs →
  RetryManager.shouldRetry (FirestoreErr code) = false →
  Hook.add_winner w e
  = (Thrown (FirestoreErr code),
     mkEnv (mkWorld (drawingDoc (backend e)) (winnersCol (backend e))
                    (prizesCol (backend e)) (participantsCol (backend e)) fs)
           (localStorage e) (alerts e) (react e)).
Proof.
  intros Hfl Hno. destruct e as [[doc ws ps pp fl] ls al st]; simpl in Hfl; subst fl.
  unfold Hook.add_winner, RetryManager.executeWithRetry, RetryManager.maxRetries.
  simpl. unfold tryCatch. simpl. rewrite Hno. reflexivity.
Qed.

Lemma vip_addEach_partial (saved : list Winner) w rest (e : Env Vip.State) code fs :
  faults (backend e) = (replicate (length saved) None ++ Some code :: fs)%list →
  RetryManager.shouldRetry (FirestoreErr code) = false →
  Vip.addEach (saved ++ w :: rest) e
  = (Thrown (FirestoreErr code),
     mkEnv (mkWorld (drawingDoc (backend e)) (winnersCol (backend e) ++ saved)%list
                    (prizesCol (backend e)) (participantsCol (backend e)) fs)
           (localStorage e) (alerts e) (react e)).
Proof.
  intros Hfl Hno. revert e Hfl.
  induction saved as [|s saved IH]; intros e Hfl; simpl in Hfl |- *.
  - unfold bind. rewrite (add_winner_denied w e code fs) by done.
    by rewrite app_nil_r.
  - unfold bind. rewrite (add_winner_ok s e _ Hfl).
    rewrite IH by done. simpl. by rewrite <- app_assoc.
Qed.

(** X14. saveWinnersToDatabase is not atomic.  When the transport refuses
    the add of one winner with an error that is not retried, the winners
    before it stay persisted, the others are not written, and the function
    reports failure.  A later call for the same session then finds the
    winners that were written, takes the session for saved and writes none
    of the missing ones. *)
Theorem vip_save_stops_at_the_first_refused_winner :
  ∀ (h : Hooks) (st : Vip.State) (saved : list Winner) (w : Winner)
    (rest : list Winner) (e : Env Vip.State) (code : string)
    (fs : list (option string)),
    List.filter (Vip.sameSession st) (h_winners h) = [] →
    faults (backend e) = (replicate (length saved) None ++ Some code :: fs)%list →
    RetryManager.shouldRetry (FirestoreErr code) = false →
    let r := Vip.saveWinnersToDatabase h st (saved ++ w :: rest) e in
    r.1 = Ok false
    ∧ winnersCol (backend r.2) = (winnersCol (backend e) ++ saved)%list
    ∧ Vip.processingStatus (react r.2) = Vip.SError
    ∧ ∀ (h' : Hooks) (st' : Vip.State) (sid : string),
        saved ≠ [] →
        Vip.lastDrawSession st' = Some sid →
        Forall (fun x => w_drawSession x = Some sid) saved →
        h_winners h' = winnersCol (backend r.2) →
        ∃ e2, Vip.saveWinnersToDatabase h' st' (saved ++ w :: rest) r.2 = (Ok true, e2)
              ∧ winnersCol (backend e2) = (winnersCol (backend e) ++ saved)%list.
Proof.
  intros h st saved w rest e code fs Hnone Hfl Hno r.
  assert (Hrun : r = (Ok false,
            mkEnv (mkWorld (drawingDoc (backend e)) (winnersCol (backend e) ++ saved)%list
                           (prizesCol (backend e)) (participantsCol (backend e)) fs)
                  (localStorage e) (alerts e)
                  (Vip.setProcessingStatus Vip.SError
                     (Vip.setProcessingStatus Vip.SSaving (react e))))).
  { subst r. unfold Vip.saveWinnersToDatabase.
    rewrite bool_decide_eq_false_2 by (rewrite length_app; simpl; lia).
    unfold tryCatch, bind at 1, setState at 1. cbn [fst snd].
    rewrite Hnone. cbn [length]. rewrite bool_decide_eq_false_2 by lia.
    unfold bind at 1. rewrite (vip_addEach_partial saved w rest _ code fs) by done.
    reflexivity. }
  rewrite Hrun. cbn [fst snd backend winnersCol react].
  split; [reflexivity|]. split; [reflexivity|]. split; [reflexivity|].
  intros h' st' sid Hsaved Hsid Htag Hview.
  eexists. split.
  - apply vip_save_skips; [by destruct saved|].
    rewrite Hview. cbn [backend winnersCol].
    destruct saved as [|s saved]; [done|].
    apply Forall_cons in Htag as [Hs _].
    rewrite List.filter_app. simpl.
    unfold Vip.sameSession at 2. rewrite Hs, Hsid, bool_decide_eq_true_2 by done.
    by destruct (List.filter _ (winnersCol (backend e))).
  - reflexivity.
Qed.

Lemma vip_save_stops_at_the_first_refused_winner_witness :
  List.filter (Vip.sameSession vipSpinning) (h_winners freshHooks) = []
  ∧ faults (backend refusingEnv)
    = (replicate (length [anaVip]) None ++ Some "permission-denied" :: [])%list
  ∧ RetryManager.shouldRetry (FirestoreErr "permission-denied") = false
  ∧ (Vip.saveWinnersToDatabase freshHooks vipSpinning [anaVip; budiVip] refusingEnv).1
    = Ok false
  ∧ winnersCol (backend (Vip.saveWinnersToDatabase freshHooks vipSpinning
                           [anaVip; budiVip] refusingEnv).2) = [anaVip].
Proof.
  split; [reflexivity|]. split; [reflexivity|]. split; [reflexivity|].
  destruct (vip_save_stops_at_the_first_refused_winner freshHooks vipSpinning
              [anaVip] budiVip [] refusingEnv "permission-denied" []
              eq_refl eq_refl eq_refl) as (Hres & Hcol & _).
  split; [exact Hres|exact Hcol].
Defined.

Lemma Forall_imap {A B} (P : B → Prop) (f : nat → A → B) (l : list A) :
  (∀ i x, P (f i x)) → Forall P (imap f l).
Proof.
  revert f. induction l as [|x l IH]; intros f Hf; simpl; constructor; [apply Hf|].
  apply IH. intros i y. apply Hf.
Qed.

(** X15. Every winner the VIP page generates carries the session id that the
    start click stores in [lastDrawSession], and the id and name of the
    selected prize: after a start click that passes validation, the page
    holds the generated winners and its session check ([w.drawSession ===
    lastDrawSession]) accepts each of them.  When the click completes, the
    page is in the spinning phase, no longer processing, and the two VIP
    keys are gone from its local storage; when its publish fails, the page
    is left processing. *)
Theorem vip_winners_carry_the_session_of_the_click :
  ∀ (shuffler : Shuffler) (clk : Clock) (h : Hooks) (st : Vip.State)
    (e : Env Vip.State),
    Vip.isProcessing st = false →
    Vip.drawingPhase st = Vip.Generated →
    Vip.validateDraw h st = Valid →
    let winners := (Vip.generateWinners clk h st).1 in
    let run := Vip.handleMainButton clk h st e in
    ∃ prize,
      Vip.selectedPrize h st = Some prize
      ∧ Vip.lastDrawSession (react run.2)
        = Some ("vip-" +:+ z_id prize +:+ "-" +:+ pretty (clk 0))
      ∧ Vip.predeterminedWinners (react run.2) = winners
      ∧ Forall (fun w => Vip.sameSession (react run.2) w = true
                         ∧ w_prizeId w = Some (z_id prize)
                         ∧ w_prizeName w = Some (z_name prize)) winners
      ∧ (∀ armed, run.1 = Ok armed →
           armed = false
           ∧ Vip.drawingPhase (react run.2) = Vip.Spinning
           ∧ Vip.isProcessing (react run.2) = false
           ∧ localStorage run.2 !! "vipProcessedWinners" = None
           ∧ localStorage run.2 !! "vipDrawSession" = None)
      ∧ (∀ err, run.1 = Thrown err → Vip.isProcessing (react run.2) = true).
Proof.
  intros shuffler clk h st e Hproc Hphase Hvalid winners run.
  pose proof Hvalid as Hv.
  apply validateCommon_valid in Hv as (prize & Hprize & _ & Hlen & _).
  exists prize. split; [exact Hprize|].
  subst winners run. unfold Vip.handleMainButton. rewrite Hproc, Hphase, Hvalid.
  unfold Vip.generateWinners. fold (Vip.selectedPrize h st). rewrite Hprize.
  rewrite bool_decide_eq_false_2 by done.
  cbn [fst snd].
  set (sessionId := "vip-" +:+ z_id prize +:+ "-" +:+ pretty (clk 0)).
  set (winners := imap _ _).
  assert (Htags : ∀ s, Vip.lastDrawSession s = Some sessionId →
            Forall (fun w => Vip.sameSession s w = true
                             ∧ w_prizeId w = Some (z_id prize)
                             ∧ w_prizeName w = Some (z_name prize)) winners).
  { intros s Hs. subst winners. apply Forall_imap. intros i p.
    unfold Vip.sameSession. rewrite Hs. cbn. by rewrite bool_decide_eq_true_2. }
  unfold bind, setState, removeItem, ret. cbn [fst snd backend localStorage alerts react].
  lazymatch goal with
  | |- context [updateDrawingState ?u ?e0] =>
      destruct (updateDrawingState u e0) as [[[]|err] e1] eqn:Hpub;
      pose proof (updateDrawingState_sameLocal _ _ _ _ Hpub) as (Hls & _ & Hreact)
  end; cbn [fst snd backend localStorage alerts react] in *; rewrite Hreact.
  - split; [reflexivity|]. split; [reflexivity|]. split; [by apply Htags|].
    split; [|intros err [=]].
    intros armed [= <-]. split; [done|]. split; [reflexivity|]. split; [reflexivity|].
    split; [|apply lookup_delete_eq].
    rewrite lookup_delete_ne by done. apply lookup_delete_eq.
  - split; [reflexivity|]. split; [reflexivity|]. split; [by apply Htags|].
    split; [intros armed [=]|]. intros err' _. reflexivity.
Qed.

Lemma vip_winners_carry_the_session_of_the_click_witness :
  Vip.isProcessing vipReady = false
  ∧ Vip.drawingPhase vipReady = Vip.Generated
  ∧ Vip.validateDraw poolHooks vipReady = Valid
  ∧ Vip.lastDrawSession
      (react (@Vip.handleMainButton reverseShuffler zeroClock poolHooks vipReady
                (mkEnv emptyWorld ∅ [] vipReady)).2)
    = Some "vip-z1-0".
Proof.
  split; [reflexivity|]. split; [reflexivity|]. split; [reflexivity|].
  destruct (vip_winners_carry_the_session_of_the_click reverseShuffler zeroClock
              poolHooks vipReady (mkEnv emptyWorld ∅ [] vipReady)
              eq_refl eq_refl eq_refl) as (prize & Hprize & Hsession & _).
  rewrite Hsession. vm_compute in Hprize. injection Hprize as <-. reflexivity.
Defined.

(** ** The grid of the display *)

Lemma slotIndexes_seq start n : slotIndexes (start, n) = seq (Z.to_nat start) (Z.to_nat n).
Proof. unfold slotIndexes. simpl. by rewrite fmap_add_seq, Nat.add_0_r. Qed.

(** The rows of a grid of [R] rows and [cols] columns for [drawCount] slots. *)
Lemma gridRows_cover (R : nat) (cols drawCount : Z) :
  concat (map slotIndexes
            (Display.createGridRows drawCount (Display.mkLayout (Z.of_nat R) cols)))
  = seq 0 (Z.to_nat (Z.min (Z.of_nat R * cols) drawCount)).
Proof.
  unfold Display.createGridRows. cbn [Display.rows Display.cols].
  rewrite Nat2Z.id.
  induction R as [|R IH].
  { simpl. by replace (Z.to_nat (Z.min (Z.of_nat 0 * cols) drawCount)) with 0%nat by lia. }
  rewrite seq_S, omap_app, map_app, concat_app, IH. cbn [plus omap list_omap].
  lazymatch goal with
  | |- context [if ?b then _ else _] => destruct b eqn:Hslots
  end; cbn [map concat].
  - apply Z.ltb_lt in Hslots. rewrite app_nil_r, slotIndexes_seq.
    replace (Z.to_nat (Z.min (Z.of_nat (S R) * cols) drawCount))
      with (Z.to_nat (Z.min (Z.of_nat R * cols) drawCount)
            + Z.to_nat (Z.min (Z.of_nat R * cols + cols) drawCount - Z.of_nat R * cols))%nat
      by nia.
    rewrite seq_app. f_equal. f_equal. nia.
  - apply Z.ltb_ge in Hslots. rewrite app_nil_r. f_equal. nia.
Qed.

Lemma gridRows_bounded (R : nat) (cols drawCount : Z) :
  Forall (fun rowData => (0 < snd rowData ≤ cols)%Z)
         (Display.createGridRows drawCount (Display.mkLayout (Z.of_nat R) cols)).
Proof.
  unfold Display.createGridRows. cbn [Display.rows Display.cols].
  apply Forall_forall. intros [start n] (row & Hrow & Hdef)%list_elem_of_omap.
  destruct (0 <? _)%Z eqn:Hslots; [|done]. injection Hdef as <- <-.
  apply Z.ltb_lt in Hslots. simpl. revert Hslots.
  generalize (Z.of_nat row * cols)%Z. intros start Hslots. lia.
Qed.

Lemma omap_length_le {A B} (f : A → option B) (l : list A) :
  (length (omap f l) ≤ length l)%nat.
Proof.
  induction l as [|x l IH]; [done|].
  change (omap f (x :: l)) with (match f x with Some y => y :: omap f l | None => omap f l end).
  destruct (f x); cbn [length]; lia.
Qed.

Lemma layout_has_room (drawCount : Z) :
  ∃ R : nat,
    Display.rows (Display.getLayoutConfig drawCount) = Z.of_nat R
    ∧ Z.to_nat (Z.min (Z.of_nat R * Display.cols (Display.getLayoutConfig drawCount))
                      drawCount)
      = Z.to_nat drawCount.
Proof.
  unfold Display.getLayoutConfig.
  repeat (case_match; [match goal with H : (_ <=? _)%Z = true |- _ =>
                         apply Z.leb_le in H end|
                       match goal with H : (_ <=? _)%Z = false |- _ =>
                         apply Z.leb_gt in H end]);
    cbn [Display.rows Display.cols].
  - exists 1%nat. split; [done|]. f_equal. lia.
  - exists 2%nat. split; [done|]. f_equal. lia.
  - exists 3%nat. split; [done|]. f_equal. lia.
  - exists 4%nat. split; [done|]. f_equal. lia.
  - exists 5%nat. split; [done|]. f_equal. lia.
  - exists 6%nat. split; [done|]. f_equal. lia.
  - exists (Z.to_nat ((drawCount + 5) / 6)).
    assert (0 ≤ (drawCount + 5) / 6)%Z by (apply Z.div_pos; lia).
    split; [lia|]. f_equal. rewrite Z2Nat.id by done.
    pose proof (Z.mul_div_le (drawCount + 5) 6).
    pose proof (Z.mod_pos_bound (drawCount + 5) 6).
    pose proof (Z.div_mod (drawCount + 5) 6). lia.
Qed.

Lemma layout_rows_cover (drawCount : Z) :
  concat (map slotIndexes
            (Display.createGridRows drawCount (Display.getLayoutConfig drawCount)))
  = seq 0 (Z.to_nat drawCount).
Proof.
  destruct (layout_has_room drawCount) as (R & HR & Hroom).
  destruct (Display.getLayoutConfig drawCount) as [rows cols] eqn:Hlayout.
  cbn [Display.rows Display.cols] in *. subst rows.
  by rewrite gridRows_cover, Hroom.
Qed.

(** X16. The grid of the display, for every draw count: the rows returned by
    createGridRows for the layout of getLayoutConfig hold the slot indexes
    0, 1, ..., drawCount - 1, each once and in order (none when the count is
    not positive); no row is empty or wider than the columns of the layout,
    and there are no more rows than the layout has. *)
Theorem grid_rows_hold_every_slot_once :
  ∀ drawCount : Z,
    let layoutConfig := Display.getLayoutConfig drawCount in
    let gridRows := Display.createGridRows drawCount layoutConfig in
    concat (map slotIndexes gridRows) = seq 0 (Z.to_nat drawCount)
    ∧ Forall (fun rowData => (0 < snd rowData ≤ Display.cols layoutConfig)%Z) gridRows
    ∧ (Z.of_nat (length gridRows) ≤ Z.max 0 (Display.rows layoutConfig))%Z.
Proof.
  intros drawCount layoutConfig gridRows. subst gridRows layoutConfig.
  destruct (layout_has_room drawCount) as (R & HR & Hroom).
  destruct (Display.getLayoutConfig drawCount) as [rows cols] eqn:Hlayout.
  cbn [Display.rows Display.cols] in *. subst rows.
  split; [rewrite <- Hlayout; apply layout_rows_cover|].
  split; [apply gridRows_bounded|].
  unfold Display.createGridRows. cbn [Display.rows Display.cols].
  etrans; [apply inj_le, omap_length_le|]. rewrite length_seq. lia.
Qed.

(** X17. What the display puts on screen.  Outside a draw and without final
    results it shows the ready screen.  During a draw or with final results,
    for a prize quota other than 1 (a quota of 0 counts as 1), it shows
    exactly min(quota, pool size) slots, and slot [i] shows "Ready" while
    the page neither spins nor shows final results, and otherwise the
    rolling name [i], else the final winner [i], else the placeholder. *)
Theorem display_shows_min_quota_pool_slots :
  ∀ v : Display.State,
    ((ds_isDrawing (Display.localState v) || Display.showFinalResults v) = false →
     Display.render v = Display.ReadyScreen)
    ∧ ((ds_isDrawing (Display.localState v) || Display.showFinalResults v) = true →
       ds_selectedPrizeQuota (Display.localState v) ≠ 0%Z →
       ds_selectedPrizeQuota (Display.localState v) ≠ 1%Z →
       DisplayView.cells (Display.render v)
       = map (slotCell v) (seq 0 (Z.to_nat (displayDrawCount v)))
       ∧ length (DisplayView.cells (Display.render v))
         = Z.to_nat (displayDrawCount v)).
Proof.
  intros v. split.
  - intros Hidle. unfold Display.render. by rewrite Hidle.
  - intros Hshown Hq0 Hq1.
    assert (Hcells : DisplayView.cells (Display.render v)
              = map (slotCell v) (seq 0 (Z.to_nat (displayDrawCount v)))).
    { unfold Display.render. rewrite Hshown.
      rewrite (proj2 (Z.eqb_neq _ 0)) by done.
      rewrite (proj2 (Z.eqb_neq _ 1)) by done.
      cbn [DisplayView.cells].
      fold (displayDrawCount v) in *.
      replace (Z.min (ds_selectedPrizeQuota (Display.localState v)) _)
        with (displayDrawCount v)
        by (unfold displayDrawCount; by rewrite (proj2 (Z.eqb_neq _ 0))).
      rewrite <- (layout_rows_cover (displayDrawCount v)).
      generalize (Display.createGridRows (displayDrawCount v)
                    (Display.getLayoutConfig (displayDrawCount v))).
      intros gridRows. induction gridRows as [|rowData gridRows IH]; [done|].
      cbn [map concat]. rewrite map_app, <- IH. f_equal.
      unfold slotIndexes. rewrite map_map. reflexivity. }
    split; [exact Hcells|]. by rewrite Hcells, length_map, length_seq.
Qed.

Lemma display_shows_min_quota_pool_slots_witness :
  let v := Display.seen (Display.run (spinOf [citraVip; budiVip]) Display.initial) in
  (ds_isDrawing (Display.localState v) || Display.showFinalResults v) = true
  ∧ ds_selectedPrizeQuota (Display.localState v) ≠ 0%Z
  ∧ ds_selectedPrizeQuota (Display.localState v) ≠ 1%Z
  ∧ length (DisplayView.cells (Display.render v)) = 2%nat.
Proof.
  intros v.
  assert (H0 : ds_selectedPrizeQuota (Display.localState v) ≠ 0%Z) by (vm_compute; discriminate).
  assert (H1 : ds_selectedPrizeQuota (Display.localState v) ≠ 1%Z) by (vm_compute; discriminate).
  split; [reflexivity|]. split; [exact H0|]. split; [exact H1|].
  destruct (display_shows_min_quota_pool_slots v) as [_ Hslots].
  destruct (Hslots eq_refl H0 H1) as [_ Hlen]. rewrite Hlen. reflexivity.
Defined.

(** ** The reveal on the display *)

Section DisplayReveal.
Import Display.

Lemma render_cells (v : State) :
  (ds_isDrawing (localState v) || showFinalResults v) = true →
  ds_selectedPrizeQuota (localState v) ≠ 0%Z →
  ds_selectedPrizeQuota (localState v) ≠ 1%Z →
  DisplayView.cells (render v) = map (slotCell v) (seq 0 (Z.to_nat (displayDrawCount v))).
Proof.
  intros Hshown Hq0 Hq1.
  unfold Display.render. rewrite Hshown.
  rewrite (proj2 (Z.eqb_neq _ 0)) by done.
  rewrite (proj2 (Z.eqb_neq _ 1)) by done.
  cbn [DisplayView.cells].
  replace (Z.min (ds_selectedPrizeQuota (Display.localState v)) _)
    with (displayDrawCount v)
    by (unfold displayDrawCount; by rewrite (proj2 (Z.eqb_neq _ 0))).
  rewrite <- (layout_rows_cover (displayDrawCount v)).
  generalize (Display.createGridRows (displayDrawCount v)
                (Display.getLayoutConfig (displayDrawCount v))).
  intros gridRows. induction gridRows as [|rowData gridRows IH]; [done|].
  cbn [map concat]. rewrite map_app, <- IH. f_equal.
  unfold slotIndexes. rewrite map_map. reflexivity.
Qed.

Lemma effectDraw_same_session (v s : State) :
  ds_isDrawing (localState v) = true →
  ds_currentWinners (localState v) = [] →
  effectDraw v s = s.
Proof.
  intros Hdrawing Hnone. unfold effectDraw. rewrite Hdrawing, Hnone.
  rewrite andb_false_r.
  repeat case_bool_decide; simpl in *; try lia; by rewrite ?andb_false_r.
Qed.

Lemma effectMulti_final (c : Comp) :
  showFinalResults (seen c) = true →
  effectMulti c = mkComp (cur c) (seen c) None (singleTimer c).
Proof.
  intros Hfinal. unfold effectMulti, animating. rewrite Hfinal.
  cbn [negb]. by rewrite !andb_false_r.
Qed.

Lemma effectSingle_final (c : Comp) :
  showFinalResults (seen c) = true →
  effectSingle c = mkComp (cur c) (seen c) (multiTimer c) None.
Proof.
  intros Hfinal. unfold effectSingle, animating. rewrite Hfinal.
  cbn [negb]. by rewrite !andb_false_r.
Qed.

Lemma effectSync_fields (v s : State) :
  drawingState (effectSync v s) = drawingState s
  ∧ localState (effectSync v s) = mergeState (localState s) (drawingState v)
  ∧ participantsSnapshot (effectSync v s) = participantsSnapshot s
  ∧ hasShownResults (effectSync v s) = hasShownResults s.
Proof.
  unfold effectSync.
  destruct (ds_shouldStartSlowdown (drawingState v) && negb (showFinalResults v));
    [|done].
  destruct (ds_predeterminedWinners (drawingState v)); [done|].
  by destruct (ds_selectedPrizeQuota (drawingState v) =? 1)%Z.
Qed.

Lemma effectSync_reveals (v s : State) first rest :
  ds_shouldStartSlowdown (drawingState v) = true →
  showFinalResults v = false →
  ds_predeterminedWinners (drawingState v) = first :: rest →
  showFinalResults (effectSync v s) = true
  ∧ (ds_selectedPrizeQuota (drawingState v) = 1%Z →
     currentSingleName (effectSync v s) = w_name first)
  ∧ (ds_selectedPrizeQuota (drawingState v) ≠ 1%Z →
     rollingNames (effectSync v s) = map w_name (first :: rest)).
Proof.
  intros Hslow Hfinal Hpw. unfold effectSync. rewrite Hslow, Hfinal, Hpw.
  cbn [andb negb].
  destruct (ds_selectedPrizeQuota (drawingState v) =? 1)%Z eqn:Hq.
  - apply Z.eqb_eq in Hq. done.
  - apply Z.eqb_neq in Hq. done.
Qed.

Lemma effectSync_keeps (v s : State) :
  showFinalResults v = true →
  showFinalResults (effectSync v s) = showFinalResults s
  ∧ currentSingleName (effectSync v s) = currentSingleName s
  ∧ rollingNames (effectSync v s) = rollingNames s.
Proof.
  intros Hfinal. unfold effectSync. rewrite Hfinal. cbn [negb].
  by rewrite andb_false_r.
Qed.

Lemma run_app (evs1 evs2 : list Event) (c : Comp) :
  run (evs1 ++ evs2) c = run evs2 (run evs1 c).
Proof. unfold run. apply foldl_app. Qed.

Lemma run_ticks (ticks : list Event) d l rn ps h sp cs f v mt st :
  Forall isTick ticks →
  run ticks (mkComp (mkState d l rn ps h sp cs f) v mt st)
  = mkComp (mkState d l (rollingAfter mt ticks rn) ps h sp (singleAfter st ticks cs) f) v mt st.
Proof.
  intros Hticks. revert rn cs.
  induction Hticks as [|ev ticks Hev _ IH]; intros rn cs; [reflexivity|].
  unfold run, rollingAfter, singleAfter in *. cbn [foldl].
  destruct ev as [ds| | | | | |rnd|r]; try done; cbn [step].
  - unfold tickMulti. cbn [multiTimer]. destruct mt as [[snapshot drawCount]|]; apply IH.
  - unfold tickSingle. cbn [singleTimer]. destruct st as [snapshot|]; apply IH.
Qed.

Lemma rollingAfter_stopped ticks names : rollingAfter None ticks names = names.
Proof.
  unfold rollingAfter. induction ticks as [|ev ticks IH]; [done|].
  cbn [foldl]. by destruct ev.
Qed.

Lemma singleAfter_stopped ticks name : singleAfter None ticks name = name.
Proof.
  unfold singleAfter. induction ticks as [|ev ticks IH]; [done|].
  cbn [foldl]. by destruct ev.
Qed.

Lemma rollingAfter_last timer ticks rnd snapshot drawCount names :
  timer = Some (snapshot, drawCount) →
  rollingAfter timer (ticks ++ [TickMulti rnd]) names
  = map (fun i => randomName snapshot (default (length snapshot) (rnd !! i)))
        (seq 0 (Z.to_nat drawCount)).
Proof. intros ->. unfold rollingAfter. by rewrite foldl_app. Qed.

Lemma run_cons (ev : Event) (evs : list Event) (c : Comp) :
  run (ev :: evs) c = run evs (step c ev).
Proof. reflexivity. Qed.

(** One step of a schedule, and the firings that follow a step. *)
Ltac schedule_step :=
  cbn [app]; rewrite run_cons; cbn [step cur seen multiTimer singleTimer].
Ltac schedule_ticks t :=
  rewrite (run_app t), (run_ticks t) by done.
Ltac state_fields :=
  cbn [drawingState localState rollingNames participantsSnapshot hasShownResults
       isSpinning currentSingleName showFinalResults].

Lemma rollingAfter_app timer ticks1 ticks2 names :
  rollingAfter timer (ticks1 ++ ticks2) names
  = rollingAfter timer ticks2 (rollingAfter timer ticks1 names).
Proof. unfold rollingAfter. apply foldl_app. Qed.

Lemma singleAfter_app timer ticks1 ticks2 name :
  singleAfter timer (ticks1 ++ ticks2) name
  = singleAfter timer ticks2 (singleAfter timer ticks1 name).
Proof. unfold singleAfter. apply foldl_app. Qed.

Lemma reveal_run (c : Comp) (ds : DrawingState) first rest (ticks : nat → list Event) :
  showFinalResults (cur c) = false →
  ds_isDrawing (localState (cur c)) = true →
  ds_currentWinners (localState (cur c)) = [] →
  ds_shouldStartSlowdown ds = true →
  ds_isDrawing ds = true →
  ds_currentWinners ds = [] →
  ds_predeterminedWinners ds = first :: rest →
  (∀ k, Forall isTick (ticks k)) →
  ∃ s, run (revealSchedule ds ticks) c = mkComp s s None None
       ∧ showFinalResults s = true
       ∧ localState s = mergeState (mergeState (localState (cur c)) ds) ds
       ∧ participantsSnapshot s = participantsSnapshot (cur c)
       ∧ (ds_selectedPrizeQuota ds = 1%Z →
          currentSingleName s
          = singleAfter (singleTimer c) (ticksBeforeSingleCleared ticks) (w_name first))
       ∧ (ds_selectedPrizeQuota ds ≠ 1%Z →
          rollingNames s
          = rollingAfter (multiTimer c) (ticksBeforeMultiCleared ticks)
                         (map w_name (first :: rest))).
Proof.
  intros Hfinal Hdrawing Hnone Hslow Hds Hcw Hpw Hticks.
  destruct c as [[d0 l0 rn0 ps0 h0 sp0 cs0 f0] v0 mt st].
  cbn [cur localState showFinalResults multiTimer singleTimer participantsSnapshot]
    in Hfinal, Hdrawing, Hnone |- *.
  subst f0. unfold revealSchedule.
  assert (Hno : bool_decide (0 < 0) = false) by (apply bool_decide_eq_false_2; lia).
  schedule_step. unfold withDrawingState. state_fields.
  schedule_ticks (ticks 0%nat). schedule_step. schedule_ticks (ticks 1%nat).
  schedule_step. unfold effectSync. state_fields. rewrite Hslow, Hpw. cbn [andb negb].
  destruct (ds_selectedPrizeQuota ds =? 1)%Z eqn:Hq;
    [apply Z.eqb_eq in Hq|apply Z.eqb_neq in Hq];
    unfold setCurrentSingleName, setRollingNames, setShowFinalResults, setIsSpinning,
      setLocalState; state_fields;
    schedule_ticks (ticks 2%nat);
    schedule_step; unfold effectDraw; state_fields;
    rewrite Hds, Hdrawing, Hcw, Hnone; cbn [negb andb length]; rewrite Hno, andb_false_r;
    schedule_ticks (ticks 3%nat); schedule_step; schedule_ticks (ticks 4%nat);
    schedule_step; unfold effectSync; state_fields; rewrite andb_false_r;
    unfold setIsSpinning, setLocalState; state_fields;
    schedule_ticks (ticks 5%nat);
    schedule_step; unfold effectDraw; state_fields;
    change (ds_isDrawing (mergeState l0 ds)) with (ds_isDrawing ds);
    change (ds_currentWinners (mergeState l0 ds)) with (ds_currentWinners ds);
    rewrite Hds, Hcw; cbn [negb andb length]; rewrite Hno, andb_false_r;
    schedule_ticks (ticks 6%nat);
    cbn [app]; rewrite run_cons; cbn [step]; rewrite effectMulti_final by done;
    cbn [cur seen multiTimer singleTimer];
    schedule_ticks (ticks 7%nat);
    cbn [app]; rewrite run_cons; cbn [step]; rewrite effectSingle_final by done;
    cbn [cur seen multiTimer singleTimer];
    schedule_ticks (ticks 8%nat); schedule_step;
    (eexists; split; [reflexivity|]); state_fields;
    rewrite ?rollingAfter_stopped, ?singleAfter_stopped;
    unfold ticksBeforeSingleCleared, ticksBeforeMultiCleared;
    rewrite ?rollingAfter_app, ?singleAfter_app; done.
Qed.

(** X18. The reveal.  The display is following a draw (its local state is
    drawing, no winner is shown, no final result yet) when the snapshot with
    the slowdown flag and the predetermined winners arrives.  Whenever the
    animation intervals fire while the page renders the snapshot and runs
    its effects, afterwards it shows final results and both intervals are
    cleared (a later firing changes nothing).  The names under the winner
    badge are those that the firings between the effect that reveals and the
    effect that clears the interval leave from the predetermined winners:
    with no firing there, the first predetermined winner for a quota of 1
    and otherwise predetermined winner [i] in slot [i]; after a firing of
    the multi-slot interval there, the random names of the last such
    firing. *)
Theorem display_reveals_the_predetermined_winners :
  ∀ (c : Comp) (ds : DrawingState) (first : Winner) (rest : list Winner)
    (ticks : nat → list Event),
    showFinalResults (cur c) = false →
    ds_isDrawing (localState (cur c)) = true →
    ds_currentWinners (localState (cur c)) = [] →
    ds_shouldStartSlowdown ds = true →
    ds_isDrawing ds = true →
    ds_currentWinners ds = [] →
    ds_predeterminedWinners ds = first :: rest →
    (1 ≤ ds_selectedPrizeQuota ds)%Z →
    (∀ k, Forall isTick (ticks k)) →
    let c' := run (revealSchedule ds ticks) c in
    let single :=
      singleAfter (singleTimer c) (ticksBeforeSingleCleared ticks) (w_name first) in
    let rolling :=
      rollingAfter (multiTimer c) (ticksBeforeMultiCleared ticks)
                   (map w_name (first :: rest)) in
    showFinalResults (seen c') = true
    ∧ multiTimer c' = None ∧ singleTimer c' = None
    ∧ (∀ rnd r, step c' (TickMulti rnd) = c' ∧ step c' (TickSingle r) = c')
    ∧ (ds_selectedPrizeQuota ds = 1%Z → single ≠ "" →
       screen c' = SinglePicker (Name single true))
    ∧ (ds_selectedPrizeQuota ds ≠ 1%Z →
       ∀ i name, rolling !! i = Some name → name ≠ "" →
                 (i < Z.to_nat (displayDrawCount (seen c')))%nat →
                 DisplayView.cells (screen c') !! i = Some (Name name true))
    ∧ (ticksBeforeSingleCleared ticks = [] →
       single = w_name first ∧ rolling = map w_name (first :: rest))
    ∧ (∀ earlier rnd snapshot drawCount,
         ticksBeforeMultiCleared ticks = (earlier ++ [TickMulti rnd])%list →
         multiTimer c = Some (snapshot, drawCount) →
         rolling = map (fun i => randomName snapshot (default (length snapshot) (rnd !! i)))
                       (seq 0 (Z.to_nat drawCount))).
Proof.
  intros c ds first rest ticks Hfinal Hdrawing Hnone Hslow Hds Hcw Hpw Hquota
    Hticks c' single rolling.
  destruct (reveal_run c ds first rest ticks)
    as (s & Hrun & Hfin & Hloc & Hsnap & Hsingle & Hrolling); try done.
  assert (Hq : ds_selectedPrizeQuota (localState s) = ds_selectedPrizeQuota ds)
    by (by rewrite Hloc).
  subst c'. rewrite Hrun. cbn [seen multiTimer singleTimer].
  split; [done|]. split; [done|]. split; [done|]. split; [done|].
  split; [|split; [|split]].
  - intros Hone Hname. unfold screen, render. cbn [seen].
    rewrite Hq, Hone, Hfin. cbn [Z.eqb Pos.eqb orb negb andb].
    rewrite orb_true_r, andb_false_r.
    rewrite Hsingle by done. fold single.
    unfold firstNonEmpty.
    destruct (String.eqb_spec single "") as [Heq|_]; [by destruct Hname|reflexivity].
  - intros Hmulti i name Hi Hname Hlt. unfold screen. cbn [seen].
    rewrite render_cells.
    + rewrite list_lookup_fmap, lookup_seq_lt by done. cbn [fmap option_fmap option_map].
      unfold slotCell. rewrite Hfin, andb_false_r.
      rewrite Hrolling by done. fold rolling.
      change (0 + i)%nat with i. rewrite Hi. cbn [default from_option id].
      unfold firstNonEmpty.
      destruct (String.eqb_spec name "") as [Heq|_]; [by destruct Hname|reflexivity].
    + by rewrite Hfin, orb_true_r.
    + rewrite Hq. lia.
    + by rewrite Hq.
  - intros Hnil. subst single rolling. rewrite Hnil.
    unfold ticksBeforeSingleCleared in Hnil. apply app_eq_nil in Hnil as [-> _]. done.
  - intros earlier rnd snapshot drawCount Hlast Htimer. subst rolling.
    rewrite Hlast. by apply rollingAfter_last.
Qed.

Lemma display_reveals_the_predetermined_winners_witness :
  let c := run (spinOf [citraVip; budiVip]) initial in
  let ds := committedWith [citraVip; budiVip] true in
  let early := fun k : nat => match k with 1%nat => [TickMulti [2; 2]] | _ => [] end in
  let racing := fun k : nat => match k with 3%nat => [TickMulti [2; 2]] | _ => [] end in
  showFinalResults (cur c) = false
  ∧ ds_isDrawing (localState (cur c)) = true
  ∧ ds_currentWinners (localState (cur c)) = []
  ∧ ds_shouldStartSlowdown ds = true
  ∧ ds_isDrawing ds = true
  ∧ ds_currentWinners ds = []
  ∧ ds_predeterminedWinners ds = [citraVip; budiVip]
  ∧ (1 ≤ ds_selectedPrizeQuota ds)%Z
  ∧ (∀ k, Forall isTick (early k))
  ∧ (∀ k, Forall isTick (racing k))
  ∧ DisplayView.cells (screen (run (revealSchedule ds early) c)) !! 1%nat
    = Some (Name "Budi" true)
  ∧ DisplayView.cells (screen (run (revealSchedule ds racing) c)) !! 1%nat
    = Some (Name "Citra" true).
Proof.
  intros c ds early racing.
  assert (Hq : (1 ≤ ds_selectedPrizeQuota ds)%Z) by (vm_compute; discriminate).
  assert (Hearly : ∀ k, Forall isTick (early k)).
  { intros [|[|k]]; repeat constructor. }
  assert (Hracing : ∀ k, Forall isTick (racing k)).
  { intros [|[|[|[|k]]]]; repeat constructor. }
  destruct (display_reveals_the_predetermined_winners c ds citraVip [budiVip] early
              eq_refl eq_refl eq_refl eq_refl eq_refl eq_refl eq_refl Hq Hearly)
    as (_ & _ & _ & _ & _ & Hslots & _).
  destruct (display_reveals_the_predetermined_winners c ds citraVip [budiVip] racing
              eq_refl eq_refl eq_refl eq_refl eq_refl eq_refl eq_refl Hq Hracing)
    as (_ & _ & _ & _ & _ & Hrandom & _).
  repeat (split; [reflexivity|]). split; [exact Hq|].
  split; [exact Hearly|]. split; [exact Hracing|]. split.
  - apply (Hslots ltac:(vm_compute; discriminate) 1%nat "Budi" eq_refl);
      [vm_compute; discriminate|vm_compute; lia].
  - apply (Hrandom ltac:(vm_compute; discriminate) 1%nat "Citra" eq_refl);
      [vm_compute; discriminate|vm_compute; lia].
Defined.

End DisplayReveal.

(** ** Trimming and lower case *)

Lemma units_ofUnits l : units (ofUnits l) = l.
Proof. apply String.list_ascii_of_string_of_list_ascii. Qed.

Lemma ofUnits_units s : ofUnits (units s) = s.
Proof. apply String.string_of_list_ascii_of_string. Qed.

Lemma lowerUnit_white c : isWhiteSpace (lowerUnit c) = isWhiteSpace c.
Proof. destruct c as [[] [] [] [] [] [] [] []]; reflexivity. Qed.

Lemma trimStartUnits_map (l : list ascii) :
  trimStartUnits (map lowerUnit l) = map lowerUnit (trimStartUnits l).
Proof.
  induction l as [|c l IH]; [done|]. cbn [map trimStartUnits].
  rewrite lowerUnit_white. by destruct (isWhiteSpace c).
Qed.

Lemma trimEndUnits_map (l : list ascii) :
  trimEndUnits (map lowerUnit l) = map lowerUnit (trimEndUnits l).
Proof.
  unfold trimEndUnits.
  change (map lowerUnit) with (fmap (M:=list) lowerUnit).
  rewrite <- fmap_reverse.
  change (fmap (M:=list) lowerUnit) with (map lowerUnit).
  by rewrite trimStartUnits_map, <- (fmap_reverse lowerUnit).
Qed.

Lemma trimStartUnits_idemp l : trimStartUnits (trimStartUnits l) = trimStartUnits l.
Proof.
  induction l as [|c l IH]; [done|]. cbn [trimStartUnits].
  destruct (isWhiteSpace c) eqn:Hc; [done|]. cbn [trimStartUnits]. by rewrite Hc.
Qed.

Lemma trimEndUnits_start l :
  trimStartUnits (trimEndUnits (trimStartUnits l)) = trimEndUnits (trimStartUnits l).
Proof.
  unfold trimEndUnits.
  remember (trimStartUnits l) as t eqn:Ht.
  assert (Hhead : trimStartUnits t = t) by (subst t; apply trimStartUnits_idemp).
  clear Ht l.
  induction t as [|c t IH] using rev_ind; [done|].
  rewrite reverse_app. cbn [reverse app]. rewrite reverse_singleton. cbn [app trimStartUnits].
  destruct (isWhiteSpace c) eqn:Hc.
  - apply IH. 
    destruct t as [|d t]; [done|]. simpl in Hhead |- *.
    destruct (isWhiteSpace d) eqn:Hd; [|done].
    exfalso. 
    assert (Hlen : (length (trimStartUnits (t ++ [c])) ≤ length (t ++ [c]))%nat).
    { clear. generalize (t ++ [c])%list. intros l. induction l as [|x l IH]; simpl; [done|].
      destruct (isWhiteSpace x); simpl; lia. }
    rewrite Hhead in Hlen. simpl in Hlen. lia.
  - rewrite reverse_cons, reverse_involutive. done.
Qed.

Lemma trimEndUnits_idemp l : trimEndUnits (trimEndUnits l) = trimEndUnits l.
Proof.
  unfold trimEndUnits. by rewrite reverse_involutive, trimStartUnits_idemp.
Qed.

Lemma trim_idemp s : trim (trim s) = trim s.
Proof.
  unfold trim. rewrite units_ofUnits, trimEndUnits_start, trimEndUnits_idemp. done.
Qed.

Lemma trim_toLowerCase s : trim (toLowerCase s) = toLowerCase (trim s).
Proof.
  unfold trim, toLowerCase. rewrite !units_ofUnits.
  by rewrite trimStartUnits_map, trimEndUnits_map.
Qed.

(** ** Adding and removing names *)

Lemma existsb_false_Forall {A} (f : A → bool) (l : list A) :
  existsb f l = false → Forall (fun x => f x = false) l.
Proof.
  induction l as [|x l IH]; simpl; [constructor|].
  intros [Hx Hl]%orb_false_elim. constructor; auto.
Qed.

Lemma validateName_valid participants name :
  validateName participants name = Valid →
  trim name ≠ ""
  ∧ (2 ≤ String.length (trim name) ≤ 100)%nat
  ∧ Forall (fun p => normalizedName p ≠ toLowerCase (trim name)) participants.
Proof.
  unfold validateName.
  repeat case_bool_decide; try discriminate.
  destruct (existsb _ _) eqn:Hdup; [discriminate|]. intros _.
  split; [done|]. split; [lia|].
  apply existsb_false_Forall in Hdup.
  eapply Forall_impl; [exact Hdup|]. intros p Hp. by apply bool_decide_eq_false in Hp.
Qed.

Lemma normalizedName_of_trimmed p name :
  p_name p = trim name → normalizedName p = toLowerCase (trim name).
Proof.
  intros Hname. unfold normalizedName. by rewrite Hname, trim_toLowerCase, trim_idemp.
Qed.

(** X19. Adding a participant by hand keeps the list free of duplicates.
    When handleAddName accepts the text of the field, the name it hands on
    is the trimmed text, of 2 to 100 code units, and no participant of the
    list has that name up to case and surrounding white space: a list with
    pairwise distinct names stays so when the participant is added, and the
    same text, in any case, is then refused. *)
Theorem handleAddName_keeps_names_distinct :
  ∀ (participants : list Participant) (newName name : string),
    handleAddName participants newName = AddParticipant name →
    name = trim newName
    ∧ acceptableName name
    ∧ ∀ added : Participant,
        p_name added = name →
        (distinctNames participants → distinctNames (added :: participants))
        ∧ ∀ again : string,
            toLowerCase (trim again) = toLowerCase name →
            ∃ error, handleAddName (added :: participants) again = ShowError error.
Proof.
  intros participants newName name. unfold handleAddName.
  destruct (validateName participants newName) as [|error] eqn:Hvalid; [|discriminate].
  intros [= <-]. apply validateName_valid in Hvalid as (Hne & Hlen & Hfresh).
  split; [done|]. split; [split; [apply trim_idemp|done]|].
  intros added Hname. split.
  - intros Hdistinct. unfold distinctNames. cbn [map]. apply NoDup_cons. split; [|done].
    rewrite (normalizedName_of_trimmed added newName Hname).
    intros (p & Hp & Hin)%list_elem_of_fmap.
    eapply Forall_forall in Hfresh; [|exact Hin]. by apply Hfresh.
  - intros again Hagain.
    destruct (validateName (added :: participants) again) as [|error] eqn:Hv.
    + apply validateName_valid in Hv as (_ & _ & Hfresh').
      apply Forall_cons in Hfresh' as [Hadded _]. exfalso. apply Hadded.
      rewrite (normalizedName_of_trimmed added newName Hname). done.
    + eexists. reflexivity.
Qed.

Lemma handleAddName_keeps_names_distinct_witness :
  handleAddName [ana] " Budi " = AddParticipant "Budi"
  ∧ acceptableName "Budi"
  ∧ ∃ error, handleAddName [budi; ana] "BUDI" = ShowError error.
Proof.
  assert (H : handleAddName [ana] " Budi " = AddParticipant "Budi") by reflexivity.
  destruct (handleAddName_keeps_names_distinct _ _ _ H) as (_ & Hname & Hadded).
  split; [exact H|]. split; [exact Hname|].
  destruct (Hadded budi eq_refl) as [_ Hagain].
  apply Hagain. reflexivity.
Defined.

Lemma duplicatesFrom_sublist seen participants :
  duplicatesFrom seen participants `sublist_of` participants.
Proof.
  revert seen. induction participants as [|p rest IH]; intros seen; simpl; [done|].
  case_bool_decide; [by apply sublist_skip|by apply sublist_cons].
Qed.

Lemma filter_ext_in {A} (P Q : A → Prop) `{∀ x, Decision (P x)} `{∀ x, Decision (Q x)}
    (l : list A) :
  (∀ x, x ∈ l → P x ↔ Q x) → filter P l = filter Q l.
Proof.
  induction l as [|x l IH]; intros Hext; [done|].
  rewrite !filter_cons.
  destruct (decide (P x)) as [HP|HP], (decide (Q x)) as [HQ|HQ].
  - f_equal. apply IH. intros y Hy. apply Hext. by right.
  - exfalso. apply HQ, Hext; [by left|done].
  - exfalso. apply HP, Hext; [by left|done].
  - apply IH. intros y Hy. apply Hext. by right.
Qed.

Lemma duplicatesFrom_kept seen participants :
  NoDup (map p_id participants) →
  let kept := filter (fun p => p_id p ∉ map p_id (duplicatesFrom seen participants))
                     participants in
  NoDup (map normalizedName kept)
  ∧ (∀ p, p ∈ kept → normalizedName p ∉ seen)
  ∧ (∀ p, p ∈ participants →
       normalizedName p ∈ seen ∨ normalizedName p ∈ map normalizedName kept)
  ∧ (length (duplicatesFrom seen participants) + length kept = length participants)%nat.
Proof.
  revert seen. induction participants as [|p rest IH]; intros seen Hids kept.
  { subst kept. simpl. split; [constructor|]. split; [by intros p ?%elem_of_nil|].
    split; [by intros p ?%elem_of_nil|done]. }
  cbn [map] in Hids. apply NoDup_cons in Hids as [Hp Hids].
  subst kept. cbn [duplicatesFrom]. case_bool_decide as Hseen.
  - destruct (IH seen Hids) as (Hnd & Hfresh & Hcover & Hlen).
    cbn [map]. rewrite filter_cons, decide_False by (intros Hno; apply Hno; by left).
    rewrite (filter_ext_in _ (fun q => p_id q ∉ map p_id (duplicatesFrom seen rest))).
    + split; [done|]. split; [done|]. split; [|simpl; lia].
      intros q [->|Hq]%elem_of_cons; [by left|by apply Hcover].
    + intros q Hq. rewrite not_elem_of_cons. split; [by intros [_ ?]|].
      intros Hno. split; [|done]. intros Heq. apply Hp. rewrite <- Heq.
      by apply list_elem_of_fmap_2.
  - destruct (IH (normalizedName p :: seen) Hids) as (Hnd & Hfresh & Hcover & Hlen).
    rewrite filter_cons, decide_True.
    2:{ intros (q & Heq & Hq)%list_elem_of_fmap. apply Hp. rewrite Heq.
        apply list_elem_of_fmap_2.
        eapply elem_of_sublist; [exact Hq|apply duplicatesFrom_sublist]. }
    split; [|split; [|split]].
    + cbn [map]. apply NoDup_cons. split; [|done].
      intros (q & Heq & Hq)%list_elem_of_fmap. apply (Hfresh q Hq). rewrite <- Heq. by left.
    + intros q [->|Hq]%elem_of_cons; [done|].
      intros Hin. apply (Hfresh q Hq). by right.
    + intros q [->|Hq]%elem_of_cons; [right; by left|].
      destruct (Hcover q Hq) as [[Heq|Hin]%elem_of_cons|Hin].
      * right. rewrite Heq. by left.
      * by left.
      * right. by right.
    + simpl. lia.
Qed.

Lemma duplicatesFrom_distinct seen participants :
  NoDup (map normalizedName participants) →
  (∀ p, p ∈ participants → normalizedName p ∉ seen) →
  duplicatesFrom seen participants = [].
Proof.
  revert seen. induction participants as [|p rest IH]; intros seen Hnd Hfresh; [done|].
  cbn [map] in Hnd. apply NoDup_cons in Hnd as [Hp Hnd].
  cbn [duplicatesFrom]. rewrite bool_decide_eq_false_2 by (apply Hfresh; by left).
  apply IH; [done|]. intros q Hq [Heq|Hin]%elem_of_cons.
  - apply Hp. rewrite <- Heq. by apply list_elem_of_fmap_2.
  - apply (Hfresh q); [by right|done].
Qed.

Lemma deleteDoc_participant_healthy {S} id (e : Env S) :
  faults (backend e) = [] →
  (fire (Collection.remove_participant id) e)
  = (Ok tt, mkEnv (mkWorld (drawingDoc (backend e)) (winnersCol (backend e))
                           (prizesCol (backend e))
                           (filter (fun p => p_id p ≠ id) (participantsCol (backend e))) [])
                  (localStorage e) (alerts e) (react e)).
Proof.
  intros Hfl. destruct e as [[doc ws ps pp fl] ls al st]; simpl in Hfl; subst fl.
  reflexivity.
Qed.

Lemma removeEach_healthy duplicates (e : Env Admin.State) :
  faults (backend e) = [] →
  removeEach duplicates e
  = (Ok tt, mkEnv (mkWorld (drawingDoc (backend e)) (winnersCol (backend e))
                           (prizesCol (backend e))
                           (filter (fun p => p_id p ∉ map p_id duplicates)
                                   (participantsCol (backend e))) [])
                  (localStorage e) (alerts e) (react e)).
Proof.
  revert e. induction duplicates as [|d rest IH]; intros e Hfl.
  - destruct e as [[doc ws ps pp fl] ls al st]; simpl in *; subst fl.
    unfold ret. by rewrite filter_not_in_nil.
  - cbn [removeEach]. unfold bind, AdminPage.removeParticipant.
    rewrite deleteDoc_participant_healthy by done. rewrite IH by done.
    cbn [backend drawingDoc winnersCol prizesCol participantsCol localStorage alerts react].
    f_equal. f_equal. f_equal.
    rewrite <- (filter_filter_not_in _ [p_id d] (map p_id rest)).
    f_equal. apply filter_ext_in. intros q _.
    rewrite not_elem_of_cons. split; [intros Hne; split; [done|apply not_elem_of_nil]|].
    by intros [? _].
Qed.

(** X20. findDuplicates and removeDuplicates, for participants with pairwise
    distinct ids.  The duplicates found are the participants whose name, up
    to case and surrounding white space, occurred earlier in the list; the
    list holds none exactly when the names are pairwise distinct.  What
    remains when they are taken out has pairwise distinct names and still
    holds every name of the list; and with a working transport a confirmed
    removeDuplicates leaves exactly these participants in the collection. *)
Theorem removeDuplicates_leaves_each_name_once :
  ∀ (participants : list Participant),
    NoDup (map p_id participants) →
    distinctNames (withoutDuplicates participants)
    ∧ (∀ p, p ∈ participants →
         normalizedName p ∈ map normalizedName (withoutDuplicates participants))
    ∧ (length (findDuplicates participants)
       + length (withoutDuplicates participants) = length participants)%nat
    ∧ (findDuplicates participants = [] ↔ distinctNames participants)
    ∧ ∀ e : Env Admin.State,
        faults (backend e) = [] →
        participantsCol (backend e) = participants →
        participantsCol (backend (removeDuplicates participants true e).2)
        = withoutDuplicates participants
        ∧ removeDuplicates participants false e
          = (if bool_decide (length (findDuplicates participants) = 0)
             then alert "Tidak ada duplikasi ditemukan" e else (Ok tt, e)).
Proof.
  intros participants Hids.
  destruct (duplicatesFrom_kept [] participants Hids) as (Hnd & _ & Hcover & Hlen).
  fold (findDuplicates participants) in *. fold (withoutDuplicates participants) in *.
  split; [exact Hnd|]. split.
  { intros p Hp. destruct (Hcover p Hp) as [Hin|Hin]; [by apply elem_of_nil in Hin|done]. }
  split; [exact Hlen|]. split.
  { split.
    - intros Hnone. unfold distinctNames.
      replace participants with (withoutDuplicates participants) at 1; [done|].
      unfold withoutDuplicates. rewrite Hnone. apply filter_not_in_nil.
    - intros Hdistinct. 
      apply duplicatesFrom_distinct; [done|]. intros p _. apply not_elem_of_nil. }
  intros e Hfl Hcol. split.
  - unfold removeDuplicates. case_bool_decide as Hnone.
    + unfold alert. cbn [snd backend participantsCol]. rewrite Hcol.
      unfold withoutDuplicates.
      destruct (findDuplicates participants); [|done]. symmetry. apply filter_not_in_nil.
    + rewrite removeEach_healthy by done. cbn [snd backend participantsCol].
      by rewrite Hcol.
  - unfold removeDuplicates. by case_bool_decide.
Qed.

Lemma removeDuplicates_leaves_each_name_once_witness :
  NoDup (map p_id [ana; budi; ana2])
  ∧ distinctNames (withoutDuplicates [ana; budi; ana2])
  ∧ (length (findDuplicates [ana; budi; ana2])
     + length (withoutDuplicates [ana; budi; ana2]) = 3)%nat.
Proof.
  assert (H : NoDup (map p_id [ana; budi; ana2])).
  { apply (bool_decide_unpack _). reflexivity. }
  destruct (removeDuplicates_leaves_each_name_once _ H) as (Hdistinct & _ & Hlen & _).
  split; [exact H|]. split; [exact Hdistinct|exact Hlen].
Defined.

(** ** The import of a file *)

Lemma length_zero_empty (s : string) : (String.length s = 0)%nat ↔ s = "".
Proof. destruct s; simpl; split; intros; first [done|lia]. Qed.

Lemma uniqueFrom_spec seen participants :
  NoDup (map keyOfRow (uniqueFrom seen participants))
  ∧ (∀ r, r ∈ uniqueFrom seen participants → (keyOfRow r ∉ seen) ∧ r ∈ participants)
  ∧ (∀ p, p ∈ participants →
       keyOfRow p ∈ seen ∨ keyOfRow p ∈ map keyOfRow (uniqueFrom seen participants)).
Proof.
  revert seen. induction participants as [|p rest IH]; intros seen.
  { simpl. split; [constructor|]. split; by intros r ?%elem_of_nil. }
  cbn [uniqueFrom]. fold (keyOfRow p). case_bool_decide as Hseen.
  - destruct (IH seen) as (Hnd & Hin & Hcover).
    split; [done|]. split.
    + intros r Hr. destruct (Hin r Hr). split; [done|by right].
    + intros q [->|Hq]%elem_of_cons; [by left|by apply Hcover].
  - destruct (IH (keyOfRow p :: seen)) as (Hnd & Hin & Hcover).
    split; [|split].
    + cbn [map]. apply NoDup_cons. split; [|done].
      intros (r & Heq & Hr)%list_elem_of_fmap. destruct (Hin r Hr) as [Hno _].
      apply Hno. rewrite <- Heq. by left.
    + intros r [->|Hr]%elem_of_cons; [split; [done|by left]|].
      destruct (Hin r Hr) as [Hno ?]. split; [|by right].
      intros ?. apply Hno. by right.
    + intros q [->|Hq]%elem_of_cons; [right; by left|].
      destruct (Hcover q Hq) as [[Heq|?]%elem_of_cons|?].
      * right. rewrite Heq. by left.
      * by left.
      * right. by right.
Qed.

Lemma uniqueFrom_first p rest : uniqueFrom [] (p :: rest) ≠ [].
Proof. cbn [uniqueFrom]. by rewrite bool_decide_eq_false_2 by apply not_elem_of_nil. Qed.

Lemma rowOfLine_named line : line ≠ "" → i_name (rowOfLine line) ≠ "" ∧ i_email (rowOfLine line) = None.
Proof. intros Hline. unfold rowOfLine. by destruct (allDigits line). Qed.

(** X21. The import of a text file.  The file is refused exactly when none of
    its lines holds anything but white space.  Otherwise the rows delivered
    have non-empty names that are pairwise distinct up to case, carry no
    e-mail address, and stand for every line that is not blank: a line of
    digits under the name BIB followed by the digits padded with zeros to
    four places, any other line under its trimmed text (up to case, the
    first spelling wins). *)
Theorem importFromFile_txt_rows :
  ∀ content : string,
    match importFromFile_txt content with
    | Rejected message =>
        message = "Tidak ditemukan data yang valid dalam file teks."
        ∧ Forall (fun line => trim line = "") (split "010"%char content)
    | Resolved rows =>
        rows ≠ []
        ∧ NoDup (map keyOfRow rows)
        ∧ Forall (fun r => i_name r ≠ "" ∧ i_email r = None) rows
        ∧ ∀ line, line ∈ split "010"%char content → trim line ≠ "" →
            ∃ r, r ∈ rows
                 ∧ keyOfRow r
                   = toLowerCase (if allDigits (trim line)
                                  then "BIB " +:+ padStart 4 "0"%char (trim line)
                                  else trim line)
    end.
Proof.
  intros content. unfold importFromFile_txt.
  set (lines := filter (fun line => (0 < String.length line)%nat)
                       (map trim (split "010"%char content))).
  assert (Hlines : ∀ line, line ∈ lines ↔
            line ≠ "" ∧ ∃ raw, raw ∈ split "010"%char content ∧ line = trim raw).
  { intros line. subst lines. rewrite list_elem_of_filter.
    change (map trim) with (fmap (M:=list) trim). rewrite list_elem_of_fmap.
    rewrite <- length_zero_empty. split.
    - intros [Hlen (raw & -> & Hraw)]. split; [lia|eauto].
    - intros [Hlen (raw & Hraw & ->)]. split; [lia|eauto]. }
  case_bool_decide as Hnone.
  - split; [done|]. rewrite length_map in Hnone. apply nil_length_inv in Hnone.
    apply Forall_forall. intros raw Hraw.
    destruct (decide (trim raw = "")) as [|Hne]; [done|].
    assert (Hin : trim raw ∈ lines) by (apply Hlines; eauto).
    rewrite Hnone in Hin. by apply elem_of_nil in Hin.
  - destruct (uniqueFrom_spec [] (map rowOfLine lines)) as (Hnd & Hin & Hcover).
    split; [|split; [done|split]].
    + destruct (map rowOfLine lines) as [|p rest] eqn:Hrows; [done|].
      apply uniqueFrom_first.
    + apply Forall_forall. intros r Hr. destruct (Hin r Hr) as [_ Hrow].
      change (map rowOfLine) with (fmap (M:=list) rowOfLine) in Hrow.
      apply list_elem_of_fmap in Hrow as (line & -> & Hline).
      apply rowOfLine_named. by apply Hlines in Hline as [? _].
    + intros raw Hraw Hne.
      assert (Hline : trim raw ∈ lines) by (apply Hlines; eauto).
      destruct (Hcover (rowOfLine (trim raw))) as [Hnil|Hkey].
      { change (map rowOfLine) with (fmap (M:=list) rowOfLine).
        by apply list_elem_of_fmap_2. }
      { by apply elem_of_nil in Hnil. }
      change (map keyOfRow) with (fmap (M:=list) keyOfRow) in Hkey.
      apply list_elem_of_fmap in Hkey as (r & Heq & Hr).
      exists r. split; [done|]. rewrite <- Heq. unfold keyOfRow, rowOfLine.
      by destruct (allDigits (trim raw)).
Qed.

Lemma collectSeen_foldl l : collectSeen l = foldl seenStep [] l.
Proof. reflexivity. Qed.

Lemma seen_spec (l : list ProcessedData) (seen : list (string * ProcessedData)) :
  NoDup (map fst seen) →
  Forall (fun kd => fst kd = keyOfData (snd kd)) seen →
  let seen' := foldl seenStep seen l in
  NoDup (map fst seen')
  ∧ Forall (fun kd => fst kd = keyOfData (snd kd)) seen'
  ∧ (∀ kd, kd ∈ seen' → kd ∈ seen ∨ snd kd ∈ l)
  ∧ (∀ k, k ∈ map fst seen → k ∈ map fst seen')
  ∧ (∀ d, d ∈ l → keyOfData d ∈ map fst seen').
Proof.
  revert seen. induction l as [|d l IH]; intros seen Hnd Hkeys seen'.
  { subst seen'. simpl. split; [done|]. split; [done|]. split; [by left|].
    split; [done|]. by intros d ?%elem_of_nil. }
  subst seen'. cbn [foldl].
  assert (Hstep : NoDup (map fst (seenStep seen d))
                  ∧ Forall (fun kd => fst kd = keyOfData (snd kd)) (seenStep seen d)
                  ∧ (∀ kd, kd ∈ seenStep seen d → kd ∈ seen ∨ snd kd = d)
                  ∧ (∀ k, k ∈ map fst seen → k ∈ map fst (seenStep seen d))
                  ∧ keyOfData d ∈ map fst (seenStep seen d)).
  { unfold seenStep. case_bool_decide as Hin.
    - split; [done|]. split; [done|]. split; [by left|]. done.
    - split; [|split; [|split; [|split]]].
      + rewrite map_app. cbn [map fst]. apply NoDup_app. split; [done|].
        split; [|apply NoDup_singleton].
        intros k Hk Hk2. apply list_elem_of_singleton in Hk2 as ->. done.
      + apply Forall_app. split; [done|]. by constructor.
      + intros kd [?|Hkd]%elem_of_app; [by left|]. apply list_elem_of_singleton in Hkd as ->. by right.
      + intros k Hk. rewrite map_app. apply elem_of_app. by left.
      + rewrite map_app. apply elem_of_app. right. cbn [map fst]. by left. }
  destruct Hstep as (Hnd1 & Hkeys1 & Hfrom1 & Hmono1 & Hd).
  destruct (IH (seenStep seen d) Hnd1 Hkeys1) as (Hnd2 & Hkeys2 & Hfrom2 & Hmono2 & Hcov2).
  split; [done|]. split; [done|]. split; [|split].
  - intros kd Hkd. destruct (Hfrom2 kd Hkd) as [Hs|Hl]; [|right; by right].
    destruct (Hfrom1 kd Hs) as [?| ->]; [by left|right; by left].
  - intros k Hk. by apply Hmono2, Hmono1.
  - intros d' [->|Hd']%elem_of_cons; [by apply Hmono2|by apply Hcov2].
Qed.

Lemma uniqueImportData_spec (l : list ProcessedData) :
  NoDup (map keyOfData (uniqueImportData l))
  ∧ (∀ d, d ∈ uniqueImportData l → d ∈ l)
  ∧ (∀ d, d ∈ l → keyOfData d ∈ map keyOfData (uniqueImportData l)).
Proof.
  unfold uniqueImportData. rewrite collectSeen_foldl.
  destruct (seen_spec l [] (NoDup_nil_2) (List.Forall_nil _))
    as (Hnd & Hkeys & Hfrom & _ & Hcov).
  set (seen := foldl seenStep [] l) in *.
  assert (Hmap : map keyOfData (map snd seen) = map fst seen).
  { clear -Hkeys. induction Hkeys as [|kd s Hkd Hs IH]; [done|].
    cbn [map]. by rewrite IH, Hkd. }
  rewrite Hmap. split; [done|]. split; [|done].
  intros d Hd. change (map snd) with (fmap (M:=list) (@snd string ProcessedData)) in Hd.
  apply list_elem_of_fmap in Hd as (kd & -> & Hkd).
  destruct (Hfrom kd Hkd) as [?%elem_of_nil|?]; done.
Qed.

Lemma sorted_spec participants (l : list ProcessedData) (acc : Sorted) :
  let sorted := foldl (sortOne participants) acc l in
  validData sorted
  = (validData acc ++ filter (fun d => isValidRow participants d = true) l)%list
  ∧ duplicateNamesOf sorted
    = (duplicateNamesOf acc
       ++ map d_name (filter (fun d => isDuplicateRow participants d = true) l))%list
  ∧ invalidNamesOf sorted
    = (invalidNamesOf acc
       ++ map d_name (filter (fun d => isInvalidRow participants d = true) l))%list.
Proof.
  revert acc. induction l as [|d l IH]; intros acc sorted.
  { subst sorted. simpl. by rewrite !app_nil_r. }
  subst sorted. cbn [foldl]. destruct (IH (sortOne participants acc d)) as (Hv & Hd & Hi).
  rewrite Hv, Hd, Hi. rewrite !filter_cons.
  unfold sortOne, isValidRow, isDuplicateRow, isInvalidRow.
  destruct (validateName participants (d_name d)) as [|error]; cbn [isValid].
  - repeat (destruct (decide _) as [?|?]; try done).
    cbn [validData duplicateNamesOf invalidNamesOf]. by rewrite <- app_assoc.
  - destruct (includes "sudah terdaftar" error); cbn [negb];
      repeat (destruct (decide _) as [?|?]; try done);
      cbn [validData duplicateNamesOf invalidNamesOf map]; by rewrite <- app_assoc.
Qed.

Lemma includes_app (sub pre s : string) :
  includes sub s = true → includes sub (pre +:+ s) = true.
Proof.
  intros Hs. induction pre as [|c pre IH]; [done|].
  change (includes sub (String c pre +:+ s))
    with (String.prefix sub (String c (pre +:+ s)) || includes sub (pre +:+ s)).
  rewrite IH. apply orb_true_r.
Qed.

(** The messages of [validateName], told apart as the import does. *)
Lemma validateName_messages participants name error :
  validateName participants name = Invalid error →
  if includes "sudah terdaftar" error
  then (2 ≤ String.length (trim name) ≤ 100)%nat
       ∧ ∃ p, p ∈ participants ∧ normalizedName p = toLowerCase (trim name)
  else (String.length (trim name) < 2 ∨ 100 < String.length (trim name))%nat.
Proof.
  unfold validateName.
  case_bool_decide as Hempty.
  { intros [= <-]. rewrite Hempty. vm_compute. left. lia. }
  case_bool_decide as Hshort; [intros [= <-]; by left|].
  case_bool_decide as Hlong; [intros [= <-]; by right|].
  destruct (existsb _ _) eqn:Hdup; [|done]. intros [= <-].
  rewrite (includes_app "sudah terdaftar" "Peserta " _
             (includes_app "sudah terdaftar" quote _
                (includes_app "sudah terdaftar" (trim name) _
                   (includes_app "sudah terdaftar" quote " sudah terdaftar" eq_refl)))).
  split; [lia|]. apply existsb_exists in Hdup as (p & Hp & Heq).
  exists p. split; [by apply list_elem_of_In|by apply bool_decide_eq_true in Heq].
Qed.

Lemma NoDup_map_filter {A B} (f : A → B) (P : A → Prop) `{∀ x, Decision (P x)}
    (l : list A) :
  NoDup (map f l) → NoDup (map f (filter P l)).
Proof.
  induction l as [|x l IH]; [done|]. cbn [map]. intros [Hx Hl]%NoDup_cons.
  rewrite filter_cons. destruct (decide (P x)); [|by apply IH].
  cbn [map]. apply NoDup_cons. split; [|by apply IH].
  intros (y & Heq & Hy)%list_elem_of_fmap. apply Hx. rewrite Heq.
  apply list_elem_of_fmap_2. by apply list_elem_of_filter in Hy as [_ ?].
Qed.

Lemma processData_trimmed importedData d :
  d ∈ processData importedData →
  trim (d_name d) = d_name d ∧ d_phone d = None
  ∧ ∃ data, data ∈ importedData ∧ d_name d = trim (i_name data)
            ∧ d_email d = i_email data.
Proof.
  unfold processData. intros (data & -> & Hdata)%list_elem_of_fmap.
  apply list_elem_of_filter in Hdata as [_ Hdata]. cbn [d_name d_phone d_email].
  split; [apply trim_idemp|]. split; [done|]. eauto.
Qed.

Lemma normalizedName_of_name (p : Participant) (name : string) :
  p_name p = name → trim name = name → normalizedName p = toLowerCase name.
Proof.
  intros Hp Hname. unfold normalizedName. by rewrite Hp, trim_toLowerCase, Hname.
Qed.

(** X22. The import of a list of rows.  handleFileImport sorts the rows with
    a name that is not blank, the first of each name up to case, into the
    rows it hands to onImportParticipants, the names it reports as
    registered already and the names it reports as invalid, and the three
    counts of the result are the lengths of these lists.  The rows handed on
    have trimmed names of 2 to 100 code units, pairwise distinct up to case,
    none of a participant of the list; the names reported as registered
    are names of participants up to case; the names reported as invalid are
    shorter than 2 or longer than 100 code units; every name of the file
    that is not blank is, up to case, in one of the three lists.  So a list
    of participants with pairwise distinct names keeps them distinct when
    the rows handed on are added. *)
Theorem handleFileImport_sorts_the_rows :
  ∀ (participants : list Participant) (importedData : list ImportedParticipantData),
    ∃ (valid : list ProcessedData) (registered invalidNames : list string),
      handleFileImport participants (Resolved importedData)
      = ImportDone
          (mkImportResult (length valid) (length registered) (length invalidNames)
                          registered invalidNames)
          (if bool_decide (0 < length valid)%nat then Some valid else None)
          (if bool_decide (0 < length registered)%nat then Some registered else None)
      ∧ Forall (fun d => acceptableName (d_name d)) valid
      ∧ NoDup (map keyOfData valid)
      ∧ Forall (fun d => Forall (fun p => normalizedName p ≠ keyOfData d) participants)
               valid
      ∧ Forall (fun name => acceptableName name
                            ∧ ∃ p, p ∈ participants ∧ normalizedName p = toLowerCase name)
               registered
      ∧ Forall (fun name => trim name = name
                            ∧ (String.length name < 2 ∨ 100 < String.length name)%nat)
               invalidNames
      ∧ (∀ data, data ∈ importedData → trim (i_name data) ≠ "" →
           toLowerCase (trim (i_name data))
           ∈ map toLowerCase (map d_name valid ++ registered ++ invalidNames)%list)
      ∧ (distinctNames participants →
         ∀ added : list Participant,
           map p_name added = map d_name valid →
           distinctNames (added ++ participants)%list).
Proof.
  intros participants importedData.
  set (unique := uniqueImportData (processData importedData)).
  destruct (sorted_spec participants unique (mkSorted [] [] [])) as (Hv & Hd & Hi).
  cbn [validData duplicateNamesOf invalidNamesOf app] in Hv, Hd, Hi.
  destruct (uniqueImportData_spec (processData importedData)) as (Hnd & Hfrom & Hcover).
  fold unique in Hnd, Hfrom, Hcover.
  exists (filter (fun d => isValidRow participants d = true) unique),
         (map d_name (filter (fun d => isDuplicateRow participants d = true) unique)),
         (map d_name (filter (fun d => isInvalidRow participants d = true) unique)).
  assert (Hvalid : ∀ d, d ∈ filter (fun d => isValidRow participants d = true) unique →
            acceptableName (d_name d)
            ∧ Forall (fun p => normalizedName p ≠ keyOfData d) participants).
  { intros d [Hrow Hd']%list_elem_of_filter.
    destruct (processData_trimmed importedData d (Hfrom d Hd')) as (Htrim & _).
    unfold isValidRow in Hrow.
    destruct (validateName participants (d_name d)) eqn:Hval; [|done].
    apply validateName_valid in Hval as (_ & Hlen & Hfresh).
    rewrite Htrim in Hlen, Hfresh. by split. }
  split; [|split; [|split; [|split; [|split; [|split; [|split]]]]]].
  - unfold handleFileImport. fold unique. cbv zeta. by rewrite Hv, Hd, Hi.
  - apply Forall_forall. intros d Hd'. by apply Hvalid.
  - by apply NoDup_map_filter.
  - apply Forall_forall. intros d Hd'. by apply Hvalid.
  - apply Forall_forall. intros name (d & -> & [Hrow Hd']%list_elem_of_filter)%list_elem_of_fmap.
    destruct (processData_trimmed importedData d (Hfrom d Hd')) as (Htrim & _).
    unfold isDuplicateRow in Hrow.
    destruct (validateName participants (d_name d)) as [|error] eqn:Hval; [done|].
    apply validateName_messages in Hval. rewrite Hrow, Htrim in Hval.
    destruct Hval as [Hlen Hp]. by split.
  - apply Forall_forall. intros name (d & -> & [Hrow Hd']%list_elem_of_filter)%list_elem_of_fmap.
    destruct (processData_trimmed importedData d (Hfrom d Hd')) as (Htrim & _).
    unfold isInvalidRow in Hrow.
    destruct (validateName participants (d_name d)) as [|error] eqn:Hval; [done|].
    apply validateName_messages in Hval.
    destruct (includes "sudah terdaftar" error); [done|]. by rewrite Htrim in Hval.
  - intros data Hdata Hne.
    set (d := mkProcessed (trim (i_name data)) None (i_email data)).
    assert (Hd' : d ∈ processData importedData).
    { unfold processData.
      apply (list_elem_of_fmap_2
               (fun data => mkProcessed (trim (i_name data)) None (i_email data)) _ data).
      apply list_elem_of_filter. split; [|done]. split.
      - intros Hempty. apply Hne. by rewrite Hempty.
      - destruct (trim (i_name data)); [done|simpl; lia]. }
    apply Hcover in Hd'. apply list_elem_of_fmap in Hd' as (u & Hkey & Hu).
    change (toLowerCase (trim (i_name data))) with (keyOfData d). rewrite Hkey.
    change (keyOfData u) with (toLowerCase (d_name u)).
    apply list_elem_of_fmap_2. rewrite !elem_of_app.
    unfold isValidRow, isDuplicateRow, isInvalidRow.
    destruct (validateName participants (d_name u)) as [|error] eqn:Hval.
    + left. apply (list_elem_of_fmap_2 d_name). apply list_elem_of_filter.
      unfold isValidRow. by rewrite Hval.
    + right. destruct (includes "sudah terdaftar" error) eqn:Hinc.
      * left. apply (list_elem_of_fmap_2 d_name). apply list_elem_of_filter.
        unfold isDuplicateRow. by rewrite Hval.
      * right. apply (list_elem_of_fmap_2 d_name). apply list_elem_of_filter.
        unfold isInvalidRow. by rewrite Hval, Hinc.
  - intros Hdistinct added Hadded. unfold distinctNames in *.
    set (valid := filter (fun d => isValidRow participants d = true) unique) in *.
    assert (Hnames : map normalizedName added = map keyOfData valid).
    { assert (Htrimmed : Forall (fun d => trim (d_name d) = d_name d) valid).
      { apply Forall_forall. intros d Hd'. by destruct (Hvalid d Hd') as [[? _] _]. }
      clear -Hadded Htrimmed. revert added Hadded.
      induction Htrimmed as [|d valid Hd' _ IH]; intros [|p added] Hadded;
        try discriminate; [done|].
      cbn [map] in *. injection Hadded as Hp Hadded.
      rewrite (IH added Hadded). f_equal. by apply normalizedName_of_name. }
    rewrite map_app, Hnames. apply NoDup_app. split; [by apply NoDup_map_filter|].
    split; [|done].
    intros k (d & -> & Hd')%list_elem_of_fmap (p & Heq & Hp)%list_elem_of_fmap.
    destruct (Hvalid d Hd') as [_ Hfresh].
    rewrite Forall_forall in Hfresh. by apply (Hfresh p Hp).
Qed.

(** ** The mask of an e-mail address *)

Lemma append_cons c a b : String c a +:+ b = String c (a +:+ b).
Proof. reflexivity. Qed.

Lemma append_empty_r s : s +:+ "" = s.
Proof. induction s as [|c s IH]; [done|]. by rewrite append_cons, IH. Qed.

Lemma append_assoc a b c : (a +:+ b) +:+ c = a +:+ (b +:+ c).
Proof. induction a as [|x a IH]; [done|]. by rewrite !append_cons, IH. Qed.

Lemma units_app a b : units (a +:+ b) = (units a ++ units b)%list.
Proof.
  unfold units. induction a as [|c a IH]; [done|].
  rewrite append_cons. cbn [String.list_ascii_of_string app]. by rewrite IH.
Qed.

Lemma ofUnits_app l k : ofUnits (l ++ k)%list = ofUnits l +:+ ofUnits k.
Proof.
  unfold ofUnits. induction l as [|c l IH]; [done|].
  cbn [String.string_of_list_ascii app]. by rewrite append_cons, IH.
Qed.

Lemma length_units s : length (units s) = String.length s.
Proof. unfold units. induction s as [|c s IH]; [done|]. simpl. by rewrite IH. Qed.

Lemma length_append a b : String.length (a +:+ b) = (String.length a + String.length b)%nat.
Proof. by rewrite <- !length_units, units_app, length_app. Qed.

Lemma split_nonempty sep s : ∃ part parts, split sep s = part :: parts.
Proof.
  induction s as [|c s (part & parts & IH)]; simpl; [eauto|].
  destruct (Ascii.eqb c sep); [eauto|]. rewrite IH. eauto.
Qed.

Lemma split_none sep a : sep ∉ units a → split sep a = [a].
Proof.
  induction a as [|c a IH]; [done|]. cbn [units String.list_ascii_of_string].
  fold (units a). intros [Hc Ha]%not_elem_of_cons. cbn [split].
  destruct (Ascii.eqb_spec c sep) as [->|_]; [done|]. by rewrite IH.
Qed.

Lemma split_app sep a b :
  sep ∉ units a → split sep (a +:+ String sep b) = a :: split sep b.
Proof.
  induction a as [|c a IH].
  - intros _. change ("" +:+ String sep b) with (String sep b).
    change (split sep (String sep b))
      with (if Ascii.eqb sep sep then EmptyString :: split sep b
            else match split sep b with
                 | part :: parts => String sep part :: parts
                 | [] => [String sep EmptyString]
                 end).
    by rewrite Ascii.eqb_refl.
  - cbn [units String.list_ascii_of_string]. fold (units a).
    intros [Hc Ha]%not_elem_of_cons.
    change (String c a +:+ String sep b) with (String c (a +:+ String sep b)).
    change (split sep (String c (a +:+ String sep b)))
      with (if Ascii.eqb c sep then EmptyString :: split sep (a +:+ String sep b)
            else match split sep (a +:+ String sep b) with
                 | part :: parts => String c part :: parts
                 | [] => [String c EmptyString]
                 end).
    destruct (Ascii.eqb_spec c sep) as [->|_]; [done|]. by rewrite IH.
Qed.

(** A string has no separator, or a first one. *)
Lemma first_separator sep s :
  sep ∉ units s
  ∨ ∃ a b, s = a +:+ String sep b ∧ sep ∉ units a.
Proof.
  induction s as [|c s IH]; [left; apply not_elem_of_nil|].
  destruct (Ascii.eqb_spec c sep) as [->|Hne].
  - right. exists "", s. split; [done|apply not_elem_of_nil].
  - destruct IH as [Hno|(a & b & -> & Ha)].
    + left. cbn [units String.list_ascii_of_string]. fold (units s).
      apply not_elem_of_cons. split; [congruence|done].
    + right. exists (String c a), b. split; [done|].
      cbn [units String.list_ascii_of_string]. fold (units a).
      apply not_elem_of_cons. split; [congruence|done].
Qed.

Lemma maskEmail_parts (localPart domain rest : string) :
  "@"%char ∉ units localPart → "@"%char ∉ units domain →
  (rest = "" ∨ ∃ r, rest = String "@" r) →
  maskEmail (localPart +:+ String "@" (domain +:+ rest))
  = if bool_decide (domain = "") then localPart +:+ String "@" (domain +:+ rest)
    else if bool_decide (String.length localPart ≤ 4)%nat
    then localPart +:+ String "@" (domain +:+ rest)
    else maskedLocal localPart +:+ String "@" domain.
Proof.
  intros Hl Hd Hrest. unfold maskEmail.
  rewrite bool_decide_eq_false_2 by (by destruct localPart).
  rewrite split_app by done.
  assert (Hsplit : ∃ parts, split "@" (domain +:+ rest) = domain :: parts).
  { destruct Hrest as [->|[r ->]].
    - rewrite append_empty_r, split_none by done. eauto.
    - rewrite split_app by done. eauto. }
  destruct Hsplit as [parts ->]. cbn [lookup list_lookup default from_option id].
  repeat case_bool_decide; try done.
  unfold maskedLocal. rewrite !ofUnits_app.
  by rewrite !append_assoc.
Qed.

Lemma maskedLocal_units (localPart : string) :
  units (maskedLocal localPart)
  = (take 2 (units localPart)
     ++ replicate (String.length localPart - 4) "*"%char
     ++ drop (String.length localPart - 2) (units localPart))%list.
Proof. unfold maskedLocal. apply units_ofUnits. Qed.

Lemma maskedLocal_length (localPart : string) :
  (4 < String.length localPart)%nat →
  String.length (maskedLocal localPart) = String.length localPart.
Proof.
  intros Hlen. rewrite <- (length_units (maskedLocal localPart)), maskedLocal_units.
  rewrite !length_app, length_take, length_replicate, length_drop, length_units. lia.
Qed.

Lemma maskedLocal_lookup (localPart : string) (i : nat) :
  (4 < String.length localPart)%nat → (i < String.length localPart)%nat →
  units (maskedLocal localPart) !! i
  = if bool_decide (i < 2 ∨ String.length localPart - 2 ≤ i)%nat
    then units localPart !! i else Some "*"%char.
Proof.
  intros Hlen Hi. rewrite maskedLocal_units.
  pose proof (length_units localPart) as Hu.
  destruct (decide (i < 2)%nat) as [Hlow|Hlow].
  - rewrite bool_decide_eq_true_2 by (by left).
    rewrite lookup_app_l by (rewrite length_take; lia). by apply lookup_take_lt.
  - rewrite lookup_app_r by (rewrite length_take; lia).
    rewrite length_take, Hu, Nat.min_l by lia.
    destruct (decide (String.length localPart - 2 ≤ i)%nat) as [Hhigh|Hhigh].
    + rewrite bool_decide_eq_true_2 by (by right).
      rewrite lookup_app_r by (rewrite length_replicate; lia).
      rewrite length_replicate, lookup_drop. f_equal. lia.
    + rewrite bool_decide_eq_false_2 by lia.
      rewrite lookup_app_l by (rewrite length_replicate; lia).
      apply lookup_replicate_2. lia.
Qed.

Lemma maskedLocal_no_at (localPart : string) :
  "@"%char ∉ units localPart → "@"%char ∉ units (maskedLocal localPart).
Proof.
  intros Hno. rewrite maskedLocal_units, !elem_of_app.
  intros [Hin|[Hin|Hin]].
  - apply Hno. by eapply subseteq_take.
  - by apply elem_of_replicate_inv in Hin.
  - apply Hno. by eapply subseteq_drop.
Qed.

Lemma maskedLocal_idemp (localPart : string) :
  (4 < String.length localPart)%nat →
  maskedLocal (maskedLocal localPart) = maskedLocal localPart.
Proof.
  intros Hlen. unfold maskedLocal at 1. rewrite maskedLocal_length by done.
  rewrite maskedLocal_units. unfold maskedLocal. f_equal.
  pose proof (length_units localPart) as Hu.
  f_equal; [|f_equal].
  - rewrite take_app_le by (rewrite length_take; lia). rewrite take_take. f_equal.
  - rewrite drop_app_ge by (rewrite length_take; lia).
    rewrite length_take, Hu, Nat.min_l by lia.
    rewrite drop_app_ge by (rewrite length_replicate; lia).
    rewrite length_replicate.
    replace (String.length localPart - 2 - 2 - (String.length localPart - 4))%nat
      with 0%nat by lia.
    done.
Qed.

(** How [maskEmail] reads an address: without a separator, or as a local
    part, a domain and what follows a second separator. *)
Lemma email_parts (email : string) :
  "@"%char ∉ units email
  ∨ ∃ localPart domain rest,
      email = localPart +:+ String "@" (domain +:+ rest)
      ∧ ("@"%char ∉ units localPart) ∧ ("@"%char ∉ units domain)
      ∧ (rest = "" ∨ ∃ r, rest = String "@" r).
Proof.
  destruct (first_separator "@" email) as [?|(a & b & -> & Ha)]; [by left|right].
  destruct (first_separator "@" b) as [Hb|(d & r & -> & Hd)].
  - exists a, b, "". rewrite append_empty_r. eauto.
  - exists a, d, (String "@" r). eauto 10.
Qed.

Lemma maskEmail_plain (email : string) : "@"%char ∉ units email → maskEmail email = email.
Proof.
  intros Hno. unfold maskEmail. case_bool_decide as Hempty; [done|].
  by rewrite split_none by done.
Qed.

(** X23. maskEmail shows the two first and the two last characters of a local
    part of more than four characters and a star for every character
    between them, and leaves the domain as it is; an address whose local
    part has at most four characters is returned as it is, unmasked.  For
    every text the result is no longer than the text, and masking a result
    again changes nothing. *)
Theorem maskEmail_hides_the_middle :
  ∀ email : string,
    (String.length (maskEmail email) ≤ String.length email)%nat
    ∧ maskEmail (maskEmail email) = maskEmail email
    ∧ ∀ localPart domain : string,
        email = localPart +:+ "@" +:+ domain →
        "@"%char ∉ units localPart → "@"%char ∉ units domain → domain ≠ "" →
        ((String.length localPart ≤ 4)%nat → maskEmail email = email)
        ∧ ((4 < String.length localPart)%nat →
           ∃ masked : string,
             maskEmail email = masked +:+ "@" +:+ domain
             ∧ String.length masked = String.length localPart
             ∧ ∀ i, (i < String.length localPart)%nat →
                 units masked !! i
                 = if bool_decide (i < 2 ∨ String.length localPart - 2 ≤ i)%nat
                   then units localPart !! i else Some "*"%char).
Proof.
  intros email. split; [|split].
  - destruct (email_parts email) as [Hno|(l & d & rest & -> & Hl & Hd & Hrest)].
    { by rewrite maskEmail_plain. }
    rewrite maskEmail_parts by done.
    repeat case_bool_decide; try done.
    change (String "@" (d +:+ rest)) with ("@" +:+ d +:+ rest).
    change (String "@" d) with ("@" +:+ d).
    rewrite !length_append, maskedLocal_length by lia. lia.
  - destruct (email_parts email) as [Hno|(l & d & rest & -> & Hl & Hd & Hrest)].
    { by rewrite !(maskEmail_plain email). }
    rewrite maskEmail_parts by done.
    case_bool_decide as Hdom.
    { rewrite maskEmail_parts by done. by rewrite bool_decide_eq_true_2. }
    case_bool_decide as Hlen.
    { rewrite maskEmail_parts by done.
      rewrite bool_decide_eq_false_2 by done. by rewrite bool_decide_eq_true_2. }
    rewrite <- (append_empty_r d) at 1.
    rewrite maskEmail_parts; [|by apply maskedLocal_no_at|done|by left].
    rewrite bool_decide_eq_false_2 by done.
    rewrite bool_decide_eq_false_2 by (rewrite maskedLocal_length; lia).
    rewrite maskedLocal_idemp by lia. done.
  - intros l d -> Hl Hd Hdom.
    change (l +:+ "@" +:+ d) with (l +:+ String "@" d).
    assert (Hmask : maskEmail (l +:+ String "@" d)
                    = if bool_decide (String.length l ≤ 4)%nat
                      then l +:+ String "@" d else maskedLocal l +:+ String "@" d).
    { pose proof (maskEmail_parts l d "" Hl Hd (or_introl eq_refl)) as Hparts.
      rewrite append_empty_r in Hparts. rewrite Hparts.
      by rewrite bool_decide_eq_false_2 by done. }
    rewrite Hmask. split.
    + intros Hlen. by rewrite bool_decide_eq_true_2.
    + intros Hlen. rewrite bool_decide_eq_false_2 by lia.
      exists (maskedLocal l). split; [done|]. split; [by apply maskedLocal_length|].
      intros i Hi. by apply maskedLocal_lookup.
Qed.
